(** * The MCP connection manager, resource router and selection validator

    A shallow embedding of the connection manager, the capability
    synthesizer and the resource router of [src/service.ts] (class
    [McpService]: [initialize], [stop], [updateServerConnections],
    [connectToServer], [deleteConnection], [restartConnection], [callTool],
    [readResource] and what they call), of the selection validators of
    [src/utils/validation.ts], of the result processing of
    [src/utils/processing.ts] and of the resource templates they use,
    followed by their properties.

    Conventions of the embedding.
    - JavaScript strings are [string]s holding the UTF-8 bytes of the text.
    - A value that can be thrown is modelled by its message
      ([error instanceof Error ? error.message : String(error)]).
    - [undefined] is [None]; JSON values are the inductive [json]; numbers
      are integers (every number the service itself produces is one).
    - Calls to the logger have no effect on any result and are left out.
    - An [async] method runs to completion: the interleaving of other
      operations at its [await] points is not part of the model, and
      neither are the [onerror] and [onclose] callbacks of a transport,
      which only set the status and error text of their own connection
      and recompute the availability flag.
    - What the service calls outside itself is explicit: each connection
      carries the answers of its client and transport, a [World] gives the
      snapshot builder, the [URL] constructor and the provider reached by
      a configuration, and every method returns, with its result, the list
      of the calls it made on clients and transports. *)

From Stdlib Require Import String Ascii List ZArith Bool Arith Lia.
From Stdlib Require Import DecimalString.
From Stdlib Require DecimalPos DecimalFacts.
Import ListNotations.
Local Open Scope list_scope.
Local Open Scope string_scope.


(* ================================================================== *)
(** * Results of calls that may throw *)
(* ================================================================== *)

Inductive Result (A : Type) : Type :=
| Ok (a : A)
| Throw (message : string).
Arguments Ok {A} a.
Arguments Throw {A} message.

Definition fails {A} (r : Result A) : Prop := exists e, r = Throw e.
Definition returns {A} (r : Result A) : Prop := exists a, r = Ok a.

(* ================================================================== *)
(** * Strings *)
(* ================================================================== *)

Module Str.

Definition code (c : ascii) : Z := Z.of_N (N_of_ascii c).
Definition chr (z : Z) : ascii := ascii_of_N (Z.to_N z).

(** The double quote character. *)
Definition dquote : ascii := ascii_of_nat 34.
Definition quoted (s : string) : string :=
  String dquote (s ++ String dquote EmptyString).

(** [dq] turns every apostrophe into a double quote; it is used to write
    JSON text literals. *)
Fixpoint dq (s : string) : string :=
  match s with
  | EmptyString => EmptyString
  | String c r => String (if Ascii.eqb c "'" then dquote else c) (dq r)
  end.

Definition LF : string := String (ascii_of_nat 10) EmptyString.

(** [String.prototype.startsWith]. *)
Fixpoint startsWith (p s : string) : bool :=
  match p, s with
  | EmptyString, _ => true
  | String a p', String b s' => Ascii.eqb a b && startsWith p' s'
  | String _ _, EmptyString => false
  end.

(** The text left after the first [n] characters. *)
Fixpoint drop (n : nat) (s : string) : string :=
  match n, s with
  | O, _ => s
  | S n', String _ r => drop n' r
  | S _, EmptyString => EmptyString
  end.

(** [String.prototype.includes]. *)
Fixpoint includes (sub s : string) : bool :=
  startsWith sub s ||
  match s with
  | EmptyString => false
  | String _ r => includes sub r
  end.

(** [s.replace(pat, rep)] for a string pattern and a replacement without
    [$] patterns: the first occurrence only. *)
Fixpoint replace (pat rep s : string) : string :=
  if startsWith pat s then rep ++ drop (String.length pat) s
  else match s with
       | EmptyString => EmptyString
       | String c r => String c (replace pat rep r)
       end.

(** [s.split(sep)[0]] for a one-character separator. *)
Fixpoint before (sep : ascii) (s : string) : string :=
  match s with
  | EmptyString => EmptyString
  | String c r => if Ascii.eqb c sep then EmptyString else String c (before sep r)
  end.

(** ASCII case mapping of one character. Case mapping of a non-ASCII first
    letter is not modelled: such a character is left as it is. *)
Definition upper (c : ascii) : ascii :=
  let n := code c in
  if (97 <=? n)%Z && (n <=? 122)%Z then chr (n - 32) else c.

(** [s.charAt(0).toUpperCase() + s.slice(1)]. *)
Definition capitalize (s : string) : string :=
  match s with
  | EmptyString => EmptyString
  | String c r => String (upper c) r
  end.

(** The length in bytes of the white space or line terminator that starts
    [s], or 0: the class [\s] of regular expressions, which is also what
    [trim] removes. *)
Definition ws_len (s : string) : nat :=
  match s with
  | EmptyString => 0
  | String a r =>
      let x := code a in
      if ((x =? 9) || (x =? 10) || (x =? 11) || (x =? 12) || (x =? 13) || (x =? 32))%Z
      then 1
      else match r with
      | EmptyString => 0
      | String b r' =>
          let y := code b in
          if ((x =? 194) && (y =? 160))%Z then 2
          else match r' with
          | EmptyString => 0
          | String c _ =>
              let z := code c in
              if ((x =? 225) && (y =? 154) && (z =? 128))%Z then 3
              else if ((x =? 226) && (y =? 128)
                        && (((128 <=? z) && (z <=? 138)) || (z =? 168) || (z =? 169) || (z =? 175)))%Z
              then 3
              else if ((x =? 226) && (y =? 129) && (z =? 159))%Z then 3
              else if ((x =? 227) && (y =? 128) && (z =? 128))%Z then 3
              else if ((x =? 239) && (y =? 187) && (z =? 191))%Z then 3
              else 0
          end
      end
  end.

(** Removes leading white space: a greedy [\s*]. *)
Fixpoint skip_ws_fuel (fuel : nat) (s : string) : string :=
  match fuel with
  | O => s
  | S f => match ws_len s with
           | O => s
           | n => skip_ws_fuel f (drop n s)
           end
  end.
Definition skip_ws (s : string) : string := skip_ws_fuel (String.length s) s.

(** Removes trailing white space. *)
Fixpoint trim_end (s : string) : string :=
  match s with
  | EmptyString => EmptyString
  | String c r =>
      match skip_ws s with
      | EmptyString => EmptyString
      | _ => String c (trim_end r)
      end
  end.

(** [String.prototype.trim]. *)
Definition trim (s : string) : string := trim_end (skip_ws s).

(** A line terminator starts [s]: what [.] refuses in a regular expression
    without the [s] flag. *)
Definition line_terminator_at (s : string) : bool :=
  match s with
  | EmptyString => false
  | String a r =>
      let x := code a in
      ((x =? 10) || (x =? 13))%Z ||
      match r with
      | String b (String c _) =>
          ((x =? 226) && (code b =? 128) && ((code c =? 168) || (code c =? 169)))%Z
      | _ => false
      end
  end.

(** [s] is matched in full by [.+]. *)
Fixpoint dot_plus (s : string) : bool :=
  match s with
  | EmptyString => false
  | String _ EmptyString => negb (line_terminator_at s)
  | String _ r => negb (line_terminator_at s) && dot_plus r
  end.

(** Splits [s] at its first [/]: the part before it and the rest, which
    starts with the [/] unless [s] has none. *)
Fixpoint split_slash (s : string) : string * string :=
  match s with
  | EmptyString => (EmptyString, EmptyString)
  | String c r =>
      if Ascii.eqb c "/" then (EmptyString, s)
      else let (a, b) := split_slash r in (String c a, b)
  end.

Definition show_Z (n : Z) : string := NilZero.string_of_int (Z.to_int n).

Definition hex_digit (n : Z) : ascii :=
  if (n <? 10)%Z then chr (48 + n) else chr (87 + n).

Definition hex_value (c : ascii) : option Z :=
  let n := code c in
  if (48 <=? n)%Z && (n <=? 57)%Z then Some (n - 48)%Z
  else if (65 <=? n)%Z && (n <=? 70)%Z then Some (n - 55)%Z
  else if (97 <=? n)%Z && (n <=? 102)%Z then Some (n - 87)%Z
  else None.

End Str.

(* ================================================================== *)
(** * JSON values, [JSON.stringify] and [JSON.parse] *)
(* ================================================================== *)

(** An object keeps its properties in enumeration order, as
    [Object.keys], [Object.entries] and [JSON.stringify] see them. *)
#[warnings="-register-all"]
Inductive json : Type :=
| JNull
| JBool (b : bool)
| JNum (n : Z)
| JStr (s : string)
| JArr (items : list json)
| JObj (fields : list (string * json)).

Module Json.
Import Str.

(** JavaScript truthiness, as tested by [!x], [x || y] and [if (x)]. *)
Definition truthy (v : json) : bool :=
  match v with
  | JNull => false
  | JBool b => b
  | JNum n => negb (n =? 0)%Z
  | JStr s => negb (s =? "")
  | JArr _ | JObj _ => true
  end.

Definition truthy_opt (v : option json) : bool :=
  match v with Some x => truthy x | None => false end.

Fixpoint lookup (k : string) (fs : list (string * json)) : option json :=
  match fs with
  | [] => None
  | (k', v) :: r => if k' =? k then Some v else lookup k r
  end.

(** Reading one of the configuration properties [v.k] ([type], [command],
    [url], ...): [undefined] on anything that is not an object holding
    it, a [TypeError] on [null]. *)
Definition get (v : json) (k : string) : Result (option json) :=
  match v with
  | JNull =>
      Throw ("Cannot read properties of null (reading '" ++ k ++ "')")
  | JObj fs => Ok (lookup k fs)
  | _ => Ok None
  end.

(** ** Serialization *)

Definition escape_char (c : ascii) : string :=
  let n := code c in
  if (n =? 34)%Z then String "\" (String dquote EmptyString)
  else if (n =? 92)%Z then "\\"
  else if (n =? 8)%Z then "\b"
  else if (n =? 12)%Z then "\f"
  else if (n =? 10)%Z then "\n"
  else if (n =? 13)%Z then "\r"
  else if (n =? 9)%Z then "\t"
  else if (n <? 32)%Z
       then "\u00" ++ String (hex_digit (n / 16)) (String (hex_digit (n mod 16)) EmptyString)
       else String c EmptyString.

Fixpoint escape (s : string) : string :=
  match s with
  | EmptyString => EmptyString
  | String c r => escape_char c ++ escape r
  end.

Definition quote (s : string) : string := quoted (escape s).

(** [JSON.stringify(v)]. *)
Fixpoint stringify (v : json) : string :=
  match v with
  | JNull => "null"
  | JBool true => "true"
  | JBool false => "false"
  | JNum n => show_Z n
  | JStr s => quote s
  | JArr xs =>
      "[" ++
      (fix items (l : list json) : string :=
         match l with
         | [] => ""
         | x :: r =>
             stringify x ++ match r with [] => "" | _ => "," ++ items r end
         end) xs ++ "]"
  | JObj fs =>
      "{" ++
      (fix members (l : list (string * json)) : string :=
         match l with
         | [] => ""
         | (k, x) :: r =>
             quote k ++ ":" ++ stringify x
             ++ match r with [] => "" | _ => "," ++ members r end
         end) fs ++ "}"
  end.

Fixpoint spaces (n : nat) : string :=
  match n with O => "" | S k => " " ++ spaces k end.

(** [JSON.stringify(v, null, 2)] at nesting depth [d]. *)
Fixpoint pretty (d : nat) (v : json) : string :=
  match v with
  | JArr [] => "[]"
  | JArr xs =>
      "[" ++ LF ++
      (fix items (l : list json) : string :=
         match l with
         | [] => ""
         | x :: r =>
             spaces (2 * S d) ++ pretty (S d) x
             ++ match r with [] => "" | _ => "," ++ LF ++ items r end
         end) xs ++ LF ++ spaces (2 * d) ++ "]"
  | JObj [] => "{}"
  | JObj fs =>
      "{" ++ LF ++
      (fix members (l : list (string * json)) : string :=
         match l with
         | [] => ""
         | (k, x) :: r =>
             spaces (2 * S d) ++ quote k ++ ": " ++ pretty (S d) x
             ++ match r with [] => "" | _ => "," ++ LF ++ members r end
         end) fs ++ LF ++ spaces (2 * d) ++ "}"
  | _ => stringify v
  end.

Definition stringify2 (v : json) : string := pretty 0 v.

(** ** Parsing *)

(** The UTF-8 bytes of a code point. *)
Definition utf8 (cp : Z) : string :=
  (if cp <? 128 then String (chr cp) EmptyString
   else if cp <? 2048 then
     String (chr (192 + cp / 64)) (String (chr (128 + cp mod 64)) EmptyString)
   else if cp <? 65536 then
     String (chr (224 + cp / 4096))
       (String (chr (128 + (cp / 64) mod 64))
          (String (chr (128 + cp mod 64)) EmptyString))
   else
     String (chr (240 + cp / 262144))
       (String (chr (128 + (cp / 4096) mod 64))
          (String (chr (128 + (cp / 64) mod 64))
             (String (chr (128 + cp mod 64)) EmptyString))))%Z.

(** The characters of a string literal: bytes copied from the text, or
    UTF-16 code units written as [\uXXXX]. *)
Inductive unit16 : Type := Byte (c : ascii) | Unit (u : Z).

Fixpoint encode_units (l : list unit16) : string :=
  match l with
  | [] => EmptyString
  | Byte c :: r => String c (encode_units r)
  | Unit hi :: r =>
      match r with
      | Unit lo :: r' =>
          if ((55296 <=? hi) && (hi <=? 56319) && (56320 <=? lo) && (lo <=? 57343))%Z
          then utf8 (65536 + (hi - 55296) * 1024 + (lo - 56320))%Z ++ encode_units r'
          else utf8 hi ++ encode_units r
      | _ => utf8 hi ++ encode_units r
      end
  end.

Definition hex4 (a b c d : ascii) : option Z :=
  match hex_value a, hex_value b, hex_value c, hex_value d with
  | Some x, Some y, Some z, Some w => Some (((x * 16 + y) * 16 + z) * 16 + w)%Z
  | _, _, _, _ => None
  end.

(** The rest of a string literal after its opening quote: its characters
    and the text after the closing quote. *)
Fixpoint parse_chars (s : string) : option (list unit16 * string) :=
  match s with
  | EmptyString => None
  | String c r =>
      if (code c =? 34)%Z then Some ([], r)
      else if (code c <? 32)%Z then None
      else if (code c =? 92)%Z then
        match r with
        | String e r1 =>
            let simple (x : Z) :=
              match parse_chars r1 with
              | Some (l, rest) => Some (Byte (chr x) :: l, rest)
              | None => None
              end in
            if (code e =? 34)%Z then simple 34%Z
            else if Ascii.eqb e "\" then simple 92%Z
            else if Ascii.eqb e "/" then simple 47%Z
            else if Ascii.eqb e "b" then simple 8%Z
            else if Ascii.eqb e "f" then simple 12%Z
            else if Ascii.eqb e "n" then simple 10%Z
            else if Ascii.eqb e "r" then simple 13%Z
            else if Ascii.eqb e "t" then simple 9%Z
            else if Ascii.eqb e "u" then
              match r1 with
              | String h1 (String h2 (String h3 (String h4 r5))) =>
                  match hex4 h1 h2 h3 h4, parse_chars r5 with
                  | Some u, Some (l, rest) => Some (Unit u :: l, rest)
                  | _, _ => None
                  end
              | _ => None
              end
            else None
        | EmptyString => None
        end
      else match parse_chars r with
           | Some (l, rest) => Some (Byte c :: l, rest)
           | None => None
           end
  end.

Definition parse_string (s : string) : option (string * string) :=
  match parse_chars s with
  | Some (l, rest) => Some (encode_units l, rest)
  | None => None
  end.

(** JSON white space: space, tab, line feed, carriage return. *)
Fixpoint json_ws (s : string) : string :=
  match s with
  | String c r =>
      if ((code c =? 32) || (code c =? 9) || (code c =? 10) || (code c =? 13))%Z
      then json_ws r else s
  | EmptyString => s
  end.

Definition is_digit (c : ascii) : bool := ((48 <=? code c) && (code c <=? 57))%Z.

Fixpoint digits (acc : Z) (s : string) : Z * string :=
  match s with
  | String c r => if is_digit c then digits (acc * 10 + (code c - 48))%Z r else (acc, s)
  | EmptyString => (acc, s)
  end.

(** An integer numeral. A numeral with a fraction or an exponent is outside
    the model (numbers are integers) and is refused. *)
Definition parse_number (s : string) : option (Z * string) :=
  let unsigned (t : string) : option (Z * string) :=
    match t with
    | String c r =>
        if Ascii.eqb c "0" then Some (0%Z, r)
        else if is_digit c then Some (digits 0 t)
        else None
    | EmptyString => None
    end in
  let result :=
    match s with
    | String "-" r =>
        match unsigned r with Some (n, rest) => Some ((- n)%Z, rest) | None => None end
    | _ => unsigned s
    end in
  match result with
  | Some (n, String c r) =>
      if is_digit c || Ascii.eqb c "." || Ascii.eqb c "e" || Ascii.eqb c "E"
      then None else result
  | _ => result
  end.

(** The value of an array index key ([0] to [2^32 - 2], written without
    leading zeros): objects enumerate such keys first, in ascending order. *)
Definition array_index (k : string) : option Z :=
  match k with
  | EmptyString => None
  | String c r =>
      if Ascii.eqb c "0" then (if r =? "" then Some 0%Z else None)
      else if is_digit c then
        match digits 0 k with
        | (n, EmptyString) =>
            if (String.length k <=? 10)%nat && (n <? 4294967295)%Z then Some n else None
        | _ => None
        end
      else None
  end.

Fixpoint obj_replace (k : string) (v : json) (fs : list (string * json))
  : list (string * json) :=
  match fs with
  | [] => []
  | (k', x) :: r => if k' =? k then (k', v) :: r else (k', x) :: obj_replace k v r
  end.

Fixpoint obj_insert_index (i : Z) (k : string) (v : json) (fs : list (string * json))
  : list (string * json) :=
  match fs with
  | [] => [(k, v)]
  | (k', x) :: r =>
      match array_index k' with
      | Some j => if (j <? i)%Z then (k', x) :: obj_insert_index i k v r
                  else (k, v) :: fs
      | None => (k, v) :: fs
      end
  end.

(** Defining property [k] of an object under construction. *)
Definition obj_put (k : string) (v : json) (fs : list (string * json))
  : list (string * json) :=
  match lookup k fs with
  | Some _ => obj_replace k v fs
  | None =>
      match array_index k with
      | Some i => obj_insert_index i k v fs
      | None => (fs ++ [(k, v)])%list
      end
  end.

Definition expect (lit : string) (v : json) (s : string) : option (json * string) :=
  if startsWith lit s then Some (v, drop (String.length lit) s) else None.

Fixpoint parse_value (fuel : nat) (s : string) : option (json * string) :=
  match fuel with
  | O => None
  | S f =>
      match json_ws s with
      | EmptyString => None
      | String c r as t =>
          if Ascii.eqb c "n" then expect "null" JNull t
          else if Ascii.eqb c "t" then expect "true" (JBool true) t
          else if Ascii.eqb c "f" then expect "false" (JBool false) t
          else if (code c =? 34)%Z then
            match parse_string r with
            | Some (x, rest) => Some (JStr x, rest)
            | None => None
            end
          else if Ascii.eqb c "[" then
            match json_ws r with
            | String "]" rest => Some (JArr [], rest)
            | _ => parse_items f r []
            end
          else if Ascii.eqb c "{" then
            match json_ws r with
            | String "}" rest => Some (JObj [], rest)
            | _ => parse_members f r []
            end
          else match parse_number t with
               | Some (n, rest) => Some (JNum n, rest)
               | None => None
               end
      end
  end
with parse_items (fuel : nat) (s : string) (acc : list json) : option (json * string) :=
  match fuel with
  | O => None
  | S f =>
      match parse_value f s with
      | Some (v, rest) =>
          match json_ws rest with
          | String "," rest' => parse_items f rest' (acc ++ [v])%list
          | String "]" rest' => Some (JArr (acc ++ [v])%list, rest')
          | _ => None
          end
      | None => None
      end
  end
with parse_members (fuel : nat) (s : string) (acc : list (string * json))
  : option (json * string) :=
  match fuel with
  | O => None
  | S f =>
      match json_ws s with
      | String c r =>
          if (code c =? 34)%Z then
            match parse_string r with
            | Some (k, rest) =>
                match json_ws rest with
                | String ":" rest1 =>
                    match parse_value f rest1 with
                    | Some (v, rest2) =>
                        match json_ws rest2 with
                        | String "," rest' => parse_members f rest' (obj_put k v acc)
                        | String "}" rest' => Some (JObj (obj_put k v acc), rest')
                        | _ => None
                        end
                    | None => None
                    end
                | _ => None
                end
            | None => None
            end
          else None
      | EmptyString => None
      end
  end.

(** [JSON.parse(s)]; [None] stands for the [SyntaxError] it throws. *)
Definition parse (s : string) : option json :=
  match parse_value (2 * String.length s + 2) s with
  | Some (v, rest) =>
      match json_ws rest with
      | EmptyString => Some v
      | _ => None
      end
  | None => None
  end.

(** What [String(e)] shows of the [SyntaxError] of [JSON.parse]. *)
Definition syntax_error : string := "SyntaxError: Unexpected token in JSON".

End Json.

(* ================================================================== *)
(** * [decodeURIComponent] and calendar dates *)
(* ================================================================== *)

Module Uri.
Import Str.

(** One unit of a percent-encoded text. *)
Inductive token : Type := Lit (c : ascii) | Pct (byte : Z).

(** [None] when a [%] is not followed by two hexadecimal digits. *)
Fixpoint tokens (s : string) : option (list token) :=
  match s with
  | EmptyString => Some []
  | String c r =>
      if Ascii.eqb c "%" then
        match r with
        | String a (String b r') =>
            match hex_value a, hex_value b, tokens r' with
            | Some x, Some y, Some l => Some (Pct (x * 16 + y)%Z :: l)
            | _, _, _ => None
            end
        | _ => None
        end
      else match tokens r with
           | Some l => Some (Lit c :: l)
           | None => None
           end
  end.

Definition continuation (b : Z) : bool := ((128 <=? b) && (b <=? 191))%Z.

Definition scalar_value (cp : Z) : bool :=
  ((cp <=? 1114111) && negb ((55296 <=? cp) && (cp <=? 57343)))%Z.

(** Decoding of the escaped octets: each group must be the UTF-8 encoding
    of one code point, which stands in the result as those bytes. *)
Fixpoint octets (l : list token) : option string :=
  match l with
  | [] => Some EmptyString
  | Lit c :: r =>
      match octets r with Some s => Some (String c s) | None => None end
  | Pct b :: r =>
      if (b <? 128)%Z then
        match octets r with Some s => Some (String (chr b) s) | None => None end
      else if ((192 <=? b) && (b <? 224))%Z then
        match r with
        | Pct b1 :: r1 =>
            let cp := ((b - 192) * 64 + (b1 - 128))%Z in
            if continuation b1 && (128 <=? cp)%Z then
              match octets r1 with
              | Some s => Some (String (chr b) (String (chr b1) s))
              | None => None
              end
            else None
        | _ => None
        end
      else if ((224 <=? b) && (b <? 240))%Z then
        match r with
        | Pct b1 :: Pct b2 :: r2 =>
            let cp := (((b - 224) * 64 + (b1 - 128)) * 64 + (b2 - 128))%Z in
            if continuation b1 && continuation b2 && (2048 <=? cp)%Z && scalar_value cp then
              match octets r2 with
              | Some s => Some (String (chr b) (String (chr b1) (String (chr b2) s)))
              | None => None
              end
            else None
        | _ => None
        end
      else if ((240 <=? b) && (b <? 248))%Z then
        match r with
        | Pct b1 :: Pct b2 :: Pct b3 :: r3 =>
            let cp := ((((b - 240) * 64 + (b1 - 128)) * 64 + (b2 - 128)) * 64
                       + (b3 - 128))%Z in
            if continuation b1 && continuation b2 && continuation b3
               && (65536 <=? cp)%Z && scalar_value cp then
              match octets r3 with
              | Some s =>
                  Some (String (chr b) (String (chr b1) (String (chr b2) (String (chr b3) s))))
              | None => None
              end
            else None
        | _ => None
        end
      else None
  end.

(** [decodeURIComponent(s)]; [None] stands for the [URIError] it throws. *)
Definition decodeURIComponent (s : string) : option string :=
  match tokens s with
  | Some l => octets l
  | None => None
  end.

(** The message of that [URIError]. *)
Definition uri_error : string := "URI malformed".

Definition pad (width : nat) (n : Z) : string :=
  let d := show_Z n in
  (fix zeros (k : nat) : string :=
     match k with O => "" | S k' => "0" ++ zeros k' end)
    (width - String.length d)%nat ++ d.

(** [new Date(ms).toISOString().split('T')[0]]: the calendar date, in
    UTC, of the instant [ms] milliseconds after the epoch. *)
Definition isoDate (ms : Z) : string :=
  (let days := ms / 86400000 in
   let z := days + 719468 in
   let era := z / 146097 in
   let doe := z - era * 146097 in
   let yoe := (doe - doe / 1460 + doe / 36524 - doe / 146096) / 365 in
   let doy := doe - (365 * yoe + yoe / 4 - yoe / 100) in
   let mp := (5 * doy + 2) / 153 in
   let d := doy - (153 * mp + 2) / 5 + 1 in
   let m := if mp <? 10 then mp + 3 else mp - 9 in
   let y := yoe + era * 400 + (if m <=? 2 then 1 else 0) in
   let year :=
     if (0 <=? y) && (y <=? 9999) then pad 4 y
     else if y <? 0 then "-" ++ pad 6 (- y)
     else "+" ++ pad 6 y in
   before "T" (year ++ "-" ++ pad 2 m ++ "-" ++ pad 2 d ++ "T"))%Z.

End Uri.

(* ================================================================== *)
(** * Data model *)
(* ================================================================== *)

(** [Tool] of the protocol SDK, as a provider reports it. *)
Module Tool.
Record t : Type := mk {
  name : string;
  description : option string;
  inputSchema : option json;
  outputSchema : option json
}.
End Tool.

(** [Resource]: reported by the provider, or synthesized from a tool. *)
Module Resource.
Record t : Type := mk {
  uri : string;
  name : string;
  description : option string;
  mimeType : option string;
  templateUri : option string
}.
End Resource.

(** The schema slot of a template: the JSON schema copied from a tool, or
    one of the Zod schema objects of the template files, named here by the
    constant that holds it. *)
Inductive TemplateSchema : Type :=
| JsonSchema (schema : json)
| ZodSchema (constant : string).

(** [ResourceTemplate]. The [examples] of the weather template take no
    part in any operation and are left out. *)
Module ResourceTemplate.
Record t : Type := mk {
  uriTemplate : string;
  name : string;
  description : string;
  iconUri : option string;
  inputSchema : TemplateSchema;
  outputSchema : TemplateSchema
}.
End ResourceTemplate.

(** One item of a resource response. *)
Module Content.
Record t : Type := mk {
  uri : string;
  mimeType : option string;
  text : option string;
  blob : option string
}.
End Content.

Record McpResourceResponse : Type := { contents : list Content.t }.

Inductive Status : Type := connecting | connected | disconnected.

Definition Status_eqb (a b : Status) : bool :=
  match a, b with
  | connecting, connecting | connected, connected | disconnected, disconnected => true
  | _, _ => false
  end.

(** [McpServer]: the state of one provider. [config] is the serialized
    configuration; the capability lists are absent until a connect
    finalizes them. *)
Module McpServer.
Record t : Type := mk {
  name : string;
  config : string;
  status : Status;
  error : option string;
  tools : option (list Tool.t);
  resources : option (list Resource.t);
  resourceTemplates : option (list ResourceTemplate.t);
  disabled : option bool
}.
End McpServer.

(** The protocol client bound to one provider: what each of its calls
    answers. *)
Module Client.
Record t : Type := mk {
  connect : Result unit;
  listTools : Result (option (list Tool.t));
  listResources : Result (option (list Resource.t));
  listResourceTemplates : Result (option (list ResourceTemplate.t));
  callTool : string -> json -> Z -> Result json;
  readResource : string -> Result McpResourceResponse;
  close : Result unit
}.
End Client.

Module Transport.
Record t : Type := mk { close : Result unit }.
End Transport.

Record McpConnection : Type := {
  server : McpServer.t;
  client : Client.t;
  transport : Transport.t
}.

Record McpProvider : Type := {
  values : json;
  data : json;
  text : string
}.

(** The fields of the [McpService] instance. *)
Record McpService : Type := {
  connections : list McpConnection;
  mcpProvider : McpProvider;
  initializationError : option string;
  hasResourcefulServers : bool
}.

(** What an operation does to the providers: the calls it makes on the
    clients and transports, in order. *)
Inductive Effect : Type :=
| ClientConnect (server : string)
| ListTools (server : string)
| ListResources (server : string)
| ListResourceTemplates (server : string)
| CallTool (server tool : string) (arguments : json) (timeout : Z)
| ReadResource (server uri : string)
| TransportClose (server : string)
| ClientClose (server : string).

(** [x || fallback] on an optional string. *)
Definition or_string (x : option string) (fallback : string) : string :=
  match x with
  | Some s => if s =? "" then fallback else s
  | None => fallback
  end.

(** [x || {}] on an optional schema. *)
Definition or_empty (x : option json) : json :=
  match x with
  | Some v => if Json.truthy v then v else JObj []
  | None => JObj []
  end.

(** [xs || []]. *)
Definition or_nil {A} (x : option (list A)) : list A :=
  match x with Some l => l | None => [] end.

Definition named (n : string) (conn : McpConnection) : bool :=
  McpServer.name (server conn) =? n.

(** [this.connections.find((conn) => conn.server.name === serverName)]. *)
Definition getServerConnection (this : McpService) (serverName : string)
  : option McpConnection :=
  find (named serverName) (connections this).

(* ================================================================== *)
(** * The resource router: [McpService.readResource] *)
(* ================================================================== *)

Module Router.
Import Str.

Definition calculatorUri : string := "mcp://n8n/synthetic/calculator".
Definition weatherPrefix : string := "mcp://n8n/synthetic/weather/".

Definition errorContent (uri message : string) : McpResourceResponse :=
  {| contents :=
       [ Content.mk uri (Some "application/mcp-error") (Some message) None ] |}.

Definition jsonContent (uri body : string) : McpResourceResponse :=
  {| contents := [ Content.mk uri (Some "application/json") (Some body) None ] |}.

Definition calculatorError (uri : string) : string :=
  "Error: The calculator resource (" ++ uri
  ++ ") represents a tool and must be invoked using the CALL_TOOL action. It cannot be read directly.".

(** The placeholder weather report; [now] is [Date.now()]. *)
Definition placeholderData (location : string) (now : Z) : json :=
  JObj
    [ ("location", JStr location);
      ("temperature", JNum 22);
      ("condition", JStr "Sunny");
      ("humidity", JNum 65);
      ("windSpeed", JNum 10);
      ("forecast",
       JArr
         [ JObj [ ("date", JStr (Uri.isoDate (now + 86400000)));
                  ("temperature", JObj [("min", JNum 18); ("max", JNum 24)]);
                  ("condition", JStr "Partly Cloudy") ];
           JObj [ ("date", JStr (Uri.isoDate (now + 172800000)));
                  ("temperature", JObj [("min", JNum 17); ("max", JNum 23)]);
                  ("condition", JStr "Sunny") ] ]) ].

(** [result && Array.isArray(result.content) && result.content.length > 0],
    giving [result.content[0]]. *)
Definition firstContent (result : json) : option json :=
  match result with
  | JObj fs =>
      match Json.lookup "content" fs with
      | Some (JArr (x :: _)) => Some x
      | _ => None
      end
  | _ => None
  end.

(** [uri.match(/^mcp:\/\/([^\/]+)\/synthetic\/tool\/(.+)$/)]: the two
    captured groups. *)
Definition toolResourceMatch (uri : string) : option (string * string) :=
  if startsWith "mcp://" uri then
    let (srv, rest) := split_slash (drop 6 uri) in
    if srv =? "" then None
    else if startsWith "/synthetic/tool/" rest then
      let toolName := drop 16 rest in
      if dot_plus toolName then Some (srv, toolName) else None
    else None
  else None.

Definition toolInfo (serverName toolName : string) (tool : Tool.t) : json :=
  JObj
    [ ("name", JStr (Tool.name tool));
      ("description",
       JStr (or_string (Tool.description tool) ("The " ++ Tool.name tool ++ " tool")));
      ("inputSchema", or_empty (Tool.inputSchema tool));
      ("outputSchema", or_empty (Tool.outputSchema tool));
      ("usage",
       JStr ("To use this tool, call the CALL_TOOL action with serverName: "
             ++ quoted serverName ++ ", toolName: " ++ quoted toolName
             ++ " and appropriate arguments.")) ].

Definition toolNamed (n : string) (tool : Tool.t) : bool := Tool.name tool =? n.

(** The weather branch of [readResource], after the tool lookup and the
    tool call did not produce a report: the placeholder, whose construction
    decodes the location inside the [try]. *)
Definition weatherPlaceholder (uri location : string) (now : Z) : McpResourceResponse :=
  match Uri.decodeURIComponent location with
  | Some place => jsonContent uri (Json.stringify (placeholderData place now))
  | None => errorContent uri ("Error fetching weather data: " ++ Uri.uri_error)
  end.

Definition readWeather (connection : McpConnection) (serverName uri : string) (now : Z)
  : Result McpResourceResponse * list Effect :=
  let location := replace weatherPrefix "" uri in
  let tools := or_nil (McpServer.tools (server connection)) in
  match find (toolNamed "weather") tools with
  | Some _ =>
      let arguments := JObj [("location", JStr location)] in
      let call := CallTool serverName "weather" arguments 10000 in
      match Client.callTool (client connection) "weather" arguments 10000 with
      | Ok result =>
          match firstContent result with
          | Some first => (Ok (jsonContent uri (Json.stringify first)), [call])
          | None => (Ok (weatherPlaceholder uri location now), [call])
          end
      | Throw e => (Ok (errorContent uri ("Error fetching weather data: " ++ e)), [call])
      end
  | None => (Ok (weatherPlaceholder uri location now), [])
  end.

(** The generic tool branch. The [Error] thrown for a missing tool is caught
    by the [catch] of the same branch, which answers with an error item. *)
Definition readToolResource (connection : McpConnection) (serverName uri toolName : string)
  : Result McpResourceResponse * list Effect :=
  let tools := or_nil (McpServer.tools (server connection)) in
  match find (toolNamed toolName) tools with
  | None =>
      (Ok (errorContent uri
             ("Error accessing tool resource: Tool '" ++ toolName
              ++ "' not found on server '" ++ serverName ++ "'")), [])
  | Some tool =>
      (Ok (jsonContent uri (Json.stringify2 (toolInfo serverName toolName tool))), [])
  end.

(** [readResource(serverName, uri)]; [now] is the clock the placeholder
    forecast reads. The result comes with the calls made on the client. *)
Definition readResource (this : McpService) (now : Z) (serverName uri : string)
  : Result McpResourceResponse * list Effect :=
  match find (named serverName) (connections this) with
  | None => (Throw ("No connection found for server: " ++ serverName), [])
  | Some connection =>
      match McpServer.disabled (server connection) with
      | Some true => (Throw ("Server " ++ quoted serverName ++ " is disabled"), [])
      | _ =>
          if uri =? calculatorUri then
            (Ok (errorContent uri (calculatorError uri)), [])
          else if startsWith weatherPrefix uri then
            readWeather connection serverName uri now
          else
            match toolResourceMatch uri with
            | Some (srv, toolName) =>
                if srv =? serverName then
                  readToolResource connection serverName uri toolName
                else
                  (Client.readResource (client connection) uri,
                   [ReadResource serverName uri])
            | None =>
                (Client.readResource (client connection) uri,
                 [ReadResource serverName uri])
            end
      end
  end.

End Router.

(* ================================================================== *)
(** * The capability synthesizer (the synthesis part of [connectToServer]) *)
(* ================================================================== *)

Module Synthesizer.
Import Str.

Definition calculatorResourceTemplate : ResourceTemplate.t :=
  ResourceTemplate.mk
    "mcp://n8n/synthetic/calculator"
    "Calculator Resource"
    "Evaluates a mathematical expression string using the n8n calculator tool, accessed via resource interface."
    (Some "")
    (ZodSchema "CalculatorInputSchema")
    (ZodSchema "CalculatorOutputSchema").

Definition weatherResourceTemplate : ResourceTemplate.t :=
  ResourceTemplate.mk
    "mcp://n8n/synthetic/weather/{location}"
    "Weather Information Resource"
    "Retrieves current weather information and optional forecast for a specified location."
    (Some "https://cdn-icons-png.flaticon.com/512/1163/1163661.png")
    (ZodSchema "WeatherInputSchema")
    (ZodSchema "WeatherOutputSchema").

Definition toolUri (name toolName : string) : string :=
  "mcp://" ++ name ++ "/synthetic/tool/" ++ toolName.

Definition toolTemplateUri (name toolName : string) : string :=
  "mcp://" ++ name ++ "/synthetic/tool-template/" ++ toolName.

Definition toolResource (name : string) (tool : Tool.t) : Resource.t :=
  Resource.mk
    (toolUri name (Tool.name tool))
    (capitalize (Tool.name tool) ++ " Tool")
    (Some (or_string (Tool.description tool)
             ("Access the " ++ Tool.name tool ++ " functionality")))
    None
    (Some (toolTemplateUri name (Tool.name tool))).

Definition toolTemplate (name : string) (tool : Tool.t) : ResourceTemplate.t :=
  ResourceTemplate.mk
    (toolTemplateUri name (Tool.name tool))
    (capitalize (Tool.name tool) ++ " Template")
    (or_string (Tool.description tool)
       ("Template for " ++ Tool.name tool ++ " functionality"))
    None
    (JsonSchema (or_empty (Tool.inputSchema tool)))
    (JsonSchema (or_empty (Tool.outputSchema tool))).

(** The resource that stands for a fixed template. *)
Definition templateResource (t : ResourceTemplate.t) : Resource.t :=
  Resource.mk
    (ResourceTemplate.uriTemplate t)
    (ResourceTemplate.name t)
    (Some (ResourceTemplate.description t))
    None
    (Some (ResourceTemplate.uriTemplate t)).

Definition calculatorResource : Resource.t := templateResource calculatorResourceTemplate.
Definition weatherResource : Resource.t := templateResource weatherResourceTemplate.

Definition hasUri (u : string) (r : Resource.t) : bool := Resource.uri r =? u.
Definition hasUriTemplate (u : string) (t : ResourceTemplate.t) : bool :=
  ResourceTemplate.uriTemplate t =? u.

(** [if (!resources.some(r => r.uri === x.uri)) resources.push(x)]. *)
Definition pushResource (resources : list Resource.t) (x : Resource.t)
  : list Resource.t :=
  if existsb (hasUri (Resource.uri x)) resources then resources
  else (resources ++ [x])%list.

Definition pushTemplate (templates : list ResourceTemplate.t) (x : ResourceTemplate.t)
  : list ResourceTemplate.t :=
  if existsb (hasUriTemplate (ResourceTemplate.uriTemplate x)) templates then templates
  else (templates ++ [x])%list.

(** One turn of the loop over the tools. *)
Definition synthesizeTool (name : string)
    (acc : list Resource.t * list ResourceTemplate.t) (tool : Tool.t)
  : list Resource.t * list ResourceTemplate.t :=
  if Tool.name tool =? "calculator" then acc
  else (pushResource (fst acc) (toolResource name tool),
        pushTemplate (snd acc) (toolTemplate name tool)).

Definition hasTool (n : string) (tools : list Tool.t) : bool :=
  existsb (fun tool => Tool.name tool =? n) tools.

(** Adds the resource and template of a fixed template when the tool it
    wraps is present. *)
Definition synthesizeFixed (toolName : string) (t : ResourceTemplate.t)
    (tools : list Tool.t) (acc : list Resource.t * list ResourceTemplate.t)
  : list Resource.t * list ResourceTemplate.t :=
  if hasTool toolName tools
  then (pushResource (fst acc) (templateResource t), pushTemplate (snd acc) t)
  else acc.

(** From the capability lists fetched for server [name] to the
    [resources] and [resourceTemplates] stored for it. *)
Definition synthesize (name : string) (isN8nServer : bool)
    (actualTools : list Tool.t) (actualResources : list Resource.t)
    (actualResourceTemplates : list ResourceTemplate.t)
  : list Resource.t * list ResourceTemplate.t :=
  let start := (actualResources, actualResourceTemplates) in
  let generic :=
    if isN8nServer || (length actualResources =? 0)%nat
    then fold_left (synthesizeTool name) actualTools start
    else start in
  let withCalculator :=
    synthesizeFixed "calculator" calculatorResourceTemplate actualTools generic in
  synthesizeFixed "weather" weatherResourceTemplate actualTools withCalculator.

End Synthesizer.

(* ================================================================== *)
(** * Methods that change the service: state, exceptions and effects *)
(* ================================================================== *)

(** A method body: from the fields of the service to its outcome, the
    fields afterwards (what was assigned before a [throw] stays assigned)
    and the calls made on the providers. *)
Definition M (A : Type) : Type := McpService -> Result A * McpService * list Effect.

Definition ret {A} (a : A) : M A := fun this => (Ok a, this, []).
Definition throw {A} (e : string) : M A := fun this => (Throw e, this, []).

Definition bind {A B} (m : M A) (k : A -> M B) : M B :=
  fun this =>
    match m this with
    | (Ok a, this', w) =>
        let '(r, this'', w') := k a this' in (r, this'', (w ++ w')%list)
    | (Throw e, this', w) => (Throw e, this', w)
    end.

Declare Scope service_scope.
Delimit Scope service_scope with service.
Notation "x <- m ;; k" := (bind m (fun x => k))
  (at level 61, m at next level, right associativity) : service_scope.
Notation "m ;; k" := (bind m (fun _ => k))
  (at level 61, right associativity) : service_scope.
Local Open Scope service_scope.

(** [try { m } catch (error) { handler error }]. *)
Definition try_catch {A} (m : M A) (handler : string -> M A) : M A :=
  fun this =>
    match m this with
    | (Throw e, this', w) =>
        let '(r, this'', w') := handler e this' in (r, this'', (w ++ w')%list)
    | done => done
    end.

(** [try { m } finally { final }]: an exception of [final] replaces the
    outcome of [m]. *)
Definition try_finally {A} (m : M A) (final : M unit) : M A :=
  fun this =>
    let '(r, this', w) := m this in
    match final this' with
    | (Ok _, this'', w') => (r, this'', (w ++ w')%list)
    | (Throw e, this'', w') => (Throw e, this'', (w ++ w')%list)
    end.

(** A computation that does not touch the service. *)
Definition lift {A} (r : Result A) : M A := fun this => (r, this, []).

(** A call on a provider. *)
Definition perform {A} (e : Effect) (r : Result A) : M A := fun this => (r, this, [e]).

Definition get_this : M McpService := fun this => (Ok this, this, []).
Definition modify (f : McpService -> McpService) : M unit :=
  fun this => (Ok tt, f this, []).

Fixpoint for_each {A} (l : list A) (body : A -> M unit) : M unit :=
  match l with
  | [] => ret tt
  | x :: r => body x ;; for_each r body
  end.

Definition set_connections (l : list McpConnection) (this : McpService) : McpService :=
  {| connections := l;
     mcpProvider := mcpProvider this;
     initializationError := initializationError this;
     hasResourcefulServers := hasResourcefulServers this |}.

Definition set_mcpProvider (p : McpProvider) (this : McpService) : McpService :=
  {| connections := connections this;
     mcpProvider := p;
     initializationError := initializationError this;
     hasResourcefulServers := hasResourcefulServers this |}.

Definition set_hasResourcefulServers (b : bool) (this : McpService) : McpService :=
  {| connections := connections this;
     mcpProvider := mcpProvider this;
     initializationError := initializationError this;
     hasResourcefulServers := b |}.

Definition set_server (s : McpServer.t) (conn : McpConnection) : McpConnection :=
  {| server := s; client := client conn; transport := transport conn |}.

Definition with_status (st : Status) (s : McpServer.t) : McpServer.t :=
  McpServer.mk (McpServer.name s) (McpServer.config s) st (McpServer.error s)
    (McpServer.tools s) (McpServer.resources s) (McpServer.resourceTemplates s)
    (McpServer.disabled s).

Definition with_error (e : option string) (s : McpServer.t) : McpServer.t :=
  McpServer.mk (McpServer.name s) (McpServer.config s) (McpServer.status s) e
    (McpServer.tools s) (McpServer.resources s) (McpServer.resourceTemplates s)
    (McpServer.disabled s).

(** An assignment to a field of the connection object that
    [connections.find] returns for [name]: the first of that name. *)
Fixpoint update_first (name : string) (f : McpServer.t -> McpServer.t)
    (l : list McpConnection) : list McpConnection :=
  match l with
  | [] => []
  | conn :: r =>
      if named name conn then set_server (f (server conn)) conn :: r
      else conn :: update_first name f r
  end.

Definition assign (name : string) (f : McpServer.t -> McpServer.t) : M unit :=
  modify (fun this => set_connections (update_first name f (connections this)) this).

(** [connections.filter((conn) => conn.server.name !== name)]. *)
Definition without (name : string) (l : list McpConnection) : list McpConnection :=
  filter (fun conn => negb (named name conn)) l.

(** [appendErrorMessage]. *)
Definition appendErrorMessage (error : string) (s : McpServer.t) : McpServer.t :=
  let newError :=
    match McpServer.error s with
    | Some old => if old =? "" then error else old ++ Str.LF ++ error
    | None => error
    end in
  with_error (Some newError) s.

(** [getServers]. *)
Definition getServers (this : McpService) : list McpServer.t :=
  match initializationError this with
  | Some e => if e =? "" then map server (connections this) else []
  | None => map server (connections this)
  end.

Definition resourceful (s : McpServer.t) : bool :=
  Status_eqb (McpServer.status s) connected
  && match McpServer.resources s with
     | Some l => (0 <? length l)%nat
     | None => false
     end.

(** [updateResourceAvailability]. *)
Definition updateResourceAvailability : M unit :=
  modify (fun this => set_hasResourcefulServers (existsb resourceful (getServers this)) this).

(** [checkResourceAvailability]. *)
Definition checkResourceAvailability (this : McpService) : bool :=
  match initializationError this with
  | Some e => if e =? "" then hasResourcefulServers this else false
  | None => hasResourcefulServers this
  end.

(** The names of the connections as [new Set(...)] iterates them: each
    once, in order of first occurrence. *)
Fixpoint dedup (l : list string) : list string :=
  match l with
  | [] => []
  | x :: r => x :: filter (fun y => negb (y =? x)) (dedup r)
  end.

Definition mem (x : string) (l : list string) : bool := existsb (String.eqb x) l.

(** What lies outside the service: the snapshot builder of [utils/mcp],
    the [URL] constructor, and the provider that answers when a client and
    a transport are opened for a server name and configuration. *)
Record World : Type := {
  buildMcpProviderData : list McpServer.t -> Result McpProvider;
  newURL : json -> Result unit;
  openClient : string -> json -> Client.t;
  openTransport : string -> json -> Transport.t
}.

Section Service.

Variable W : World.

(** [!config.k] for a configuration that is not [null]. *)
Definition missing (config : json) (k : string) : bool :=
  match Json.get config k with
  | Ok v => negb (Json.truthy_opt v)
  | Throw _ => true
  end.

Definition buildStdioClientTransport (name : string) (config : json) : Result Transport.t :=
  if missing config "command"
  then Throw ("Missing command for stdio MCP server " ++ name)
  else Ok (openTransport W name config).

Definition buildSseClientTransport (name : string) (config : json) : Result Transport.t :=
  if missing config "url"
  then Throw ("Missing URL for SSE MCP server " ++ name)
  else match Json.get config "url" with
       | Ok (Some url) =>
           match newURL W url with
           | Ok _ => Ok (openTransport W name config)
           | Throw e => Throw e
           end
       | Ok None => Throw ("Missing URL for SSE MCP server " ++ name)
       | Throw e => Throw e
       end.

Definition is_string (s : string) (v : option json) : bool :=
  match v with
  | Some (JStr x) => x =? s
  | _ => false
  end.

(** [config.type === "stdio" ? buildStdio... : buildSse...]; reading
    [type] of a [null] configuration throws. *)
Definition buildTransport (name : string) (config : json) : Result Transport.t :=
  match Json.get config "type" with
  | Ok ty =>
      if is_string "stdio" ty then buildStdioClientTransport name config
      else buildSseClientTransport name config
  | Throw e => Throw e
  end.

(** [url?.includes(needle)], as a truth value: [undefined] for a missing
    or [null] url, the method of strings and arrays otherwise, and a
    [TypeError] on a value that has no such method. *)
Definition url_includes (url : option json) (needle : string) : Result bool :=
  match url with
  | None | Some JNull => Ok false
  | Some (JStr s) => Ok (Str.includes needle s)
  | Some (JArr l) => Ok (existsb (fun x => is_string needle (Some x)) l)
  | Some _ => Throw "(intermediate value).url?.includes is not a function"
  end.

(** [(config.type === "sse" && url?.includes("n8n.cloud") ||
    url?.includes("n8n.io"))], for a configuration that is not [null]. *)
Definition isN8nServer (config : json) : Result bool :=
  match Json.get config "type", Json.get config "url" with
  | Ok ty, Ok url =>
      let second := url_includes url "n8n.io" in
      if is_string "sse" ty then
        match url_includes url "n8n.cloud" with
        | Ok true => Ok true
        | Ok false => second
        | Throw e => Throw e
        end
      else second
  | Throw e, _ => Throw e
  | _, Throw e => Throw e
  end.

Definition ready (this : McpService) (serverName : string) : option McpConnection :=
  match getServerConnection this serverName with
  | Some conn =>
      if Status_eqb (McpServer.status (server conn)) connected then Some conn else None
  | None => None
  end.

(** [fetchToolsList(serverName, connection)], for the connection found
    under [serverName]: any failure gives the empty list. *)
Definition fetchToolsList (serverName : string) : M (list Tool.t) :=
  this <- get_this ;;
  match ready this serverName with
  | Some conn =>
      try_catch
        (response <- perform (ListTools serverName) (Client.listTools (client conn)) ;;
         ret (or_nil response))
        (fun _ => ret [])
  | None => ret []
  end.

(** [fetchResourcesList]: a "Method not found" answer gives the empty
    list in the inner [catch], any other failure in the outer one. *)
Definition fetchResourcesList (serverName : string) : M (list Resource.t) :=
  this <- get_this ;;
  match ready this serverName with
  | Some conn =>
      try_catch
        (try_catch
           (response <- perform (ListResources serverName)
                          (Client.listResources (client conn)) ;;
            ret (or_nil response))
           (fun e => if Str.includes "Method not found" e then ret [] else throw e))
        (fun _ => ret [])
  | None => ret []
  end.

Definition fetchResourceTemplatesList (serverName : string)
  : M (list ResourceTemplate.t) :=
  this <- get_this ;;
  match ready this serverName with
  | Some conn =>
      try_catch
        (try_catch
           (response <- perform (ListResourceTemplates serverName)
                          (Client.listResourceTemplates (client conn)) ;;
            ret (or_nil response))
           (fun e => if Str.includes "Method not found" e then ret [] else throw e))
        (fun _ => ret [])
  | None => ret []
  end.

(** The [finally] block of [connectToServer]. *)
Definition refreshProvider : M unit :=
  this <- get_this ;;
  provider <- lift (buildMcpProviderData W (getServers this)) ;;
  modify (set_mcpProvider provider) ;;
  updateResourceAvailability.

(** The [try] block of [connectToServer] once the connection is in the
    list: the handshake, the capability fetch and synthesis, and the final
    assignment of [connection.server]. *)
Definition establish (name : string) (config : json) (connection : McpConnection)
  : M unit :=
  perform (ClientConnect name) (Client.connect (client connection)) ;;
  assign name (with_status connected) ;;
  n8n <- lift (isN8nServer config) ;;
  actualTools <- fetchToolsList name ;;
  actualResources <- fetchResourcesList name ;;
  actualResourceTemplates <- fetchResourceTemplatesList name ;;
  let synthesized :=
    Synthesizer.synthesize name n8n actualTools actualResources actualResourceTemplates in
  assign name (fun _ =>
    McpServer.mk name (Json.stringify config) connected (Some "")
      (Some actualTools) (Some (fst synthesized)) (Some (snd synthesized)) None).

(** The [try] block of [connectToServer]. *)
Definition connectBody (name : string) (config : json) : M unit :=
  transport <- lift (buildTransport name config) ;;
  let connection :=
    {| server := McpServer.mk name (Json.stringify config) connecting
                   None None None None None;
       client := openClient W name config;
       transport := transport |} in
  modify (fun this => set_connections (connections this ++ [connection])%list this) ;;
  establish name config connection.

(** The [catch] block of [connectToServer]. *)
Definition connectFailed (name : string) (error : string) : M unit :=
  this <- get_this ;;
  match getServerConnection this name with
  | Some _ => assign name (fun s => appendErrorMessage error (with_status disconnected s))
  | None => ret tt
  end.

(** [connectToServer(name, config)]. *)
Definition connectToServer (name : string) (config : json) : M unit :=
  modify (fun this => set_connections (without name (connections this)) this) ;;
  try_finally
    (try_catch (connectBody name config) (connectFailed name))
    refreshProvider.

(** [deleteConnection(name)]. *)
Definition deleteConnection (name : string) : M unit :=
  this <- get_this ;;
  match getServerConnection this name with
  | Some connection =>
      try_catch
        (perform (TransportClose name) (Transport.close (transport connection)) ;;
         perform (ClientClose name) (Client.close (client connection)))
        (fun _ => ret tt) ;;
      modify (fun this => set_connections (without name (connections this)) this)
  | None => ret tt
  end.

(** One turn of the second loop of [updateServerConnections]. *)
Definition reconcileEntry (entry : string * json) : M unit :=
  let (name, config) := entry in
  this <- get_this ;;
  match getServerConnection this name with
  | None =>
      try_catch (connectToServer name config) (fun _ => ret tt)
  | Some currentConnection =>
      if negb (Json.stringify config =? McpServer.config (server currentConnection))
      then try_catch (deleteConnection name ;; connectToServer name config)
                     (fun _ => ret tt)
      else ret tt
  end.

(** [updateServerConnections(serverConfigs)]; the configuration map is the
    list of its entries, in the order of [Object.entries]. *)
Definition updateServerConnections (serverConfigs : list (string * json)) : M unit :=
  this <- get_this ;;
  let currentNames := dedup (map (fun conn => McpServer.name (server conn)) (connections this)) in
  let newNames := map fst serverConfigs in
  for_each currentNames
    (fun name => if negb (mem name newNames) then deleteConnection name else ret tt) ;;
  for_each serverConfigs reconcileEntry.

(** [restartConnection(serverName)]. *)
Definition restartConnection (serverName : string) : M unit :=
  this <- get_this ;;
  match getServerConnection this serverName with
  | Some connection =>
      let config := McpServer.config (server connection) in
      if config =? "" then ret tt
      else
        assign serverName (fun s => with_error (Some "") (with_status connecting s)) ;;
        try_catch
          (deleteConnection serverName ;;
           parsed <- lift (match Json.parse config with
                           | Some v => Ok v
                           | None => Throw Json.syntax_error
                           end) ;;
           connectToServer serverName parsed)
          (fun _ => throw ("Failed to connect to " ++ serverName ++ " MCP server"))
  | None => ret tt
  end.

End Service.

(* ================================================================== *)
(** * Schema validation ([ajv] with [allErrors: true]) *)
(* ================================================================== *)

Module Ajv.

(** The schemas the selection validators compile. An object schema has
    [type: "object"], its [required] list and its [properties]. *)
#[warnings="-register-all"]
Inductive Schema : Type :=
| SType (type : string)
| SConst (allowedValue : json)
| SObject (required : list string) (properties : list (string * Schema))
| SAnyOf (alternatives : list Schema).

Definition has_type (type : string) (v : json) : bool :=
  match v with
  | JStr _ => type =? "string"
  | JBool _ => type =? "boolean"
  | JNum _ => (type =? "number") || (type =? "integer")
  | JNull => type =? "null"
  | JArr _ => type =? "array"
  | JObj _ => type =? "object"
  end.

Fixpoint json_eqb (a b : json) : bool :=
  match a, b with
  | JNull, JNull => true
  | JBool x, JBool y => Bool.eqb x y
  | JNum x, JNum y => (x =? y)%Z
  | JStr x, JStr y => x =? y
  | JArr xs, JArr ys =>
      (fix all2 (l1 l2 : list json) : bool :=
         match l1, l2 with
         | [], [] => true
         | x :: r1, y :: r2 => json_eqb x y && all2 r1 r2
         | _, _ => false
         end) xs ys
  | JObj xs, JObj ys =>
      (fix all2 (l1 l2 : list (string * json)) : bool :=
         match l1, l2 with
         | [], [] => true
         | (k1, x) :: r1, (k2, y) :: r2 => (k1 =? k2) && json_eqb x y && all2 r1 r2
         | _, _ => false
         end) xs ys
  | _, _ => false
  end.

(** An error object of the validator. *)
Definition error (instancePath schemaPath keyword : string) (params : json)
    (message : string) : json :=
  JObj [ ("instancePath", JStr instancePath);
         ("schemaPath", JStr schemaPath);
         ("keyword", JStr keyword);
         ("params", params);
         ("message", JStr message) ].

Definition requiredError (instancePath schemaPath property : string) : json :=
  error instancePath (schemaPath ++ "/required") "required"
    (JObj [("missingProperty", JStr property)])
    ("must have required property '" ++ property ++ "'").

(** All the errors of [v] against the schema: with [allErrors] the
    validator does not stop at the first failing keyword. *)
Fixpoint errors (schema : Schema) (instancePath schemaPath : string) (v : json)
  : list json :=
  match schema with
  | SType type =>
      if has_type type v then []
      else [ error instancePath (schemaPath ++ "/type") "type"
               (JObj [("type", JStr type)]) ("must be " ++ type) ]
  | SConst allowed =>
      if json_eqb allowed v then []
      else [ error instancePath (schemaPath ++ "/const") "const"
               (JObj [("allowedValue", allowed)]) "must be equal to constant" ]
  | SObject required properties =>
      match v with
      | JObj fs =>
          (flat_map
             (fun k => match Json.lookup k fs with
                       | Some _ => []
                       | None => [requiredError instancePath schemaPath k]
                       end) required
           ++
           (fix props (l : list (string * Schema)) : list json :=
              match l with
              | [] => []
              | (k, s) :: r =>
                  (match Json.lookup k fs with
                   | Some x => errors s (instancePath ++ "/" ++ k)
                                 (schemaPath ++ "/properties/" ++ k) x
                   | None => []
                   end ++ props r)%list
              end) properties)%list
      | _ =>
          [ error instancePath (schemaPath ++ "/type") "type"
              (JObj [("type", JStr "object")]) "must be object" ]
      end
  | SAnyOf alternatives =>
      let branches :=
        (fix alts (i : nat) (l : list Schema) : list (list json) :=
           match l with
           | [] => []
           | s :: r =>
               errors s instancePath
                 (schemaPath ++ "/anyOf/" ++ Str.show_Z (Z.of_nat i)) v
               :: alts (S i) r
           end) 0%nat alternatives in
      if existsb (fun es => match es with [] => true | _ => false end) branches
      then []
      else (concat branches
            ++ [ error instancePath (schemaPath ++ "/anyOf") "anyOf" (JObj [])
                   "must match a schema in anyOf" ])%list
  end.

(** [validate(v)] of a compiled schema: the truth value it returns and the
    [validate.errors] it leaves. *)
Definition validate (schema : Schema) (v : json) : bool * list json :=
  let es := errors schema "" "#" v in
  (match es with [] => true | _ => false end, es).

End Ajv.

(* ================================================================== *)
(** * Selection validation ([utils/validation.ts]) *)
(* ================================================================== *)

Module Validation.
Import Str.

(** Modelled from the spec: the constant [ToolSelectionSchema] of
    [types.ts], which is not among the sources. The spec gives a tool
    selection as [{serverName: string, toolName: string, arguments: object,
    reasoning?: string}] or [{noToolAvailable: true, reasoning?: string}]. *)
Definition ToolSelectionSchema : Ajv.Schema :=
  Ajv.SAnyOf
    [ Ajv.SObject ["serverName"; "toolName"; "arguments"]
        [ ("serverName", Ajv.SType "string");
          ("toolName", Ajv.SType "string");
          ("arguments", Ajv.SType "object");
          ("reasoning", Ajv.SType "string") ];
      Ajv.SObject ["noToolAvailable"]
        [ ("noToolAvailable", Ajv.SConst (JBool true));
          ("reasoning", Ajv.SType "string") ] ].

(** Modelled from the spec: the constant [ResourceSelectionSchema] of
    [types.ts], which is not among the sources. The spec gives a resource
    selection as [{serverName: string, uri: string, reasoning?: string}] or
    [{noResourceAvailable: true, reasoning?: string}]. *)
Definition ResourceSelectionSchema : Ajv.Schema :=
  Ajv.SAnyOf
    [ Ajv.SObject ["serverName"; "uri"]
        [ ("serverName", Ajv.SType "string");
          ("uri", Ajv.SType "string");
          ("reasoning", Ajv.SType "string") ];
      Ajv.SObject ["noResourceAvailable"]
        [ ("noResourceAvailable", Ajv.SConst (JBool true));
          ("reasoning", Ajv.SType "string") ] ].

(** The result of a validator: [{ success: true, data }] or
    [{ success: false, error }]. *)
Inductive Validated (A : Type) : Type :=
| Success (data : A)
| Failure (error : string).
Arguments Success {A} data.
Arguments Failure {A} error.

Definition fence : string := "```".

(** The lazy [[\s\S]*?\}] followed by [\s*```]: the shortest text up to a
    closing brace after which only white space precedes the fence. *)
Fixpoint lazy_close (body : string) : option string :=
  match body with
  | EmptyString => None
  | String c r =>
      if Ascii.eqb c "}" && startsWith fence (skip_ws r) then Some "}"
      else match lazy_close r with
           | Some x => Some (String c x)
           | None => None
           end
  end.

(** A match of [/```(?:json)?\s*(\{[\s\S]*?\})\s*```/] that starts at the
    first character of [s]: its captured group. *)
Definition block_here (s : string) : option string :=
  if startsWith fence s then
    let r := drop 3 s in
    let r := if startsWith "json" r then drop 4 r else r in
    match skip_ws r with
    | String "{" body =>
        match lazy_close body with
        | Some x => Some (String "{" x)
        | None => None
        end
    | _ => None
    end
  else None.

(** [data.match(...)]: the group of the leftmost match. *)
Fixpoint codeBlock (s : string) : option string :=
  match block_here s with
  | Some x => Some x
  | None => match s with
            | EmptyString => None
            | String _ r => codeBlock r
            end
  end.

(** [data.replace(/```json|```/g, "")]. *)
Fixpoint strip_fences_fuel (fuel : nat) (s : string) : string :=
  match fuel with
  | O => s
  | S f =>
      if startsWith "```json" s then strip_fences_fuel f (drop 7 s)
      else if startsWith fence s then strip_fences_fuel f (drop 3 s)
      else match s with
           | EmptyString => EmptyString
           | String c r => String c (strip_fences_fuel f r)
           end
  end.
Definition strip_fences (s : string) : string :=
  strip_fences_fuel (S (String.length s)) s.

Definition parse_or_throw (s : string) : Result json :=
  match Json.parse s with
  | Some v => Ok v
  | None => Throw Json.syntax_error
  end.

(** [validateToolSelection(data)]: a string is a model response to parse,
    anything else is used as it is. *)
Definition validateToolSelection (data : json) : Validated json :=
  let parsedInput :=
    match data with
    | JStr text =>
        let jsonString :=
          match codeBlock text with Some group => group | None => text end in
        parse_or_throw jsonString
    | _ => Ok data
    end in
  match parsedInput with
  | Throw e => Failure ("Failed to parse JSON from tool selection response: " ++ e)
  | Ok input =>
      let (valid, errors) := Ajv.validate ToolSelectionSchema input in
      if valid then Success input
      else Failure ("Tool selection validation failed: "
                    ++ Json.stringify2 (JArr errors))
  end.

(** [validateResourceSelection(data)]. *)
Definition validateResourceSelection (data : json) : Validated json :=
  let parsedInput :=
    match data with
    | JStr text => parse_or_throw (trim (strip_fences text))
    | _ => Ok data
    end in
  match parsedInput with
  | Throw e => Failure ("Failed to parse JSON from resource selection response: " ++ e)
  | Ok input =>
      let (valid, errors) := Ajv.validate ResourceSelectionSchema input in
      if valid then Success input
      else Failure ("Resource selection validation failed: "
                    ++ Json.stringify2 (JArr errors))
  end.

(** [createResourceSelectionFeedbackPrompt]; [providerText] is
    [state.mcpProvider?.text]. *)
Definition createResourceSelectionFeedbackPrompt
    (originalResponse errorMessage : string) (providerText : option string)
    (userMessage : string) : string :=
  LF ++ "Your previous resource selection response had errors: " ++ errorMessage ++ LF
  ++ LF ++ "User request: " ++ userMessage ++ LF
  ++ LF ++ "Available MCP resources:" ++ LF
  ++ or_string providerText "No resources available" ++ LF
  ++ LF ++ "Please analyze the user request and select the most appropriate resource, or indicate that no resource is suitable." ++ LF
  ++ "Respond with valid JSON (no code block formatting or comments) like:" ++ LF
  ++ LF ++ "{" ++ LF
  ++ dq "  'serverName': 'github'," ++ LF
  ++ dq "  'uri': 'github://elizaos/eliza/README.md'," ++ LF
  ++ dq "  'reasoning': 'The user wants information about the Eliza project which is in the README'" ++ LF
  ++ "}" ++ LF
  ++ LF ++ "Or if no resource is suitable:" ++ LF
  ++ LF ++ "{" ++ LF
  ++ dq "  'noResourceAvailable': true," ++ LF
  ++ "  " ++ quoted "reasoning" ++ ": "
  ++ quoted "The user is asking a question that doesn't match any available resource" ++ LF
  ++ "}" ++ LF.

(** The outcome of the selection loop: a validated selection, or none. *)
Inductive Selection (A : Type) : Type :=
| Selected (data : A)
| Abandoned.
Arguments Selected {A} data.
Arguments Abandoned {A}.

(** Modelled from the spec: [withModelRetry] of [utils/mcp.ts], which is not
    among the sources. The spec gives the loop as
    Propose, Parse, SchemaValidate, then Accept or Reject, Feedback, Propose,
    bounded by a maximum retry count, each failed attempt consuming one unit
    whatever the error, with the terminal state [Abandoned] on exhaustion;
    the model is called again with the feedback prompt. [generate i prompt]
    is the response of the model to the [i]-th prompt. The result comes with
    the responses that were validated, in order. *)
Fixpoint withModelRetry {A} (attemptsLeft : nat) (attempt : nat) (response : string)
    (validationFn : json -> Validated A)
    (createFeedbackPromptFn : string -> string -> string)
    (generate : nat -> string -> string) : Selection A * list string :=
  match attemptsLeft with
  | O => (Abandoned, [])
  | S remaining =>
      match validationFn (JStr response) with
      | Success data => (Selected data, [response])
      | Failure errorMessage =>
          let feedbackPrompt := createFeedbackPromptFn response errorMessage in
          let retry := generate attempt feedbackPrompt in
          let (outcome, validated) :=
            withModelRetry remaining (S attempt) retry validationFn
              createFeedbackPromptFn generate in
          (outcome, response :: validated)
      end
  end.

End Validation.

(* ================================================================== *)
(** * Orders of a synthesized resource list *)
(* ================================================================== *)

Module Order.
Import Str.

(** A resource at one of the two fixed uris. *)
Definition isFixed (r : Resource.t) : bool :=
  Synthesizer.hasUri (ResourceTemplate.uriTemplate Synthesizer.calculatorResourceTemplate) r
  || Synthesizer.hasUri (ResourceTemplate.uriTemplate Synthesizer.weatherResourceTemplate) r.

(** A resource at a generic per-tool uri of server [name]. *)
Definition isGeneric (name : string) (r : Resource.t) : bool :=
  startsWith ("mcp://" ++ name ++ "/synthetic/tool/") (Resource.uri r).

(** The order of the specification: the calculator and weather entries
    come before the generic per-tool entries, that is, no generic entry
    has a fixed entry after it. *)
Fixpoint fixedBeforeGeneric (name : string) (l : list Resource.t) : bool :=
  match l with
  | [] => true
  | r :: rest =>
      (negb (isGeneric name r) || negb (existsb isFixed rest))
      && fixedBeforeGeneric name rest
  end.

(** [k] is [l] with some elements left out. *)
Inductive subseq {A : Type} : list A -> list A -> Prop :=
| subseq_nil : subseq [] []
| subseq_skip x k l : subseq k l -> subseq k (x :: l)
| subseq_keep x k l : subseq k l -> subseq (x :: k) (x :: l).

End Order.

(* ================================================================== *)
(** * Invariants of method bodies *)
(* ================================================================== *)

Module Invariant.

(** [m] leaves a service that satisfies [I] in one that satisfies it,
    whether it returns or throws. *)
Definition keeps {A} (I : McpService -> Prop) (m : M A) : Prop :=
  forall this r this' w, m this = (r, this', w) -> I this -> I this'.

(** [m] assigns to no field of the service. *)
Definition reads {A} (m : M A) : Prop :=
  forall this r this' w, m this = (r, this', w) -> this' = this.

(** The connection list is [base] followed by one connection for [name]
    that stores the serialized configuration [cfg]. *)
Definition pushed (name cfg : string) (base : list McpConnection)
    (this : McpService) : Prop :=
  exists c, connections this = (base ++ [c])%list
            /\ McpServer.name (server c) = name
            /\ McpServer.config (server c) = cfg.

(** An entry of the configuration map needs no work: its connection
    stores its serialized configuration, or it has no connection and no
    transport can be built for it. *)
Definition settled (W : World) (l : list McpConnection) (entry : string * json)
  : Prop :=
  match find (named (fst entry)) l with
  | Some c => McpServer.config (server c) = Json.stringify (snd entry)
  | None => fails (buildTransport W (fst entry) (snd entry))
  end.

(** No connection of [l] has the name [name]. *)
Definition absent (name : string) (l : list McpConnection) : Prop :=
  Forall (fun c => named name c = false) l.

End Invariant.

(* ================================================================== *)
(** * Concrete providers and services used in the examples *)
(* ================================================================== *)

Module Examples.
Import Str.

(** A client of a provider that reports the tools [tools], no resources
    (the listing methods are not supported), and whose tool calls and
    resource reads answer [answer] and [content]. *)
Definition clientOf (tools : list Tool.t) (answer : Result json)
    (content : Result McpResourceResponse) : Client.t :=
  Client.mk (Ok tt) (Ok (Some tools)) (Throw "Method not found")
    (Throw "Method not found") (fun _ _ _ => answer) (fun _ => content) (Ok tt).

Definition quiet : Transport.t := Transport.mk (Ok tt).

Definition tool (name : string) : Tool.t := Tool.mk name None None None.

Definition serverOf (name : string) (tools : list Tool.t) : McpServer.t :=
  McpServer.mk name (dq "{'type':'sse','url':'http://localhost:5678/sse'}")
    connected (Some "") (Some tools) (Some []) (Some []) None.

Definition noProvider : McpProvider :=
  {| values := JObj [("mcp", JObj [])]; data := JObj [("mcp", JObj [])]; text := "" |}.

Definition serviceOf (conns : list McpConnection) : McpService :=
  {| connections := conns; mcpProvider := noProvider;
     initializationError := None; hasResourcefulServers := false |}.

(** A server with a [weather] tool whose calls time out. *)
Definition stormy : McpConnection :=
  {| server := serverOf "n8n" [tool "weather"];
     client := clientOf [tool "weather"] (Throw "Request timed out")
                 (Throw "Method not found");
     transport := quiet |}.

(** A server with one tool, [echo]. *)
Definition echoServer : McpConnection :=
  {| server := serverOf "srv" [tool "echo"];
     client := clientOf [tool "echo"] (Ok (JObj [("content", JArr [])]))
                 (Throw "Method not found");
     transport := quiet |}.

Definition disabledServer : McpConnection :=
  {| server := McpServer.mk "off" "{}" connected None None None None (Some true);
     client := clientOf [] (Throw "unreachable") (Throw "unreachable");
     transport := quiet |}.

(** A world in which every configuration opens the provider of
    [echoServer], every url is well formed and the snapshot builder
    succeeds. *)
Definition calm : World :=
  {| buildMcpProviderData := fun _ => Ok noProvider;
     newURL := fun _ => Ok tt;
     openClient := fun _ _ => client echoServer;
     openTransport := fun _ _ => quiet |}.

(** The same world with a snapshot builder that throws. *)
Definition broken : World :=
  {| buildMcpProviderData := fun _ => Throw "snapshot failed";
     newURL := fun _ => Ok tt;
     openClient := fun _ _ => client echoServer;
     openTransport := fun _ _ => quiet |}.

(** A world in which no provider answers the handshake. *)
Definition unreachable : World :=
  {| buildMcpProviderData := fun _ => Ok noProvider;
     newURL := fun _ => Ok tt;
     openClient := fun _ _ =>
       Client.mk (Throw "connect ECONNREFUSED") (Ok None) (Ok None) (Ok None)
         (fun _ _ _ => Throw "Not connected") (fun _ => Throw "Not connected") (Ok tt);
     openTransport := fun _ _ => quiet |}.

(** A world whose providers report the tools [echo], [calculator] and
    [weather], and no resource. *)
Definition workflows : World :=
  {| buildMcpProviderData := fun _ => Ok noProvider;
     newURL := fun _ => Ok tt;
     openClient := fun _ _ =>
       clientOf [tool "echo"; tool "calculator"; tool "weather"]
         (Ok (JObj [("content", JArr [])])) (Throw "Method not found");
     openTransport := fun _ _ => quiet |}.

Definition sseConfig : json :=
  JObj [("type", JStr "sse"); ("url", JStr "http://localhost:5678/sse")].

Definition stdioConfig : json :=
  JObj [("type", JStr "stdio"); ("command", JStr "npx")].

(** A configuration without the url its type requires. *)
Definition badConfig : json := JObj [("type", JStr "sse")].

End Examples.

(* ================================================================== *)
(** * The other methods of the service *)
(* ================================================================== *)

(** [Object.entries] of a JSON value that is not [null]. *)
Module JsObject.
Import Str.

(** The UTF-16 code units of a text. *)
Fixpoint units (s : string) : list Z :=
  match s with
  | EmptyString => []
  | String a r =>
      let x := code a in
      if (x <? 192)%Z then x :: units r
      else match r with
      | EmptyString => [x]
      | String b r1 =>
          let y := (code b - 128)%Z in
          if (x <? 224)%Z then ((x - 192) * 64 + y)%Z :: units r1
          else match r1 with
          | EmptyString => [x]
          | String c r2 =>
              let z := (code c - 128)%Z in
              if (x <? 240)%Z then (((x - 224) * 64 + y) * 64 + z)%Z :: units r2
              else match r2 with
              | EmptyString => [x]
              | String d r3 =>
                  let cp := ((((x - 240) * 64 + y) * 64 + z) * 64 + (code d - 128)
                             - 65536)%Z in
                  (55296 + cp / 1024)%Z :: (56320 + cp mod 1024)%Z :: units r3
              end
          end
      end
  end.

Fixpoint indexed {A} (i : Z) (l : list A) : list (string * A) :=
  match l with
  | [] => []
  | x :: r => (show_Z i, x) :: indexed (i + 1)%Z r
  end.

(** The own enumerable properties: the fields of an object, the elements
    of an array and the code units of a string under their indices, and
    nothing for a number or a boolean. *)
Definition entries (v : json) : list (string * json) :=
  match v with
  | JObj fs => fs
  | JArr l => indexed 0 l
  | JStr s => indexed 0 (map (fun u => JStr (Json.utf8 u)) (units s))
  | _ => []
  end.

End JsObject.

Definition set_initializationError (e : option string) (this : McpService) : McpService :=
  {| connections := connections this;
     mcpProvider := mcpProvider this;
     initializationError := e;
     hasResourcefulServers := hasResourcefulServers this |}.

Definition status_text (s : Status) : string :=
  match s with
  | connecting => "connecting"
  | connected => "connected"
  | disconnected => "disconnected"
  end.

Section Lifecycle.

Variable W : World.

(** [stop()]: the loop runs over the array the list was at its start,
    which the assignments of [deleteConnection] do not change. *)
Definition stop : M unit :=
  this <- get_this ;;
  for_each (connections this)
    (fun connection =>
       try_catch (deleteConnection (McpServer.name (server connection)))
         (fun _ => ret tt)) ;;
  modify (set_connections []).

(** [getMcpSettings()]; [setting] is what [runtime.getSetting("mcp")]
    gives. *)
Definition getMcpSettings (setting : Result (option json)) : option json :=
  match setting with
  | Ok (Some (JObj fs)) =>
      match Json.lookup "servers" fs with
      | Some _ => Some (JObj fs)
      | None => None
      end
  | Ok (Some (JStr s)) => if s =? "" then None else Json.parse s
  | _ => None
  end.

(** [mcpSettings.servers] when the test [!mcpSettings ||
    !mcpSettings.servers] of [initializeMcpServers] lets it through, and
    nothing when servers are not configured. *)
Definition configuredServers (setting : Result (option json)) : option json :=
  match getMcpSettings setting with
  | Some (JObj fs) =>
      match Json.lookup "servers" fs with
      | Some servers => if Json.truthy servers then Some servers else None
      | None => None
      end
  | _ => None
  end.

(** The [try] block of [initializeMcpServers]. *)
Definition loadServers (setting : Result (option json)) : M unit :=
  match getMcpSettings setting with
  | Some (JObj fs) =>
      match Json.lookup "servers" fs with
      | Some servers =>
          if Json.truthy servers then
            updateServerConnections W (JsObject.entries servers) ;;
            this <- get_this ;;
            let servers := getServers this in
            modify (set_hasResourcefulServers (existsb resourceful servers)) ;;
            provider <- lift (buildMcpProviderData W servers) ;;
            modify (set_mcpProvider provider)
          else ret tt
      | None => ret tt
      end
  | _ => ret tt
  end.

(** [initializeMcpServers()]. *)
Definition initializeMcpServers (setting : Result (option json)) : M unit :=
  modify (set_initializationError None) ;;
  modify (set_hasResourcefulServers false) ;;
  try_catch (loadServers setting)
    (fun e =>
       modify (set_initializationError
                 (Some ("Failed during initializeMcpServers execution: " ++ e)))).

(** [initialize(runtime)]. *)
Definition initialize (setting : Result (option json)) : M unit :=
  try_catch (initializeMcpServers setting)
    (fun e =>
       modify (set_initializationError
                 (Some ("Failed during initializeMcpServers: " ++ e)))).

(** [getProviderData()]. *)
Definition getProviderData (this : McpService) : McpProvider := mcpProvider this.

(** The constant of [types.ts], which is not among the sources. *)
Variable DEFAULT_MCP_TIMEOUT_SECONDS : Z.

(** A numeric option of a parsed configuration. The options [timeout] and
    [timeoutInMillis] are numbers by the type of a server configuration; a
    value of another type is outside the model and is read as absent. *)
Definition number_option (fs : list (string * json)) (k : string) : Z :=
  match Json.lookup k fs with
  | Some (JNum n) => n
  | _ => 0%Z
  end.

(** The option is a number, or absent. *)
Definition numeric_option (fs : list (string * json)) (k : string) : Prop :=
  match Json.lookup k fs with
  | Some (JNum _) | None => True
  | Some _ => False
  end.

(** The timeout of a tool call: [config.timeoutInMillis || config.timeout
    || DEFAULT_MCP_TIMEOUT_SECONDS * 1000] on the parsed stored
    configuration, and the default when there is none to read or reading
    it throws. *)
Definition toolTimeout (stored : string) : Z :=
  let default := (DEFAULT_MCP_TIMEOUT_SECONDS * 1000)%Z in
  if stored =? "" then default
  else match Json.parse stored with
       | Some (JObj fs) =>
           let millis := number_option fs "timeoutInMillis" in
           let timeout := number_option fs "timeout" in
           if negb (millis =? 0)%Z then millis
           else if negb (timeout =? 0)%Z then timeout
           else default
       | _ => default
       end.

(** [!result || !Array.isArray(result.content)], negated. *)
Definition hasContentArray (result : json) : bool :=
  match result with
  | JObj fs =>
      match Json.lookup "content" fs with
      | Some (JArr _) => true
      | _ => false
      end
  | _ => false
  end.

(** [callTool(serverName, toolName, toolArguments)], with the calls made
    on the client. *)
Definition callTool (this : McpService) (serverName toolName : string)
    (toolArguments : option json) : Result json * list Effect :=
  match getServerConnection this serverName with
  | None => (Throw ("MCP server not found: " ++ serverName), [])
  | Some connection =>
      let status := McpServer.status (server connection) in
      if negb (Status_eqb status connected) then
        (Throw ("MCP server " ++ serverName ++ " is not connected. Status: "
                ++ status_text status), [])
      else
        let timeout := toolTimeout (McpServer.config (server connection)) in
        let arguments := or_empty toolArguments in
        let call := CallTool serverName toolName arguments timeout in
        match Client.callTool (client connection) toolName arguments timeout with
        | Ok result =>
            if hasContentArray result then (Ok result, [call])
            else (Throw ("Invalid tool result from " ++ toolName
                         ++ ": missing or invalid 'content' array"), [call])
        | Throw e => (Throw e, [call])
        end
  end.

End Lifecycle.

(* ================================================================== *)
(** * Processing of resource responses and tool results ([utils/processing.ts]) *)
(* ================================================================== *)

Module Processing.
Import Str.

(** A string that is neither absent nor empty. *)
Definition nonempty (x : option string) : option string :=
  match x with
  | Some s => if s =? "" then None else Some s
  | None => None
  end.

(** What one content item adds to [resourceContent]. *)
Definition contentOf (content : Content.t) : string :=
  match nonempty (Content.text content) with
  | Some t => t
  | None =>
      match nonempty (Content.blob content) with
      | Some _ =>
          "[Binary data - " ++ or_string (Content.mimeType content) "unknown type" ++ "]"
      | None => ""
      end
  end.

(** What one content item adds to [resourceMeta]. *)
Definition metaOf (uri : string) (content : Content.t) : string :=
  "Resource: " ++ (if Content.uri content =? "" then uri else Content.uri content) ++ LF
  ++ match Content.mimeType content with
     | Some m => if m =? "" then "" else "Type: " ++ m ++ LF
     | None => ""
     end.

(** [processResourceResult(result, uri)]: the pair of [resourceContent]
    and [resourceMeta]. *)
Definition processResourceResult (result : McpResourceResponse) (uri : string)
  : string * string :=
  fold_left
    (fun acc content =>
       (fst acc ++ contentOf content, snd acc ++ metaOf uri content))
    (contents result) ("", "").

(** The resource embedded in an item of a tool result; a field is [Some]
    when the object has the key. *)
Module Embedded.
Record t : Type := mk {
  uri : string;
  text : option string;
  blob : option string
}.
End Embedded.

(** One item of a tool result. *)
Module ToolContent.
Record t : Type := mk {
  type : string;
  text : option string;
  mimeType : option string;
  data : option string;
  resource : option Embedded.t
}.
End ToolContent.

(** An attachment of a message. *)
Module Media.
Record t : Type := mk {
  contentType : option string;
  url : string;
  id : string;
  title : string;
  source : string;
  description : string;
  text : string
}.
End Media.

Record ToolOutput : Type := {
  toolOutput : string;
  hasAttachments : bool;
  attachments : list Media.t
}.

(** A value that may be [undefined], inside a template literal or added to
    a string. *)
Definition shown (x : option string) : string :=
  match x with
  | Some s => s
  | None => "undefined"
  end.

(** What an item of type [resource] adds to [toolOutput]. *)
Definition embeddedText (content : ToolContent.t) : string :=
  match ToolContent.resource content with
  | Some resource =>
      match Embedded.text resource, Embedded.blob resource with
      | Some text, _ =>
          LF ++ LF ++ "Resource (" ++ Embedded.uri resource ++ "):" ++ LF ++ text
      | None, Some _ =>
          LF ++ LF ++ "Resource (" ++ Embedded.uri resource ++ "): [Binary data]"
      | None, None => ""
      end
  | None => ""
  end.

(** The attachment pushed for an image item; [now] and [random] are what
    [Date.now()] and [Math.random().toString(36).substring(2, 7)] give for
    it. *)
Definition imageOf (serverName toolName : string) (now : Z) (random : string)
    (content : ToolContent.t) : Media.t :=
  Media.mk (ToolContent.mimeType content)
    ("data:" ++ shown (ToolContent.mimeType content) ++ ";base64,"
     ++ shown (ToolContent.data content))
    ("img-" ++ show_Z now ++ "-" ++ random)
    "Generated image"
    (serverName ++ "/" ++ toolName)
    "Tool-generated image"
    "Generated image".

Definition add_output (text : string) (acc : ToolOutput) : ToolOutput :=
  {| toolOutput := toolOutput acc ++ text;
     hasAttachments := hasAttachments acc;
     attachments := attachments acc |}.

(** One turn of the loop of [processToolResult]; [now k] and [random k]
    are the clock and the random text read for the attachment pushed when
    [k] are in the list. *)
Definition addItem (serverName toolName : string) (now : nat -> Z)
    (random : nat -> string) (acc : ToolOutput) (item : ToolContent.t) : ToolOutput :=
  if ToolContent.type item =? "text" then
    add_output (shown (ToolContent.text item)) acc
  else if ToolContent.type item =? "image" then
    {| toolOutput := toolOutput acc;
       hasAttachments := true;
       attachments :=
         (attachments acc
          ++ [imageOf serverName toolName (now (length (attachments acc)))
                (random (length (attachments acc))) item])%list |}
  else if ToolContent.type item =? "resource" then
    add_output (embeddedText item) acc
  else acc.

(** [processToolResult(result, serverName, toolName, runtime,
    messageEntityId)] on the items of [result.content]. *)
Definition processToolResult (content : list ToolContent.t)
    (serverName toolName : string) (now : nat -> Z) (random : nat -> string)
  : ToolOutput :=
  fold_left (addItem serverName toolName now random) content
    {| toolOutput := ""; hasAttachments := false; attachments := [] |}.

(** The items of a tool result that are images, and what the others add to
    the output. *)
Definition isImage (content : ToolContent.t) : bool :=
  ToolContent.type content =? "image".

Definition outputOf (content : ToolContent.t) : string :=
  if ToolContent.type content =? "text" then shown (ToolContent.text content)
  else if ToolContent.type content =? "resource" then embeddedText content
  else "".

End Processing.

(* ================================================================== *)
(** * The calls of the connection manager *)
(* ================================================================== *)

Module Shape.

(** The calls of the capability fetch. *)
Definition capabilityCalls (name : string) : list Effect :=
  [ListTools name; ListResources name; ListResourceTemplates name].

(** What a listing call contributes: its list, or none when it fails. *)
Definition listed {A} (r : Result (option (list A))) : list A :=
  match r with
  | Ok x => or_nil x
  | Throw _ => []
  end.

(** The calls of [deleteConnection] on a connection. *)
Definition closeCalls (c : McpConnection) : list Effect :=
  TransportClose (McpServer.name (server c))
  :: match Transport.close (transport c) with
     | Ok _ => [ClientClose (McpServer.name (server c))]
     | Throw _ => []
     end.

Definition isClose (e : Effect) : bool :=
  match e with
  | TransportClose _ | ClientClose _ => true
  | _ => false
  end.

(** The names of the connections are pairwise distinct. *)
Definition distinctNames (l : list McpConnection) : Prop :=
  NoDup (map (fun c => McpServer.name (server c)) l).

(** The calls of [connectToServer]: none when no transport can be built,
    else the handshake, followed by the three listings when the handshake
    succeeds and the test for an n8n url does not throw. *)
Definition openingCalls (W : World) (name : string) (config : json) : list Effect :=
  match buildTransport W name config with
  | Throw _ => []
  | Ok _ =>
      ClientConnect name
      :: match Client.connect (openClient W name config) with
         | Ok _ =>
             match isN8nServer config with
             | Ok _ => capabilityCalls name
             | Throw _ => []
             end
         | Throw _ => []
         end
  end.

(** The calls of one turn of the second loop of [updateServerConnections]
    on the connection list [l]. *)
Definition entryCalls (W : World) (l : list McpConnection) (entry : string * json)
  : list Effect :=
  match find (named (fst entry)) l with
  | None => openingCalls W (fst entry) (snd entry)
  | Some current =>
      if Json.stringify (snd entry) =? McpServer.config (server current)
      then []
      else closeCalls current ++ openingCalls W (fst entry) (snd entry)
  end.

(** The connections whose name is no key of the new configuration. *)
Definition removed (newNames : list string) (l : list McpConnection)
  : list McpConnection :=
  filter (fun c => negb (mem (McpServer.name (server c)) newNames)) l.

(** The service a method leaves. *)
Definition after {A} (m : M A) (this : McpService) : McpService :=
  snd (fst (m this)).

(** The calls a method makes. *)
Definition calls {A} (m : M A) (this : McpService) : list Effect :=
  snd (m this).

End Shape.

(* ================================================================== *)
(** * More providers used in the examples *)
(* ================================================================== *)

Module Fixtures.
Import Examples.

(** A provider whose transport refuses to close. *)
Definition stuck : McpConnection :=
  {| server := serverOf "stuck" [];
     client := clientOf [] (Throw "unreachable") (Throw "unreachable");
     transport := Transport.mk (Throw "EPIPE") |}.

Definition idle : McpConnection :=
  {| server := McpServer.mk "idle" "{}" connecting None None None None None;
     client := clientOf [] (Throw "unreachable") (Throw "unreachable");
     transport := quiet |}.

(** A server whose tool answers with one text item. *)
Definition talkative : McpConnection :=
  {| server := McpServer.mk "n8n"
                 (Str.dq "{'type':'sse','url':'http://localhost:5678/sse','timeout':5000}")
                 connected (Some "") (Some [tool "echo"]) (Some []) (Some []) None;
     client := clientOf [tool "echo"]
                 (Ok (JObj [("content",
                             JArr [JObj [("type", JStr "text"); ("text", JStr "hi")]])]))
                 (Throw "Method not found");
     transport := quiet |}.

Definition settings (servers : json) : Result (option json) :=
  Ok (Some (JObj [("servers", servers)])).

End Fixtures.

(* ================================================================== *)
(** * Values that [JSON.parse] builds and [JSON.stringify] writes *)
(* ================================================================== *)

Module JsonForm.
Import Str Json.

(** What may follow an integer numeral. *)
Definition ends_numeral (rest : string) : Prop :=
  match rest with
  | EmptyString => True
  | String c _ =>
      (is_digit c || Ascii.eqb c "." || Ascii.eqb c "e" || Ascii.eqb c "E") = false
  end.

(** The two steps of [parse_number]: the numeral without its sign, and
    the test of what follows it. *)
Definition unsigned (t : string) : option (Z * string) :=
  match t with
  | String c r =>
      if Ascii.eqb c "0" then Some (0%Z, r)
      else if is_digit c then Some (digits 0 t)
      else None
  | EmptyString => None
  end.

Definition checked (result : option (Z * string)) : option (Z * string) :=
  match result with
  | Some (n, String c r) =>
      if is_digit c || Ascii.eqb c "." || Ascii.eqb c "e" || Ascii.eqb c "E"
      then None else result
  | _ => result
  end.

(** How [JSON.parse] reads back a character written by [escape_char]. *)
Definition unit_of (c : ascii) : unit16 :=
  let n := code c in
  if ((n <? 32) && negb ((n =? 8) || (n =? 12) || (n =? 10) || (n =? 13) || (n =? 9)))%Z
  then Unit n else Byte c.

Fixpoint literal (s : string) : list unit16 :=
  match s with
  | EmptyString => []
  | String c r => unit_of c :: literal r
  end.

(** The properties of [fs] defined one after the other on [acc]. *)
Definition put_all (fs acc : list (string * json)) : list (string * json) :=
  fold_left (fun acc kv => obj_put (fst kv) (snd kv) acc) fs acc.

(** A value as [JSON.parse] builds it: in every object the keys are
    distinct and in enumeration order. *)
Fixpoint built (v : json) : Prop :=
  match v with
  | JArr xs =>
      (fix all (l : list json) : Prop :=
         match l with
         | [] => True
         | x :: r => built x /\ all r
         end) xs
  | JObj fs =>
      put_all fs [] = fs
      /\ (fix all (l : list (string * json)) : Prop :=
            match l with
            | [] => True
            | (_, x) :: r => built x /\ all r
            end) fs
  | _ => True
  end.

(** The recursion depth [JSON.parse] needs for a value. *)
Fixpoint need (v : json) : nat :=
  match v with
  | JArr xs =>
      S ((fix items (l : list json) : nat :=
            match l with
            | [] => 0
            | x :: r => S (Nat.max (need x) (items r))
            end) xs)
  | JObj fs =>
      S ((fix members (l : list (string * json)) : nat :=
            match l with
            | [] => 0
            | (_, x) :: r => S (Nat.max (need x) (members r))
            end) fs)
  | _ => 1
  end.

Definition value_start (c : ascii) : bool :=
  is_digit c || Ascii.eqb c "-" || Ascii.eqb c "n" || Ascii.eqb c "t" || Ascii.eqb c "f"
  || (code c =? 34)%Z || Ascii.eqb c "[" || Ascii.eqb c "{".

Fixpoint items_text (l : list json) : string :=
  match l with
  | [] => ""
  | x :: r => stringify x ++ match r with [] => "" | _ => "," ++ items_text r end
  end.

Fixpoint members_text (l : list (string * json)) : string :=
  match l with
  | [] => ""
  | (k, x) :: r =>
      quote k ++ ":" ++ stringify x
      ++ match r with [] => "" | _ => "," ++ members_text r end
  end.

Fixpoint need_items (l : list json) : nat :=
  match l with
  | [] => 0
  | x :: r => S (Nat.max (need x) (need_items r))
  end.

Fixpoint need_members (l : list (string * json)) : nat :=
  match l with
  | [] => 0
  | (_, x) :: r => S (Nat.max (need x) (need_members r))
  end.

(** The text of a value is read back as the value. *)
Definition reads_back (v : json) : Prop :=
  built v ->
  forall (fuel : nat) (rest : string),
  need v <= fuel -> ends_numeral rest ->
  parse_value fuel (stringify v ++ rest) = Some (v, rest).

Section Induction.
Variable P : json -> Prop.
Hypothesis Hnull : P JNull.
Hypothesis Hbool : forall b, P (JBool b).
Hypothesis Hnum : forall n, P (JNum n).
Hypothesis Hstr : forall s, P (JStr s).
Hypothesis Harr : forall xs, Forall P xs -> P (JArr xs).
Hypothesis Hobj : forall fs, Forall (fun kv => P (snd kv)) fs -> P (JObj fs).

Fixpoint json_induction (v : json) : P v :=
  match v with
  | JNull => Hnull
  | JBool b => Hbool b
  | JNum n => Hnum n
  | JStr s => Hstr s
  | JArr xs =>
      Harr xs ((fix go (l : list json) : Forall P l :=
                  match l with
                  | [] => Forall_nil P
                  | x :: r => Forall_cons x (json_induction x) (go r)
                  end) xs)
  | JObj fs =>
      Hobj fs ((fix go (l : list (string * json)) : Forall (fun kv => P (snd kv)) l :=
                  match l with
                  | [] => Forall_nil _
                  | (k, x) :: r => Forall_cons (k, x) (json_induction x) (go r)
                  end) fs)
  end.
End Induction.

End JsonForm.

(* ================================================================== *)
(** * Properties of the resource router *)
(* ================================================================== *)

Module RouterFacts.
Import Str Router.

Lemma startsWith_app (p s : string) :
  startsWith p s = true -> s = p ++ drop (String.length p) s.
Proof.
  revert s; induction p as [|a p IH]; intros s H; simpl in *.
  - reflexivity.
  - destruct s as [|b s]; [discriminate|].
    apply andb_prop in H as [Hab Hp].
    apply Ascii.eqb_eq in Hab; subst b.
    simpl. f_equal. apply IH, Hp.
Qed.

Lemma replace_prefix (p rep s : string) :
  startsWith p s = true -> replace p rep s = rep ++ drop (String.length p) s.
Proof.
  intros H; destruct s; simpl; rewrite H; reflexivity.
Qed.

Lemma weather_location (uri : string) :
  startsWith weatherPrefix uri = true ->
  replace weatherPrefix "" uri = drop 28 uri.
Proof.
  intros H. rewrite (replace_prefix _ _ _ H). reflexivity.
Qed.

Lemma weather_is_not_calculator (uri : string) :
  startsWith weatherPrefix uri = true -> (uri =? calculatorUri) = false.
Proof.
  intros H. destruct (String.eqb_spec uri calculatorUri) as [->|]; [|reflexivity].
  discriminate H.
Qed.

Lemma weather_is_not_tool (uri : string) :
  startsWith weatherPrefix uri = true -> toolResourceMatch uri = None.
Proof.
  intros H. apply startsWith_app in H. rewrite H. reflexivity.
Qed.

Lemma tool_is_not_calculator (uri : string) (m : string * string) :
  toolResourceMatch uri = Some m -> (uri =? calculatorUri) = false.
Proof.
  intros H. destruct (String.eqb_spec uri calculatorUri) as [->|]; [|reflexivity].
  discriminate H.
Qed.

Lemma tool_is_not_weather (uri : string) (m : string * string) :
  toolResourceMatch uri = Some m -> startsWith weatherPrefix uri = false.
Proof.
  intros H. destruct (startsWith weatherPrefix uri) eqn:E; [|reflexivity].
  rewrite (weather_is_not_tool _ E) in H. discriminate.
Qed.

(** Past the two checks, [readResource] dispatches on the uri alone. *)
Lemma readResource_available (this : McpService) (now : Z) (serverName uri : string)
    (conn : McpConnection) :
  getServerConnection this serverName = Some conn ->
  McpServer.disabled (server conn) <> Some true ->
  readResource this now serverName uri =
    if uri =? calculatorUri then (Ok (errorContent uri (calculatorError uri)), [])
    else if startsWith weatherPrefix uri then readWeather conn serverName uri now
    else match toolResourceMatch uri with
         | Some (srv, toolName) =>
             if srv =? serverName then readToolResource conn serverName uri toolName
             else (Client.readResource (client conn) uri, [ReadResource serverName uri])
         | None => (Client.readResource (client conn) uri, [ReadResource serverName uri])
         end.
Proof.
  unfold getServerConnection, readResource. intros -> Hd.
  destruct (McpServer.disabled (server conn)) as [[|]|]; try reflexivity.
  contradiction Hd; reflexivity.
Qed.

End RouterFacts.

Module RouterProperties.
Import Str Router RouterFacts Examples.

(** C10. Whatever the uri, the fixed calculator and weather uris included,
    [readResource] first looks the connection up and checks that it is not
    disabled: when no connection has the server name, or the one found is
    disabled, it throws the corresponding error and has made no call on any
    client, so that no synthetic resource handling has taken place. *)
Theorem readResource_checks_connection_first
    (this : McpService) (now : Z) (serverName uri : string) :
  (getServerConnection this serverName = None \/
   exists conn, getServerConnection this serverName = Some conn
                /\ McpServer.disabled (server conn) = Some true) ->
  (getServerConnection this serverName = None /\
   readResource this now serverName uri
   = (Throw ("No connection found for server: " ++ serverName), []))
  \/
  (getServerConnection this serverName <> None /\
   readResource this now serverName uri
   = (Throw ("Server " ++ quoted serverName ++ " is disabled"), [])).
Proof.
  unfold getServerConnection, readResource.
  intros [H | [conn [H Hd]]]; rewrite H.
  - left; split; reflexivity.
  - right; rewrite Hd; split; [discriminate | reflexivity].
Qed.

Lemma readResource_checks_connection_first_witness :
  readResource (serviceOf [disabledServer]) 0 "off" calculatorUri
  = (Throw ("Server " ++ quoted "off" ++ " is disabled"), [])
  /\ readResource (serviceOf [disabledServer]) 0 "nobody" "mcp://n8n/synthetic/weather/Oslo"
     = (Throw "No connection found for server: nobody", []).
Proof.
  split.
  - destruct (readResource_checks_connection_first
                (serviceOf [disabledServer]) 0 "off" calculatorUri) as [[H _] | [_ H]].
    + right. exists disabledServer. split; reflexivity.
    + discriminate H.
    + exact H.
  - destruct (readResource_checks_connection_first
                (serviceOf [disabledServer]) 0 "nobody"
                "mcp://n8n/synthetic/weather/Oslo") as [[_ H] | [H _]].
    + left. reflexivity.
    + exact H.
    + contradiction H. reflexivity.
Defined.

(** C2. For a server name with a connection that is not disabled, reading
    the fixed calculator uri returns a response with one content item, of
    MIME type [application/mcp-error], whose text explains that the
    resource must be called as a tool; no call is made on the client,
    whatever the tools of the connection. *)
Theorem readResource_calculator_is_an_error_body
    (this : McpService) (now : Z) (serverName : string) (conn : McpConnection) :
  getServerConnection this serverName = Some conn ->
  McpServer.disabled (server conn) <> Some true ->
  readResource this now serverName "mcp://n8n/synthetic/calculator"
  = (Ok {| contents :=
             [ Content.mk "mcp://n8n/synthetic/calculator"
                 (Some "application/mcp-error")
                 (Some "Error: The calculator resource (mcp://n8n/synthetic/calculator) represents a tool and must be invoked using the CALL_TOOL action. It cannot be read directly.")
                 None ] |},
     []).
Proof.
  intros H Hd. rewrite (readResource_available this now _ _ conn H Hd). reflexivity.
Qed.

Lemma readResource_calculator_is_an_error_body_witness :
  snd (readResource (serviceOf [echoServer]) 0 "srv" "mcp://n8n/synthetic/calculator") = [].
Proof.
  rewrite (readResource_calculator_is_an_error_body
             (serviceOf [echoServer]) 0 "srv" echoServer eq_refl).
  - reflexivity.
  - discriminate.
Defined.

(** C1, as the code has it. For a server name with a connection that is
    not disabled and a uri that starts with [mcp://n8n/synthetic/weather/],
    [readResource] never throws. When the connection has no tool named
    [weather], or the tool call returns without a content item, and the
    location decodes, the response is one [application/json] item carrying
    the placeholder payload (temperature 22, condition Sunny, humidity 65,
    wind speed 10, two forecast entries). When the call of the weather tool
    throws, the response is one [application/mcp-error] item with the text
    "Error fetching weather data: " followed by the message, not the
    placeholder. *)
Theorem readResource_weather_never_throws
    (this : McpService) (now : Z) (serverName uri : string) (conn : McpConnection) :
  getServerConnection this serverName = Some conn ->
  McpServer.disabled (server conn) <> Some true ->
  startsWith weatherPrefix uri = true ->
  let location := replace weatherPrefix "" uri in
  let tools := or_nil (McpServer.tools (server conn)) in
  let answer :=
    Client.callTool (client conn) "weather" (JObj [("location", JStr location)]) 10000 in
  let placeholder (place : string) :=
    {| contents :=
         [ Content.mk uri (Some "application/json")
             (Some (Json.stringify (placeholderData place now))) None ] |} in
  let out := readResource this now serverName uri in
  returns (fst out)
  /\ (forall place,
        Uri.decodeURIComponent location = Some place ->
        find (toolNamed "weather") tools = None ->
        out = (Ok (placeholder place), []))
  /\ (forall place result,
        Uri.decodeURIComponent location = Some place ->
        find (toolNamed "weather") tools <> None ->
        answer = Ok result -> firstContent result = None ->
        fst out = Ok (placeholder place))
  /\ (forall e,
        find (toolNamed "weather") tools <> None ->
        answer = Throw e ->
        fst out
        = Ok {| contents :=
                  [ Content.mk uri (Some "application/mcp-error")
                      (Some ("Error fetching weather data: " ++ e)) None ] |}).
Proof.
  intros H Hd Hw. cbv zeta.
  rewrite (readResource_available this now _ uri conn H Hd).
  rewrite (weather_is_not_calculator _ Hw), Hw.
  unfold readWeather, weatherPlaceholder.
  repeat split.
  - destruct (find (toolNamed "weather") _).
    + destruct (Client.callTool _ _ _ _) as [result|e]; [|eexists; reflexivity].
      destruct (firstContent result); eexists; reflexivity.
    + eexists; reflexivity.
  - intros place Hp Hf. rewrite Hf, Hp. reflexivity.
  - intros place result Hp Hf Ha Hc.
    destruct (find (toolNamed "weather") _); [|contradiction Hf; reflexivity].
    rewrite Ha, Hc, Hp. reflexivity.
  - intros e Hf Ha.
    destruct (find (toolNamed "weather") _); [|contradiction Hf; reflexivity].
    rewrite Ha. reflexivity.
Qed.

Lemma readResource_weather_never_throws_witness :
  returns (fst (readResource (serviceOf [stormy]) 0 "n8n"
                  "mcp://n8n/synthetic/weather/Nowhere")).
Proof.
  refine (proj1 (readResource_weather_never_throws
                   (serviceOf [stormy]) 0 "n8n"
                   "mcp://n8n/synthetic/weather/Nowhere" stormy
                   eq_refl _ eq_refl)).
  discriminate.
Defined.

(** C1, as stated, fails: the server [stormy] has a [weather] tool whose
    call throws, and the response to a weather read is an error item, not
    the placeholder payload. *)
Lemma weather_tool_failure_is_not_the_placeholder :
  let uri := "mcp://n8n/synthetic/weather/Nowhere" in
  let out := readResource (serviceOf [stormy]) 0 "n8n" uri in
  Client.callTool (client stormy) "weather" (JObj [("location", JStr "Nowhere")]) 10000
  = Throw "Request timed out"
  /\ fst out
     = Ok {| contents :=
               [ Content.mk uri (Some "application/mcp-error")
                   (Some "Error fetching weather data: Request timed out") None ] |}
  /\ fst out
     <> Ok {| contents :=
                [ Content.mk uri (Some "application/json")
                    (Some (Json.stringify (placeholderData "Nowhere" 0))) None ] |}.
Proof.
  cbv zeta. split; [reflexivity|]. split; [reflexivity|].
  vm_compute. discriminate.
Qed.

(** A uri built from a server name and a tool name is matched by the
    pattern of the generic tool resources. *)
Lemma split_slash_app (s r : string) :
  split_slash s = (s, "") -> split_slash (s ++ String "/" r) = (s, String "/" r).
Proof.
  induction s as [|c s IH]; simpl; intros H.
  - reflexivity.
  - destruct (Ascii.eqb c "/"); [discriminate|].
    destruct (split_slash s) as [a b] eqn:E.
    injection H as Ha Hb; subst a b.
    rewrite (IH eq_refl). reflexivity.
Qed.

Lemma toolResourceMatch_toolUri (serverName toolName : string) :
  serverName <> "" -> split_slash serverName = (serverName, "") ->
  dot_plus toolName = true ->
  toolResourceMatch (Synthesizer.toolUri serverName toolName)
  = Some (serverName, toolName).
Proof.
  intros Hne Hs Hd. unfold toolResourceMatch, Synthesizer.toolUri.
  change (startsWith "mcp://" ("mcp://" ++ serverName ++ "/synthetic/tool/" ++ toolName))
    with (startsWith "" (serverName ++ "/synthetic/tool/" ++ toolName)).
  change (drop 6 ("mcp://" ++ serverName ++ "/synthetic/tool/" ++ toolName))
    with (serverName ++ "/synthetic/tool/" ++ toolName).
  change (startsWith "" (serverName ++ "/synthetic/tool/" ++ toolName)) with true.
  cbv iota.
  change ("/synthetic/tool/" ++ toolName) with (String "/" ("synthetic/tool/" ++ toolName)).
  rewrite (split_slash_app _ _ Hs).
  destruct (String.eqb_spec serverName ""); [contradiction|].
  simpl. rewrite Hd. reflexivity.
Qed.

(** C6, as the code has it. For a server name with a connection that is
    not disabled and a uri matched by [mcp://{server}/synthetic/tool/{toolName}]
    with the requested server name: no call is made on the client, so the
    tool is not invoked; when the connection has no tool of that name the
    call does not fail but returns one [application/mcp-error] item whose
    text reports that the tool was not found; otherwise it returns one
    [application/json] item describing the tool (name, description, input
    and output schemas, usage hint). *)
Theorem readResource_tool_description
    (this : McpService) (now : Z) (serverName uri toolName : string)
    (conn : McpConnection) :
  getServerConnection this serverName = Some conn ->
  McpServer.disabled (server conn) <> Some true ->
  toolResourceMatch uri = Some (serverName, toolName) ->
  let out := readResource this now serverName uri in
  snd out = []
  /\ match find (toolNamed toolName) (or_nil (McpServer.tools (server conn))) with
     | None =>
         fst out
         = Ok {| contents :=
                   [ Content.mk uri (Some "application/mcp-error")
                       (Some ("Error accessing tool resource: Tool '" ++ toolName
                              ++ "' not found on server '" ++ serverName ++ "'"))
                       None ] |}
     | Some tool =>
         fst out
         = Ok {| contents :=
                   [ Content.mk uri (Some "application/json")
                       (Some (Json.stringify2
                                (JObj
                                   [ ("name", JStr (Tool.name tool));
                                     ("description",
                                      JStr (or_string (Tool.description tool)
                                              ("The " ++ Tool.name tool ++ " tool")));
                                     ("inputSchema", or_empty (Tool.inputSchema tool));
                                     ("outputSchema", or_empty (Tool.outputSchema tool));
                                     ("usage",
                                      JStr ("To use this tool, call the CALL_TOOL action with serverName: "
                                            ++ quoted serverName ++ ", toolName: "
                                            ++ quoted toolName
                                            ++ " and appropriate arguments.")) ])))
                       None ] |}
     end.
Proof.
  intros H Hd Hm. cbv zeta.
  rewrite (readResource_available this now _ uri conn H Hd).
  rewrite (tool_is_not_calculator _ _ Hm), (tool_is_not_weather _ _ Hm), Hm.
  rewrite String.eqb_refl. unfold readToolResource.
  destruct (find (toolNamed toolName) _); split; reflexivity.
Qed.

Lemma readResource_tool_description_witness :
  snd (readResource (serviceOf [echoServer]) 0 "srv" "mcp://srv/synthetic/tool/echo") = [].
Proof.
  refine (proj1 (readResource_tool_description
                   (serviceOf [echoServer]) 0 "srv" "mcp://srv/synthetic/tool/echo"
                   "echo" echoServer eq_refl _ eq_refl)).
  discriminate.
Defined.

(** C6, as stated, fails: the server [echoServer] has no tool named
    [missing], and reading the resource of that tool does not fail: it
    returns an error item. *)
Lemma missing_tool_does_not_throw :
  let uri := "mcp://srv/synthetic/tool/missing" in
  let out := readResource (serviceOf [echoServer]) 0 "srv" uri in
  find (toolNamed "missing") (or_nil (McpServer.tools (server echoServer))) = None
  /\ ~ fails (fst out)
  /\ fst out
     = Ok {| contents :=
               [ Content.mk uri (Some "application/mcp-error")
                   (Some "Error accessing tool resource: Tool 'missing' not found on server 'srv'")
                   None ] |}.
Proof.
  cbv zeta. split; [reflexivity|]. split; [|reflexivity].
  intros [e He]. vm_compute in He. discriminate He.
Qed.

End RouterProperties.

(* ================================================================== *)
(** * Properties of the capability synthesizer *)
(* ================================================================== *)

Module SynthesizerFacts.
Import Str Synthesizer Order.
Local Open Scope list_scope.

Lemma append_inj_l (p a b : string) : (p ++ a = p ++ b)%string -> a = b.
Proof.
  induction p as [|c p IH]; simpl; intros H.
  - exact H.
  - injection H as H. exact (IH H).
Qed.

Lemma toolUri_inj (name a b : string) : toolUri name a = toolUri name b -> a = b.
Proof.
  unfold toolUri. intros H.
  apply append_inj_l in H. apply append_inj_l in H. apply append_inj_l in H.
  exact H.
Qed.

Lemma existsb_hasUri_app (u : string) (l : list Resource.t) (x : Resource.t) :
  existsb (hasUri u) (l ++ [x]) = existsb (hasUri u) l || (Resource.uri x =? u).
Proof.
  rewrite existsb_app. simpl. rewrite orb_false_r. reflexivity.
Qed.

(** The loop over the tools only appends, and what it appends are generic
    resources of tools other than the calculator, in the order of the tool
    list. *)
Lemma generic_loop (name : string) (tools : list Tool.t) :
  forall acc : list Resource.t * list ResourceTemplate.t,
  exists kept,
    fst (fold_left (synthesizeTool name) tools acc)
    = fst acc ++ map (toolResource name) kept
    /\ subseq kept tools
    /\ Forall (fun t => Tool.name t <> "calculator") kept.
Proof.
  induction tools as [|t tools IH]; intros acc; simpl.
  - exists []. rewrite app_nil_r. repeat split; constructor.
  - unfold synthesizeTool at 2.
    destruct (String.eqb_spec (Tool.name t) "calculator") as [Hc|Hc].
    + destruct (IH acc) as [kept [H1 [H2 H3]]].
      exists kept. repeat split; [exact H1 | constructor; exact H2 | exact H3].
    + unfold pushResource.
      destruct (existsb (hasUri (Resource.uri (toolResource name t))) (fst acc)).
      * destruct (IH (fst acc, pushTemplate (snd acc) (toolTemplate name t)))
          as [kept [H1 [H2 H3]]].
        exists kept. repeat split; [exact H1 | constructor; exact H2 | exact H3].
      * destruct (IH (fst acc ++ [toolResource name t],
                      pushTemplate (snd acc) (toolTemplate name t)))
          as [kept [H1 [H2 H3]]].
        exists (t :: kept). simpl in H1. rewrite H1, <- app_assoc. simpl.
        repeat split; [constructor; exact H2 | constructor; assumption].
Qed.

(** With distinct tool names, none of them [calculator], and no uri of
    theirs taken, the loop appends one resource per tool. *)
Lemma generic_loop_all (name : string) (tools : list Tool.t) :
  forall acc : list Resource.t * list ResourceTemplate.t,
  NoDup (map Tool.name tools) ->
  (forall t, In t tools -> Tool.name t <> "calculator") ->
  (forall t, In t tools ->
     existsb (hasUri (toolUri name (Tool.name t))) (fst acc) = false) ->
  fst (fold_left (synthesizeTool name) tools acc)
  = fst acc ++ map (toolResource name) tools.
Proof.
  induction tools as [|t tools IH]; intros acc Hnd Hc Hfree; simpl.
  - rewrite app_nil_r. reflexivity.
  - inversion Hnd as [|? ? Hnotin Hnd']; subst.
    unfold synthesizeTool at 2.
    destruct (String.eqb_spec (Tool.name t) "calculator") as [E|_].
    { exfalso. exact (Hc t (or_introl eq_refl) E). }
    unfold pushResource.
    change (Resource.uri (toolResource name t)) with (toolUri name (Tool.name t)).
    rewrite (Hfree t (or_introl eq_refl)).
    rewrite IH.
    + simpl. rewrite <- app_assoc. reflexivity.
    + exact Hnd'.
    + intros t' Ht'. apply Hc. right. exact Ht'.
    + intros t' Ht'. cbn [fst]. rewrite existsb_hasUri_app.
      rewrite (Hfree t' (or_intror Ht')). cbn [orb].
      change (Resource.uri (toolResource name t)) with (toolUri name (Tool.name t)).
      destruct (String.eqb_spec (toolUri name (Tool.name t)) (toolUri name (Tool.name t')))
        as [E|_]; [|reflexivity].
      exfalso. apply Hnotin. apply toolUri_inj in E. rewrite E.
      apply in_map. exact Ht'.
Qed.

Lemma hasTool_absent (n : string) (tools : list Tool.t) :
  (forall t, In t tools -> Tool.name t <> n) -> hasTool n tools = false.
Proof.
  unfold hasTool. induction tools as [|t tools IH]; intros H; simpl.
  - reflexivity.
  - destruct (String.eqb_spec (Tool.name t) n) as [E|_].
    + exfalso. exact (H t (or_introl eq_refl) E).
    + apply IH. intros t' Ht'. apply H. right. exact Ht'.
Qed.

Lemma NoDup_toolUris (name : string) (tools : list Tool.t) :
  NoDup (map Tool.name tools) ->
  NoDup (map (fun t => toolUri name (Tool.name t)) tools).
Proof.
  induction tools as [|t tools IH]; simpl; intros H.
  - constructor.
  - inversion H as [|? ? Hnotin Hnd]; subst. constructor.
    + intros Hin. apply in_map_iff in Hin as [t' [E Ht']].
      apply toolUri_inj in E. apply Hnotin. rewrite <- E.
      apply in_map. exact Ht'.
    + apply IH. exact Hnd.
Qed.

(** What a fixed template adds, at the end of the list: nothing, or its
    resource. *)
Lemma synthesizeFixed_appends (toolName : string) (t : ResourceTemplate.t)
    (tools : list Tool.t) (acc : list Resource.t * list ResourceTemplate.t) :
  fst (synthesizeFixed toolName t tools acc) = fst acc
  \/ fst (synthesizeFixed toolName t tools acc) = fst acc ++ [templateResource t].
Proof.
  unfold synthesizeFixed, pushResource.
  destruct (hasTool toolName tools); [|left; reflexivity].
  simpl. destruct (existsb _ (fst acc)); [left | right]; reflexivity.
Qed.

End SynthesizerFacts.

Module SynthesizerProperties.
Import Str Synthesizer Order SynthesizerFacts Examples.
Local Open Scope list_scope.

(** C5. When the capability fetch of a connection reports no resource
    and [N] tools of pairwise distinct names, none of them [calculator] or
    [weather], the synthesized resource list has exactly [N] entries, one
    per tool and in the order of the tools, at the uris
    [mcp://{server}/synthetic/tool/{toolName}], which are pairwise
    distinct. *)
Theorem synthesize_one_resource_per_tool
    (name : string) (isN8nServer : bool) (actualTools : list Tool.t)
    (actualResourceTemplates : list ResourceTemplate.t) :
  NoDup (map Tool.name actualTools) ->
  (forall t, In t actualTools ->
     Tool.name t <> "calculator" /\ Tool.name t <> "weather") ->
  let resources :=
    fst (synthesize name isN8nServer actualTools [] actualResourceTemplates) in
  resources = map (toolResource name) actualTools
  /\ length resources = length actualTools
  /\ map Resource.uri resources
     = map (fun t => ("mcp://" ++ name ++ "/synthetic/tool/" ++ Tool.name t)%string)
         actualTools
  /\ NoDup (map Resource.uri resources).
Proof.
  intros Hnd Hnames. cbv zeta.
  assert (E : fst (synthesize name isN8nServer actualTools [] actualResourceTemplates)
              = map (toolResource name) actualTools).
  { unfold synthesize. simpl length. rewrite Nat.eqb_refl, orb_true_r.
    unfold synthesizeFixed.
    rewrite (hasTool_absent "weather"), (hasTool_absent "calculator").
    - rewrite generic_loop_all; [reflexivity | exact Hnd | | reflexivity].
      intros t Ht. apply (Hnames t Ht).
    - intros t Ht. apply (Hnames t Ht).
    - intros t Ht. apply (Hnames t Ht). }
  rewrite E. repeat split.
  - apply length_map.
  - rewrite map_map. reflexivity.
  - rewrite map_map. apply (NoDup_toolUris name actualTools Hnd).
Qed.

Lemma synthesize_one_resource_per_tool_witness :
  length (fst (synthesize "srv" false [tool "echo"; tool "search"] [] [])) = 2%nat.
Proof.
  refine (proj1 (proj2 (synthesize_one_resource_per_tool
                          "srv" false [tool "echo"; tool "search"] [] _ _))).
  - repeat constructor; simpl; intuition discriminate.
  - simpl. intros t [<-|[<-|[]]]; split; discriminate.
Defined.

(** C7, as the code has it. The synthesized resource list is in insertion
    order: the resources the provider reported first, then the generic
    per-tool entries in the order of the tool list, then the calculator
    entry and the weather entry last. *)
Theorem synthesize_order
    (name : string) (isN8nServer : bool) (actualTools : list Tool.t)
    (actualResources : list Resource.t)
    (actualResourceTemplates : list ResourceTemplate.t) :
  exists kept fixed,
    fst (synthesize name isN8nServer actualTools actualResources actualResourceTemplates)
    = actualResources ++ map (toolResource name) kept ++ fixed
    /\ subseq kept actualTools
    /\ Forall (fun t => Tool.name t <> "calculator") kept
    /\ (fixed = [] \/ fixed = [calculatorResource] \/ fixed = [weatherResource]
        \/ fixed = [calculatorResource; weatherResource]).
Proof.
  unfold synthesize.
  set (start := (actualResources, actualResourceTemplates)).
  assert (G : exists kept,
             fst (if isN8nServer || (length actualResources =? 0)%nat
                  then fold_left (synthesizeTool name) actualTools start else start)
             = actualResources ++ map (toolResource name) kept
             /\ subseq kept actualTools
             /\ Forall (fun t => Tool.name t <> "calculator") kept).
  { destruct (isN8nServer || (length actualResources =? 0)%nat).
    - exact (generic_loop name actualTools start).
    - exists []. simpl. rewrite app_nil_r. repeat split; [|constructor].
      clear. induction actualTools; constructor; assumption. }
  destruct G as [kept [G1 [G2 G3]]].
  set (generic := if isN8nServer || (length actualResources =? 0)%nat
                  then fold_left (synthesizeTool name) actualTools start else start) in *.
  set (withCalculator :=
         synthesizeFixed "calculator" calculatorResourceTemplate actualTools generic).
  exists kept.
  destruct (synthesizeFixed_appends "weather" weatherResourceTemplate actualTools
              withCalculator) as [Ew|Ew];
  destruct (synthesizeFixed_appends "calculator" calculatorResourceTemplate actualTools
              generic) as [Ec|Ec];
  fold withCalculator in Ec; rewrite Ew, Ec, G1.
  - exists []. rewrite app_nil_r. repeat split; auto.
  - exists [calculatorResource]. rewrite <- app_assoc. repeat split; auto.
  - exists [weatherResource]. rewrite <- app_assoc. repeat split; auto.
  - exists [calculatorResource; weatherResource].
    rewrite <- !app_assoc. repeat split; auto.
Qed.

(** C7, as stated, fails: for the tools [echo] and [calculator] and no
    reported resource, the generic entry of [echo] comes before the
    calculator entry. *)
Lemma generic_entry_precedes_calculator_entry :
  let resources :=
    fst (synthesize "srv" false [tool "echo"; tool "calculator"] [] []) in
  resources = [toolResource "srv" (tool "echo"); calculatorResource]
  /\ isGeneric "srv" (toolResource "srv" (tool "echo")) = true
  /\ isFixed calculatorResource = true
  /\ fixedBeforeGeneric "srv" resources = false.
Proof.
  cbv zeta. repeat split; reflexivity.
Qed.

End SynthesizerProperties.

(* ================================================================== *)
(** * Properties of the selection validator and of the retry loop *)
(* ================================================================== *)

Module ValidationProperties.
Import Str Validation.
Local Open Scope list_scope.

(** With [allErrors], every required property that the object lacks has
    its own error. *)
Lemma errors_report_every_missing_property
    (required : list string) (properties : list (string * Ajv.Schema))
    (fs : list (string * json)) (instancePath schemaPath k : string) :
  In k required -> Json.lookup k fs = None ->
  In (Ajv.requiredError instancePath schemaPath k)
     (Ajv.errors (Ajv.SObject required properties) instancePath schemaPath (JObj fs)).
Proof.
  intros Hk Hl. cbn [Ajv.errors]. apply in_or_app. left.
  apply in_flat_map. exists k. split; [exact Hk|].
  rewrite Hl. left. reflexivity.
Qed.

(** C8. [validateToolSelection] accepts the selection of the calculator
    tool of server [n8n] with the arguments [{"input":"2+2"}], given as an
    object or as text, and returns it as the data; it rejects
    [{"serverName":"n8n"}], given as an object or as text, and the error
    message is then the text below: after the prefix it lists all four
    violations of the schema, the missing [toolName], the missing
    [arguments], what the other alternative of the schema lacks and the
    failed [anyOf], not only the first of them. *)
Theorem validateToolSelection_accepts_and_rejects :
  let good :=
    JObj [ ("serverName", JStr "n8n"); ("toolName", JStr "calculator");
           ("arguments", JObj [("input", JStr "2+2")]) ] in
  let bad := JObj [("serverName", JStr "n8n")] in
  let message :=
    (dq "Tool selection validation failed: [
  {
    'instancePath': '',
    'schemaPath': '#/anyOf/0/required',
    'keyword': 'required',
    'params': {
      'missingProperty': 'toolName'
    },
    'message': 'must have required property " ++ "'toolName'" ++ dq "'
  },
  {
    'instancePath': '',
    'schemaPath': '#/anyOf/0/required',
    'keyword': 'required',
    'params': {
      'missingProperty': 'arguments'
    },
    'message': 'must have required property " ++ "'arguments'" ++ dq "'
  },
  {
    'instancePath': '',
    'schemaPath': '#/anyOf/1/required',
    'keyword': 'required',
    'params': {
      'missingProperty': 'noToolAvailable'
    },
    'message': 'must have required property " ++ "'noToolAvailable'" ++ dq "'
  },
  {
    'instancePath': '',
    'schemaPath': '#/anyOf',
    'keyword': 'anyOf',
    'params': {},
    'message': 'must match a schema in anyOf'
  }
]")%string in
  validateToolSelection good = Success good
  /\ validateToolSelection
       (JStr (dq "{'serverName':'n8n','toolName':'calculator','arguments':{'input':'2+2'}}"))
     = Success good
  /\ validateToolSelection bad = Failure message
  /\ validateToolSelection (JStr (dq "{'serverName':'n8n'}")) = Failure message
  /\ length (snd (Ajv.validate ToolSelectionSchema bad)) = 4%nat.
Proof.
  cbv zeta. repeat split; vm_compute; reflexivity.
Qed.

(** C3. Whatever the first response of the model, when the validator
    rejects every input the selection loop validates exactly the
    configured maximum number of responses and then ends without a
    selection: the outcome is [Abandoned], not an error. *)
Theorem withModelRetry_gives_up_after_the_maximum
    (A : Type) (maxAttempts attempt : nat) (response : string)
    (validationFn : json -> Validated A)
    (createFeedbackPromptFn : string -> string -> string)
    (generate : nat -> string -> string) :
  (forall data, exists errorMessage, validationFn data = Failure errorMessage) ->
  fst (withModelRetry maxAttempts attempt response validationFn
         createFeedbackPromptFn generate) = Abandoned
  /\ length (snd (withModelRetry maxAttempts attempt response validationFn
                    createFeedbackPromptFn generate)) = maxAttempts.
Proof.
  intros Hrej. revert attempt response.
  induction maxAttempts as [|n IH]; intros attempt response; simpl.
  - split; reflexivity.
  - destruct (Hrej (JStr response)) as [e He]. rewrite He.
    specialize (IH (S attempt) (generate attempt (createFeedbackPromptFn response e))).
    destruct (withModelRetry n (S attempt) _ validationFn createFeedbackPromptFn generate)
      as [outcome validated].
    simpl in *. destruct IH as [IH1 IH2]. split; [exact IH1 | rewrite IH2; reflexivity].
Qed.

Lemma withModelRetry_gives_up_after_the_maximum_witness :
  fst (withModelRetry 3 0 "I cannot decide"
         (fun _ : json => @Failure json "rejected")
         (fun response e => createResourceSelectionFeedbackPrompt response e None "hello")
         (fun _ _ => "still undecided")) = Abandoned.
Proof.
  refine (proj1 (withModelRetry_gives_up_after_the_maximum json 3 0 "I cannot decide"
                   (fun _ => Failure "rejected")
                   (fun response e =>
                      createResourceSelectionFeedbackPrompt response e None "hello")
                   (fun _ _ => "still undecided") _)).
  intros data. exists "rejected". reflexivity.
Defined.

(** The loop with the resource validator on a model that never answers
    with JSON: two attempts, both validated and rejected, no selection. *)
Example withModelRetry_on_a_stubborn_model :
  withModelRetry 2 0 "no idea" validateResourceSelection
    (fun response e => createResourceSelectionFeedbackPrompt response e None "hello")
    (fun _ _ => "still no idea")
  = (Abandoned, ["no idea"; "still no idea"]).
Proof. vm_compute. reflexivity. Qed.

End ValidationProperties.

(* ================================================================== *)
(** * Properties of the connection manager *)
(* ================================================================== *)

Module ServiceFacts.
Import Invariant.
Local Open Scope list_scope.

(** Reads off the result, the service and the calls from the equation of
    a finished run. *)
Ltac outcome H := injection H as <- <- <-.

(** ** Rules for the invariants of method bodies *)

Section Rules.
Context {A B : Type}.
Variable I : McpService -> Prop.

Lemma keeps_bind (m : M A) (k : A -> M B) :
  keeps I m -> (forall a, keeps I (k a)) -> keeps I (bind m k).
Proof.
  unfold keeps, bind. intros Hm Hk this r this' w H HI.
  destruct (m this) as [[[a|e] s] w1] eqn:Em.
  - destruct (k a s) as [[r2 s2] w2] eqn:Ek. outcome H.
    exact (Hk a s r2 s2 w2 Ek (Hm this (Ok a) s w1 Em HI)).
  - outcome H. exact (Hm this (Throw e) s w1 Em HI).
Qed.

Lemma keeps_try_catch (m : M A) (h : string -> M A) :
  keeps I m -> (forall e, keeps I (h e)) -> keeps I (try_catch m h).
Proof.
  unfold keeps, try_catch. intros Hm Hh this r this' w H HI.
  destruct (m this) as [[[a|e] s] w1] eqn:Em.
  - outcome H. exact (Hm this (Ok a) s w1 Em HI).
  - destruct (h e s) as [[r2 s2] w2] eqn:Eh. outcome H.
    exact (Hh e s r2 s2 w2 Eh (Hm this (Throw e) s w1 Em HI)).
Qed.

Lemma keeps_try_finally (m : M A) (final : M unit) :
  keeps I m -> keeps I final -> keeps I (try_finally m final).
Proof.
  unfold keeps, try_finally. intros Hm Hf this r this' w H HI.
  destruct (m this) as [[r1 s] w1] eqn:Em.
  pose proof (Hm this r1 s w1 Em HI) as HIs.
  destruct (final s) as [[[u|e] s2] w2] eqn:Ef; outcome H;
    exact (Hf s _ s2 w2 Ef HIs).
Qed.

Lemma reads_keeps (m : M A) : reads m -> keeps I m.
Proof.
  unfold reads, keeps. intros Hm this r this' w H HI.
  rewrite (Hm this r this' w H). exact HI.
Qed.

Lemma reads_bind (m : M A) (k : A -> M B) :
  reads m -> (forall a, reads (k a)) -> reads (bind m k).
Proof.
  unfold reads, bind. intros Hm Hk this r this' w H.
  destruct (m this) as [[[a|e] s] w1] eqn:Em.
  - destruct (k a s) as [[r2 s2] w2] eqn:Ek. outcome H.
    rewrite (Hk a s r2 s2 w2 Ek). exact (Hm this (Ok a) s w1 Em).
  - outcome H. exact (Hm this (Throw e) s w1 Em).
Qed.

Lemma reads_try_catch (m : M A) (h : string -> M A) :
  reads m -> (forall e, reads (h e)) -> reads (try_catch m h).
Proof.
  unfold reads, try_catch. intros Hm Hh this r this' w H.
  destruct (m this) as [[[a|e] s] w1] eqn:Em.
  - outcome H. exact (Hm this (Ok a) s w1 Em).
  - destruct (h e s) as [[r2 s2] w2] eqn:Eh. outcome H.
    rewrite (Hh e s r2 s2 w2 Eh). exact (Hm this (Throw e) s w1 Em).
Qed.

Lemma reads_ret (a : A) : reads (ret a).
Proof. unfold reads, ret. intros this r this' w H. outcome H. reflexivity. Qed.

Lemma reads_throw (e : string) : reads (@throw A e).
Proof. unfold reads, throw. intros this r this' w H. outcome H. reflexivity. Qed.

Lemma reads_lift (x : Result A) : reads (lift x).
Proof. unfold reads, lift. intros this r this' w H. outcome H. reflexivity. Qed.

Lemma reads_perform (e : Effect) (x : Result A) : reads (perform e x).
Proof. unfold reads, perform. intros this r this' w H. outcome H. reflexivity. Qed.

End Rules.

Lemma reads_get_this : reads get_this.
Proof. unfold reads, get_this. intros this r this' w H. outcome H. reflexivity. Qed.

Lemma keeps_modify (I : McpService -> Prop) (f : McpService -> McpService) :
  (forall this, I this -> I (f this)) -> keeps I (modify f).
Proof.
  unfold keeps, modify. intros Hf this r this' w H HI. outcome H.
  exact (Hf this HI).
Qed.

(** ** Lists of connections *)

Lemma absent_without (name : string) (l : list McpConnection) :
  absent name (without name l).
Proof.
  unfold absent, without. apply Forall_forall. intros c Hc.
  apply filter_In in Hc as [_ Hc]. apply negb_true_iff in Hc. exact Hc.
Qed.

Lemma find_absent (name : string) (l : list McpConnection) :
  absent name l -> find (named name) l = None.
Proof.
  unfold absent. induction 1 as [|c l Hc _ IH]; simpl.
  - reflexivity.
  - rewrite Hc. exact IH.
Qed.

Lemma absent_find (name : string) (l : list McpConnection) :
  find (named name) l = None -> absent name l.
Proof.
  unfold absent. induction l as [|c l IH]; simpl; intros H.
  - constructor.
  - destruct (named name c) eqn:E; [discriminate|].
    constructor; [exact E | exact (IH H)].
Qed.

Lemma without_absent (name : string) (l : list McpConnection) :
  absent name l -> without name l = l.
Proof.
  unfold absent, without. induction 1 as [|c l Hc _ IH]; simpl.
  - reflexivity.
  - rewrite Hc. simpl. rewrite IH. reflexivity.
Qed.

Lemma without_without (name : string) (l : list McpConnection) :
  without name (without name l) = without name l.
Proof. apply without_absent, absent_without. Qed.

Lemma update_first_pushed (name : string) (f : McpServer.t -> McpServer.t)
    (base : list McpConnection) (c : McpConnection) :
  absent name base -> McpServer.name (server c) = name ->
  update_first name f (base ++ [c]) = base ++ [set_server (f (server c)) c].
Proof.
  unfold absent. intros Hb Hc. induction Hb as [|b base Hb _ IH]; simpl.
  - unfold named. rewrite Hc, String.eqb_refl. reflexivity.
  - rewrite Hb, IH. reflexivity.
Qed.

(** Another name sees the same first connection after the connections of
    [name] are replaced by others of that name. *)
Lemma find_other_without (name other : string) (l tail : list McpConnection) :
  other <> name ->
  Forall (fun c => McpServer.name (server c) = name) tail ->
  find (named other) (without name l ++ tail) = find (named other) l.
Proof.
  intros Hne Htail.
  assert (Hother : forall c, named name c = true -> named other c = false).
  { intros c Hc. unfold named in *. apply String.eqb_eq in Hc.
    apply String.eqb_neq. congruence. }
  induction l as [|c l IH].
  - simpl. induction Htail as [|t tail Ht _ IHt]; simpl; [reflexivity|].
    rewrite (Hother t); [exact IHt|].
    unfold named. rewrite Ht. apply String.eqb_refl.
  - unfold without in *. simpl. destruct (named name c) eqn:E; simpl.
    + rewrite (Hother c E). exact IH.
    + destruct (named other c); [reflexivity | exact IH].
Qed.

End ServiceFacts.

Module ManagerFacts.
Import Invariant ServiceFacts.
Local Open Scope list_scope.

Section World.
Variable W : World.

(** ** The capability fetch assigns nothing *)

Lemma reads_fetchToolsList (serverName : string) : reads (fetchToolsList serverName).
Proof.
  unfold fetchToolsList. apply reads_bind; [exact reads_get_this|]. intros this.
  destruct (ready this serverName); [|apply reads_ret].
  apply reads_try_catch; [|intros; apply reads_ret].
  apply reads_bind; [apply reads_perform | intros; apply reads_ret].
Qed.

Lemma reads_fetchResourcesList (serverName : string) :
  reads (fetchResourcesList serverName).
Proof.
  unfold fetchResourcesList. apply reads_bind; [exact reads_get_this|]. intros this.
  destruct (ready this serverName); [|apply reads_ret].
  apply reads_try_catch; [|intros; apply reads_ret].
  apply reads_try_catch.
  - apply reads_bind; [apply reads_perform | intros; apply reads_ret].
  - intros e. destruct (Str.includes _ e); [apply reads_ret | apply reads_throw].
Qed.

Lemma reads_fetchResourceTemplatesList (serverName : string) :
  reads (fetchResourceTemplatesList serverName).
Proof.
  unfold fetchResourceTemplatesList. apply reads_bind; [exact reads_get_this|].
  intros this.
  destruct (ready this serverName); [|apply reads_ret].
  apply reads_try_catch; [|intros; apply reads_ret].
  apply reads_try_catch.
  - apply reads_bind; [apply reads_perform | intros; apply reads_ret].
  - intros e. destruct (Str.includes _ e); [apply reads_ret | apply reads_throw].
Qed.

(** ** Assignments to the pushed connection *)

Lemma keeps_pushed_assign (name cfg : string) (base : list McpConnection)
    (f : McpServer.t -> McpServer.t) :
  absent name base ->
  (forall s, McpServer.name s = name -> McpServer.config s = cfg ->
             McpServer.name (f s) = name /\ McpServer.config (f s) = cfg) ->
  keeps (pushed name cfg base) (assign name f).
Proof.
  intros Hbase Hf. unfold assign. apply keeps_modify.
  intros this [c [Hl [Hn Hc]]]. unfold pushed. simpl.
  rewrite Hl, (update_first_pushed name f base c Hbase Hn).
  exists (set_server (f (server c)) c). split; [reflexivity|].
  simpl. exact (Hf (server c) Hn Hc).
Qed.

Lemma keeps_pushed_establish (name : string) (config : json) (base : list McpConnection)
    (connection : McpConnection) :
  absent name base ->
  keeps (pushed name (Json.stringify config) base) (establish name config connection).
Proof.
  intros Hbase. unfold establish.
  apply keeps_bind; [apply reads_keeps, reads_perform | intros _].
  apply keeps_bind.
  { apply keeps_pushed_assign; [exact Hbase|]. intros s Hn Hc. split; assumption. }
  intros _.
  apply keeps_bind; [apply reads_keeps, reads_lift | intros n8n].
  apply keeps_bind; [apply reads_keeps, reads_fetchToolsList | intros tools].
  apply keeps_bind; [apply reads_keeps, reads_fetchResourcesList | intros resources].
  apply keeps_bind; [apply reads_keeps, reads_fetchResourceTemplatesList | intros templates].
  apply keeps_pushed_assign; [exact Hbase|]. intros s _ _. split; reflexivity.
Qed.

Lemma keeps_pushed_connectFailed (name cfg : string) (base : list McpConnection)
    (error : string) :
  absent name base -> keeps (pushed name cfg base) (connectFailed name error).
Proof.
  intros Hbase. unfold connectFailed.
  apply keeps_bind; [apply reads_keeps, reads_get_this | intros this].
  destruct (getServerConnection this name).
  - apply keeps_pushed_assign; [exact Hbase|]. intros s Hn Hc. split; assumption.
  - apply reads_keeps, reads_ret.
Qed.

Lemma connectFailed_absent (name error : string) (this : McpService) :
  absent name (connections this) ->
  connectFailed name error this = (Ok tt, this, []).
Proof.
  intros H. unfold connectFailed, bind, get_this, getServerConnection.
  rewrite (find_absent name _ H). reflexivity.
Qed.

(** ** The [finally] block *)

Lemma refreshProvider_connections (this : McpService) r this' w :
  refreshProvider W this = (r, this', w) ->
  connections this' = connections this /\ w = [].
Proof.
  unfold refreshProvider, bind, get_this, lift, modify, updateResourceAvailability.
  destruct (buildMcpProviderData W (getServers this)); simpl;
    intros H; outcome H; split; reflexivity.
Qed.

(** ** [connectToServer] *)

(** The connections after [connectToServer]: those of other names, in
    their order, followed by a connection that stores the serialized
    configuration when a transport could be built, and by nothing, no
    provider having been called, when it could not. *)
Lemma connectToServer_connections (name : string) (config : json)
    (this : McpService) r this' w :
  connectToServer W name config this = (r, this', w) ->
  match buildTransport W name config with
  | Ok _ =>
      pushed name (Json.stringify config) (without name (connections this)) this'
  | Throw _ =>
      connections this' = without name (connections this) /\ w = []
  end.
Proof.
  unfold connectToServer. unfold bind at 1. unfold modify at 1.
  set (start := set_connections (without name (connections this)) this).
  unfold try_finally.
  destruct (try_catch (connectBody W name config) (connectFailed name) start)
    as [[r1 s1] w1] eqn:E1.
  destruct (refreshProvider W s1) as [[r2 s2] w2] eqn:E2.
  destruct (refreshProvider_connections s1 r2 s2 w2 E2) as [Hc2 Hw2]. subst w2.
  intros H.
  assert (Hs : this' = s2 /\ w = [] ++ w1 ++ []).
  { destruct r2; outcome H; split; reflexivity. }
  destruct Hs as [-> ->]. clear H.
  assert (Hbase : absent name (connections start)) by apply absent_without.
  unfold try_catch, connectBody in E1. unfold bind at 1 in E1. unfold lift in E1.
  destruct (buildTransport W name config) as [tr|e].
  - unfold bind at 1 in E1. unfold modify at 1 in E1.
    set (connection := {| server := _; client := _; transport := tr |}) in E1.
    set (opened := set_connections (connections start ++ [connection]) start) in E1.
    assert (Hp : pushed name (Json.stringify config) (without name (connections this)) opened).
    { exists connection. repeat split; reflexivity. }
    destruct (establish name config connection opened) as [[r3 s3] w3] eqn:E3.
    pose proof (keeps_pushed_establish name config _ connection Hbase
                  opened r3 s3 w3 E3 Hp) as Hp3.
    assert (Hp1 : pushed name (Json.stringify config) (without name (connections this)) s1).
    { destruct r3 as [u|e].
      - outcome E1. exact Hp3.
      - destruct (connectFailed name e s3) as [[r4 s4] w4] eqn:E4.
        outcome E1.
        exact (keeps_pushed_connectFailed name _ _ e Hbase s3 r4 s4 w4 E4 Hp3). }
    destruct Hp1 as [c [Hl Hc]]. exists c. rewrite Hc2. split; assumption.
  - rewrite (connectFailed_absent name e start Hbase) in E1.
    outcome E1. rewrite Hc2. split; reflexivity.
Qed.

(** ** [deleteConnection] *)

Lemma deleteConnection_connections (name : string) (this : McpService) :
  exists this' w,
    deleteConnection name this = (Ok tt, this', w)
    /\ connections this' = without name (connections this)
    /\ (getServerConnection this name = None -> this' = this /\ w = []).
Proof.
  unfold deleteConnection, bind, get_this, try_catch, perform, ret, modify.
  destruct (getServerConnection this name) as [connection|] eqn:E.
  - destruct (Transport.close (transport connection));
      destruct (Client.close (client connection)); simpl;
      eexists _, _; (split; [reflexivity|]); (split; [reflexivity | discriminate]).
  - exists this, []. split; [reflexivity|]. split.
    + symmetry. apply without_absent, absent_find. exact E.
    + intros _. split; reflexivity.
Qed.

End World.

End ManagerFacts.

Module ReconcileFacts.
Import Invariant ServiceFacts ManagerFacts.
Local Open Scope list_scope.

Lemma bind_ok {A B} (m : M A) (k : A -> M B) (this s1 s2 : McpService)
    (a : A) (r : Result B) (w1 w2 : list Effect) :
  m this = (Ok a, s1, w1) -> k a s1 = (r, s2, w2) ->
  bind m k this = (r, s2, w1 ++ w2).
Proof. unfold bind. intros -> ->. reflexivity. Qed.

Lemma mem_In (x : string) (l : list string) : mem x l = true <-> In x l.
Proof.
  unfold mem. rewrite existsb_exists. split.
  - intros [y [Hy E]]. apply String.eqb_eq in E. subst y. exact Hy.
  - intros H. exists x. split; [exact H | apply String.eqb_refl].
Qed.

Lemma In_dedup (x : string) (l : list string) : In x (dedup l) <-> In x l.
Proof.
  induction l as [|y l IH]; simpl; [tauto|].
  rewrite filter_In, IH, negb_true_iff, String.eqb_neq.
  destruct (string_dec y x) as [->|Hne]; [tauto|].
  split; [tauto|]. intros [H|H]; [tauto|]. right. split; [exact H|].
  intros E. apply Hne. symmetry. exact E.
Qed.

Lemma find_pushed (name : string) (base : list McpConnection) (c : McpConnection) :
  absent name base -> McpServer.name (server c) = name ->
  find (named name) (base ++ [c]) = Some c.
Proof.
  unfold absent. intros Hb Hc. induction Hb as [|b base Hb _ IH]; simpl.
  - unfold named. rewrite Hc, String.eqb_refl. reflexivity.
  - rewrite Hb. exact IH.
Qed.

Section World.
Variable W : World.

(** [connectToServer] replaces the connections of [name] and leaves the
    entry settled. *)
Lemma connectToServer_replaces (name : string) (config : json)
    (this : McpService) r this' w :
  connectToServer W name config this = (r, this', w) ->
  exists tail,
    connections this' = without name (connections this) ++ tail
    /\ Forall (fun c => McpServer.name (server c) = name) tail
    /\ settled W (connections this') (name, config)
    /\ (fails (buildTransport W name config) -> tail = [] /\ w = []).
Proof.
  intros H. apply connectToServer_connections in H.
  unfold settled. simpl fst. simpl snd.
  destruct (buildTransport W name config) as [tr|e] eqn:E.
  - destruct H as [c [Hl [Hn Hc]]]. exists [c]. rewrite Hl.
    split; [reflexivity|]. split; [constructor; [exact Hn | constructor]|].
    rewrite (find_pushed name _ c (absent_without name _) Hn).
    split; [exact Hc|]. intros [e He]. discriminate He.
  - destruct H as [Hl ->]. exists []. rewrite Hl, app_nil_r.
    split; [reflexivity|]. split; [constructor|].
    rewrite (find_absent name _ (absent_without name _)).
    split; [exists e; reflexivity | intros _; split; reflexivity].
Qed.

(** One entry of the configuration map: the turn of the loop never throws,
    settles the entry, touches no connection of another name, and does
    nothing at all on an entry that is settled. *)
Lemma reconcileEntry_settles (name : string) (config : json) (this : McpService) :
  exists this' w,
    reconcileEntry W (name, config) this = (Ok tt, this', w)
    /\ settled W (connections this') (name, config)
    /\ (forall other, other <> name ->
          find (named other) (connections this')
          = find (named other) (connections this))
    /\ (forall c, In c (connections this') ->
          In c (connections this) \/ McpServer.name (server c) = name)
    /\ (settled W (connections this) (name, config) ->
          connections this' = connections this /\ w = []).
Proof.
  assert (Hin : forall (l tail : list McpConnection) c,
             Forall (fun c => McpServer.name (server c) = name) tail ->
             In c (without name l ++ tail) ->
             In c l \/ McpServer.name (server c) = name).
  { intros l tail c Ht Hc. apply in_app_or in Hc as [Hc|Hc].
    - left. apply filter_In in Hc. tauto.
    - right. rewrite Forall_forall in Ht. exact (Ht c Hc). }
  unfold reconcileEntry. unfold bind at 1. unfold get_this.
  unfold settled at 2. simpl fst. simpl snd. unfold getServerConnection.
  destruct (find (named name) (connections this)) as [cur|] eqn:Ef.
  - destruct (String.eqb_spec (Json.stringify config) (McpServer.config (server cur)))
      as [Ec|Ec]; cbn [negb].
    + exists this, []. split; [reflexivity|].
      split; [unfold settled; simpl; rewrite Ef; symmetry; exact Ec|].
      split; [reflexivity|]. split; [tauto|]. intros _. split; reflexivity.
    + destruct (deleteConnection_connections name this) as [s1 [w1 [Hd [Hl1 _]]]].
      destruct (connectToServer W name config s1) as [[r2 s2] w2] eqn:E2.
      destruct (connectToServer_replaces name config s1 r2 s2 w2 E2)
        as [tail [Hl2 [Ht [Hs _]]]].
      rewrite Hl1, without_without in Hl2.
      exists s2, (w1 ++ w2 ++ match r2 with Ok _ => [] | Throw _ => [] end).
      split.
      { unfold try_catch. rewrite (bind_ok _ _ this s1 s2 tt r2 w1 w2 Hd E2).
        destruct r2 as [[]|e]; simpl; rewrite ?app_nil_r; reflexivity. }
      split; [exact Hs|]. split.
      { intros other Hne. rewrite Hl2. apply find_other_without; assumption. }
      split.
      { intros c Hc. rewrite Hl2 in Hc. exact (Hin _ _ c Ht Hc). }
      intros Hset. exfalso. apply Ec. symmetry. exact Hset.
  - destruct (connectToServer W name config this) as [[r2 s2] w2] eqn:E2.
    destruct (connectToServer_replaces name config this r2 s2 w2 E2)
      as [tail [Hl2 [Ht [Hs Hfail]]]].
    exists s2, (w2 ++ match r2 with Ok _ => [] | Throw _ => [] end).
    split.
    { unfold try_catch. rewrite E2.
      destruct r2 as [[]|e]; simpl; rewrite ?app_nil_r; reflexivity. }
    split; [exact Hs|]. split.
    { intros other Hne. rewrite Hl2. apply find_other_without; assumption. }
    split.
    { intros c Hc. rewrite Hl2 in Hc. exact (Hin _ _ c Ht Hc). }
    intros Hset. destruct (Hfail Hset) as [-> ->].
    rewrite Hl2, app_nil_r, (without_absent name _ (absent_find name _ Ef)).
    destruct r2; split; reflexivity.
Qed.

(** The second loop of [updateServerConnections] settles every entry of a
    map whose keys are distinct. *)
Lemma entries_settle (entries : list (string * json)) :
  NoDup (map fst entries) ->
  forall this,
  exists this' w,
    for_each entries (reconcileEntry W) this = (Ok tt, this', w)
    /\ Forall (settled W (connections this')) entries
    /\ (forall other, ~ In other (map fst entries) ->
          find (named other) (connections this')
          = find (named other) (connections this))
    /\ (forall c, In c (connections this') ->
          In c (connections this) \/ In (McpServer.name (server c)) (map fst entries)).
Proof.
  induction entries as [|[name config] entries IH]; intros Hnd this.
  - exists this, []. split; [reflexivity|]. split; [constructor|].
    split; [reflexivity | tauto].
  - simpl in Hnd. inversion Hnd as [|? ? Hnotin Hnd']; subst.
    destruct (reconcileEntry_settles name config this)
      as [s1 [w1 [E1 [Hs1 [Ho1 [Hi1 _]]]]]].
    destruct (IH Hnd' s1) as [s2 [w2 [E2 [Hs2 [Ho2 Hi2]]]]].
    exists s2, (w1 ++ w2). split.
    { simpl. exact (bind_ok _ _ this s1 s2 tt (Ok tt) w1 w2 E1 E2). }
    split.
    { constructor; [|exact Hs2].
      unfold settled in *. simpl fst in *. simpl snd in *.
      rewrite (Ho2 name Hnotin). exact Hs1. }
    split.
    { intros other Hother. simpl in Hother.
      rewrite (Ho2 other); [apply Ho1|]; intros E; apply Hother; [left | right].
      - symmetry. exact E.
      - exact E. }
    intros c Hc. simpl. destruct (Hi2 c Hc) as [H|H]; [|tauto].
    destruct (Hi1 c H) as [H'|H']; [tauto|]. right. left. symmetry. exact H'.
Qed.

(** On a list where every entry is settled the second loop changes no
    connection and calls no provider. *)
Lemma entries_settled_noop (entries : list (string * json)) :
  forall this,
  Forall (settled W (connections this)) entries ->
  exists this',
    for_each entries (reconcileEntry W) this = (Ok tt, this', [])
    /\ connections this' = connections this.
Proof.
  induction entries as [|[name config] entries IH]; intros this Hall.
  - exists this. split; reflexivity.
  - inversion Hall as [|? ? Hs Hrest]; subst.
    destruct (reconcileEntry_settles name config this)
      as [s1 [w1 [E1 [_ [_ [_ Hnoop]]]]]].
    destruct (Hnoop Hs) as [Hl1 ->].
    rewrite <- Hl1 in Hrest.
    destruct (IH s1 Hrest) as [s2 [E2 Hl2]].
    exists s2. split; [|rewrite Hl2; exact Hl1].
    simpl. exact (bind_ok _ _ this s1 s2 tt (Ok tt) [] [] E1 E2).
Qed.

End World.

(** The first loop of [updateServerConnections]: it never throws, only
    removes connections, and leaves none whose name is iterated and is not
    a key of the new map; when every iterated name is a key it does
    nothing. *)
Lemma removed_servers_deleted (newNames names : list string) :
  forall this,
  exists this' w,
    for_each names
      (fun name => if negb (mem name newNames) then deleteConnection name else ret tt)
      this = (Ok tt, this', w)
    /\ (forall c, In c (connections this') ->
          In c (connections this)
          /\ (In (McpServer.name (server c)) names ->
              In (McpServer.name (server c)) newNames))
    /\ ((forall n, In n names -> In n newNames) -> this' = this /\ w = []).
Proof.
  induction names as [|n names IH]; intros this.
  - exists this, []. split; [reflexivity|]. split; [|split; reflexivity].
    intros c Hc. split; [exact Hc | intros []].
  - destruct (mem n newNames) eqn:Em.
    + destruct (IH this) as [s2 [w2 [E2 [Hi2 Hn2]]]].
      exists s2, w2. split.
      { simpl. rewrite Em. cbn [negb].
        exact (bind_ok _ _ this this s2 tt (Ok tt) [] w2 eq_refl E2). }
      split.
      { intros c Hc. destruct (Hi2 c Hc) as [H1 H2]. split; [exact H1|].
        intros [E|H]; [|exact (H2 H)]. rewrite <- E. apply mem_In. exact Em. }
      intros Hall. apply Hn2. intros m Hm. apply Hall. right. exact Hm.
    + destruct (deleteConnection_connections n this) as [s1 [w1 [E1 [Hl1 _]]]].
      destruct (IH s1) as [s2 [w2 [E2 [Hi2 _]]]].
      exists s2, (w1 ++ w2). split.
      { simpl. rewrite Em. cbn [negb].
        exact (bind_ok _ _ this s1 s2 tt (Ok tt) w1 w2 E1 E2). }
      split.
      { intros c Hc. destruct (Hi2 c Hc) as [H1 H2]. rewrite Hl1 in H1.
        apply filter_In in H1 as [H1 Hne]. split; [exact H1|].
        intros [E|H]; [|exact (H2 H)].
        exfalso. unfold named in Hne. rewrite <- E, String.eqb_refl in Hne.
        discriminate Hne. }
      intros Hall. exfalso.
      assert (mem n newNames = true) by (apply mem_In, Hall; left; reflexivity).
      congruence.
Qed.

(** Whether a transport can be built depends on the world only through
    the [URL] constructor. *)
Lemma buildTransport_fails_agree (W1 W2 : World) (name : string) (config : json) :
  (forall url, newURL W2 url = newURL W1 url) ->
  fails (buildTransport W1 name config) -> fails (buildTransport W2 name config).
Proof.
  intros Hurl. unfold buildTransport, buildStdioClientTransport, buildSseClientTransport.
  destruct (Json.get config "type") as [ty|e]; [|intros _; exists e; reflexivity].
  destruct (is_string "stdio" ty).
  - destruct (missing config "command"); [intros _; eexists; reflexivity|].
    intros [e He]. discriminate He.
  - destruct (missing config "url"); [intros _; eexists; reflexivity|].
    destruct (Json.get config "url") as [[url|]|e'];
      try (intros _; eexists; reflexivity).
    rewrite Hurl. destruct (newURL W1 url); [|intros _; eexists; reflexivity].
    intros [e He]. discriminate He.
Qed.

Lemma settled_agree (W1 W2 : World) (l : list McpConnection) (entry : string * json) :
  (forall url, newURL W2 url = newURL W1 url) ->
  settled W1 l entry -> settled W2 l entry.
Proof.
  intros Hurl. unfold settled. destruct (find _ l); [tauto|].
  apply buildTransport_fails_agree. exact Hurl.
Qed.

End ReconcileFacts.

Module ManagerProperties.
Import Invariant ServiceFacts ManagerFacts ReconcileFacts Examples.
Local Open Scope list_scope.

(** C4. Reconciliation is idempotent. For a configuration map with
    distinct keys, [updateServerConnections] completes, and a second run
    with the same map on the service the first run has left returns with
    the connection list unchanged (the same connections, so the same names
    and stored serialized configurations) and has made no call on any
    transport or client: no connection is closed and none is opened again.
    The providers may answer differently in the second run; only the [URL]
    constructor is the same. *)
Theorem updateServerConnections_idempotent
    (W1 W2 : World) (serverConfigs : list (string * json)) (this : McpService) :
  NoDup (map fst serverConfigs) ->
  (forall url, newURL W2 url = newURL W1 url) ->
  exists reconciled effects again,
    updateServerConnections W1 serverConfigs this = (Ok tt, reconciled, effects)
    /\ updateServerConnections W2 serverConfigs reconciled = (Ok tt, again, [])
    /\ connections again = connections reconciled.
Proof.
  intros Hnd Hurl.
  set (newNames := map fst serverConfigs).
  set (body := fun name : string =>
                 if negb (mem name newNames) then deleteConnection name else ret tt).
  set (namesOf := fun s : McpService =>
                    dedup (map (fun conn => McpServer.name (server conn)) (connections s))).
  assert (Hrun : forall W s,
             updateServerConnections W serverConfigs s
             = bind (for_each (namesOf s) body)
                 (fun _ => for_each serverConfigs (reconcileEntry W)) s).
  { intros W s. unfold updateServerConnections, bind, get_this.
    fold newNames. fold body. change (dedup _) with (namesOf s).
    destruct (for_each (namesOf s) body s) as [[[u|e] s1] w1]; [|reflexivity].
    destruct (for_each serverConfigs (reconcileEntry W) s1) as [[r s2] w2].
    reflexivity. }
  destruct (removed_servers_deleted newNames (namesOf this) this)
    as [s1 [w1 [E1 [Hi1 _]]]].
  destruct (entries_settle W1 serverConfigs Hnd s1) as [s2 [w2 [E2 [Hs2 [_ Hi2]]]]].
  exists s2, (w1 ++ w2).
  assert (Hfirst : updateServerConnections W1 serverConfigs this = (Ok tt, s2, w1 ++ w2)).
  { rewrite Hrun. exact (bind_ok _ _ this s1 s2 tt (Ok tt) w1 w2 E1 E2). }
  assert (Hnames : forall n, In n (namesOf s2) -> In n newNames).
  { intros n Hn. unfold namesOf in Hn. apply (proj1 (In_dedup _ _)) in Hn.
    apply in_map_iff in Hn as [c [<- Hc]].
    destruct (Hi2 c Hc) as [H|H]; [|exact H].
    destruct (Hi1 c H) as [Hc0 Himp]. apply Himp.
    unfold namesOf. apply (proj2 (In_dedup _ _)).
    apply (in_map (fun conn => McpServer.name (server conn))). exact Hc0. }
  destruct (removed_servers_deleted newNames (namesOf s2) s2)
    as [s3 [w3 [E3 [_ Hnoop]]]].
  destruct (Hnoop Hnames) as [-> ->].
  assert (Hs2' : Forall (settled W2 (connections s2)) serverConfigs).
  { eapply Forall_impl; [|exact Hs2]. intros entry. apply settled_agree. exact Hurl. }
  destruct (entries_settled_noop W2 serverConfigs s2 Hs2') as [s4 [E4 Hl4]].
  exists s4. split; [exact Hfirst|]. split; [|exact Hl4].
  rewrite Hrun. exact (bind_ok _ _ s2 s2 s4 tt (Ok tt) [] [] E3 E4).
Qed.

Lemma updateServerConnections_idempotent_witness :
  let configs := [("srv", sseConfig); ("local", stdioConfig); ("bad", badConfig)] in
  exists reconciled effects again,
    updateServerConnections calm configs (serviceOf [stormy])
    = (Ok tt, reconciled, effects)
    /\ updateServerConnections unreachable configs reconciled = (Ok tt, again, [])
    /\ connections again = connections reconciled.
Proof.
  refine (updateServerConnections_idempotent calm unreachable
            [("srv", sseConfig); ("local", stdioConfig); ("bad", badConfig)]
            (serviceOf [stormy]) _ _).
  - repeat constructor; simpl; intuition discriminate.
  - intros url. reflexivity.
Defined.

(** What the first run of the witness leaves: the server that is no
    longer configured is gone, the two that can be reached are connected,
    and the one without a url has no connection. *)
Example updateServerConnections_first_run :
  let configs := [("srv", sseConfig); ("local", stdioConfig); ("bad", badConfig)] in
  let '(r, reconciled, effects) :=
    updateServerConnections calm configs (serviceOf [stormy]) in
  r = Ok tt
  /\ map (fun c => (McpServer.name (server c), McpServer.status (server c)))
       (connections reconciled)
     = [("srv", connected); ("local", connected)]
  /\ effects = [ TransportClose "n8n"; ClientClose "n8n";
                 ClientConnect "srv"; ListTools "srv"; ListResources "srv";
                 ListResourceTemplates "srv";
                 ClientConnect "local"; ListTools "local"; ListResources "local";
                 ListResourceTemplates "local" ].
Proof. vm_compute. repeat split; reflexivity. Qed.

(** A connect to a provider with the tools [echo], [calculator] and
    [weather] and no resource stores the generic entries of [echo] and
    [weather], then the calculator entry, then the weather entry, and
    makes resources available. *)
Example connectToServer_stores_synthesized_resources :
  let '(r, this, effects) :=
    connectToServer workflows "n8n" sseConfig (serviceOf []) in
  r = Ok tt
  /\ map (fun c => (McpServer.status (server c),
                    option_map (map Resource.uri) (McpServer.resources (server c))))
       (connections this)
     = [ (connected,
          Some [ "mcp://n8n/synthetic/tool/echo"%string;
                 "mcp://n8n/synthetic/tool/weather"%string;
                 "mcp://n8n/synthetic/calculator"%string;
                 "mcp://n8n/synthetic/weather/{location}"%string ]) ]
  /\ checkResourceAvailability this = true
  /\ effects = [ ClientConnect "n8n"; ListTools "n8n"; ListResources "n8n";
                 ListResourceTemplates "n8n" ].
Proof. vm_compute. repeat split; reflexivity. Qed.

(** C9, as the code has it. For a server name without a connection,
    [restartConnection] returns without an error and leaves the service as
    it is. For a name with a connection that stores a configuration, when
    the [connectToServer] that follows the deletion throws,
    [restartConnection] fails with the error
    "Failed to connect to {name} MCP server". *)
Theorem restartConnection_outcomes
    (W : World) (serverName : string) (this : McpService) :
  (getServerConnection this serverName = None ->
   restartConnection W serverName this = (Ok tt, this, []))
  /\
  (forall connection parsed,
     getServerConnection this serverName = Some connection ->
     McpServer.config (server connection) <> ""%string ->
     Json.parse (McpServer.config (server connection)) = Some parsed ->
     let marked :=
       set_connections
         (update_first serverName
            (fun s => with_error (Some ""%string) (with_status connecting s))
            (connections this)) this in
     let '(_, deleted, _) := deleteConnection serverName marked in
     fails (fst (fst (connectToServer W serverName parsed deleted))) ->
     fst (fst (restartConnection W serverName this))
     = Throw ("Failed to connect to " ++ serverName ++ " MCP server")%string).
Proof.
  split.
  - intros H. unfold restartConnection, bind, get_this. rewrite H. reflexivity.
  - intros connection parsed H Hcfg Hparse. cbv zeta.
    set (marked := set_connections _ this).
    destruct (deleteConnection_connections serverName marked) as [s1 [w1 [Hd _]]].
    rewrite Hd. intros [e He].
    destruct (connectToServer W serverName parsed s1) as [[r2 s2] w2] eqn:E2.
    simpl in He. subst r2.
    unfold restartConnection. unfold bind at 1. unfold get_this. rewrite H.
    destruct (String.eqb_spec (McpServer.config (server connection)) "")
      as [E|_]; [contradiction|].
    cbn iota beta. unfold bind at 1. unfold assign, modify. fold marked.
    unfold try_catch.
    assert (Hbody :
      bind (deleteConnection serverName)
        (fun _ =>
           bind (lift match Json.parse (McpServer.config (server connection)) with
                      | Some v => Ok v
                      | None => Throw Json.syntax_error
                      end)
             (fun parsed0 => connectToServer W serverName parsed0)) marked
      = (Throw e, s2, w1 ++ [] ++ w2)).
    { apply (bind_ok _ _ marked s1 s2 tt (Throw e) w1 ([] ++ w2) Hd).
      rewrite Hparse. unfold bind, lift. rewrite E2. reflexivity. }
    rewrite Hbody. reflexivity.
Qed.

Lemma restartConnection_outcomes_witness :
  restartConnection broken "ghost" (serviceOf [echoServer])
  = (Ok tt, serviceOf [echoServer], [])
  /\ fst (fst (restartConnection broken "srv" (serviceOf [echoServer])))
     = Throw "Failed to connect to srv MCP server".
Proof.
  destruct (restartConnection_outcomes broken "ghost" (serviceOf [echoServer]))
    as [Hunknown _].
  destruct (restartConnection_outcomes broken "srv" (serviceOf [echoServer]))
    as [_ Hknown].
  split.
  - apply Hunknown. reflexivity.
  - apply (Hknown echoServer Examples.sseConfig).
    + reflexivity.
    + discriminate.
    + vm_compute. reflexivity.
    + vm_compute. exists "snapshot failed"%string. reflexivity.
Defined.

(** C9, as stated, fails: restarting a server name that has no
    connection does not fail, it does nothing. *)
Lemma restart_of_unknown_server_does_not_fail :
  getServerConnection (serviceOf [echoServer]) "ghost" = None
  /\ restartConnection calm "ghost" (serviceOf [echoServer])
     = (Ok tt, serviceOf [echoServer], [])
  /\ ~ fails (fst (fst (restartConnection calm "ghost" (serviceOf [echoServer])))).
Proof.
  split; [reflexivity|]. split; [reflexivity|].
  intros [e He]. vm_compute in He. discriminate He.
Qed.

(** A failed handshake is caught inside [connectToServer]: the restart
    returns without an error and the connection is left disconnected, with
    the message of the failure. *)
Example restart_with_failed_handshake :
  let '(r, restarted, effects) :=
    restartConnection unreachable "srv" (serviceOf [echoServer]) in
  r = Ok tt
  /\ map (fun c => (McpServer.name (server c), McpServer.status (server c),
                    McpServer.error (server c)))
       (connections restarted)
     = [("srv", disconnected, Some "connect ECONNREFUSED"%string)]
  /\ effects = [TransportClose "srv"; ClientClose "srv"; ClientConnect "srv"].
Proof. vm_compute. repeat split; reflexivity. Qed.

End ManagerProperties.

(* ================================================================== *)
(** * Further properties of the synthesizer and of the router *)
(* ================================================================== *)

Module SynthesizerMore.
Import Str Synthesizer Order SynthesizerFacts Examples.
Local Open Scope list_scope.

Lemma pushResource_NoDup (l : list Resource.t) (x : Resource.t) :
  NoDup (map Resource.uri l) -> NoDup (map Resource.uri (pushResource l x)).
Proof.
  intros H. unfold pushResource.
  destruct (existsb (hasUri (Resource.uri x)) l) eqn:E; [exact H|].
  rewrite map_app. simpl. apply NoDup_app.
  - exact H.
  - repeat constructor. intros [].
  - intros u Hu [<-|[]]. apply in_map_iff in Hu as [r [Hr Hin]].
    assert (existsb (hasUri (Resource.uri x)) l = true).
    { apply existsb_exists. exists r. split; [exact Hin|].
      unfold hasUri. rewrite Hr. apply String.eqb_refl. }
    congruence.
Qed.

Lemma pushResource_In (l : list Resource.t) (x : Resource.t) :
  In (Resource.uri x) (map Resource.uri (pushResource l x)).
Proof.
  unfold pushResource.
  destruct (existsb (hasUri (Resource.uri x)) l) eqn:E.
  - apply existsb_exists in E as [r [Hr E]]. unfold hasUri in E.
    apply String.eqb_eq in E. rewrite <- E. apply in_map. exact Hr.
  - rewrite map_app. apply in_or_app. right. left. reflexivity.
Qed.

Lemma pushResource_keeps (l : list Resource.t) (x r : Resource.t) :
  In r l -> In r (pushResource l x).
Proof.
  unfold pushResource. destruct (existsb _ l); [tauto|].
  intros H. apply in_or_app. left. exact H.
Qed.

Lemma pushTemplate_keeps (l : list ResourceTemplate.t) (x t : ResourceTemplate.t) :
  In t l -> In t (pushTemplate l x).
Proof.
  unfold pushTemplate. destruct (existsb _ l); [tauto|].
  intros H. apply in_or_app. left. exact H.
Qed.

Lemma pushTemplate_has (l : list ResourceTemplate.t) (x : ResourceTemplate.t) :
  exists t, In t (pushTemplate l x)
            /\ ResourceTemplate.uriTemplate t = ResourceTemplate.uriTemplate x.
Proof.
  unfold pushTemplate.
  destruct (existsb (hasUriTemplate (ResourceTemplate.uriTemplate x)) l) eqn:E.
  - apply existsb_exists in E as [t [Ht E]]. unfold hasUriTemplate in E.
    apply String.eqb_eq in E. exists t. split; assumption.
  - exists x. split; [apply in_or_app; right; left|]; reflexivity.
Qed.

Lemma pushResource_new (l : list Resource.t) (x r : Resource.t) :
  In r (pushResource l x) -> In r l \/ r = x.
Proof.
  unfold pushResource. destruct (existsb _ l); [tauto|].
  intros H. apply in_app_or in H as [H|[H|[]]]; [tauto | right; symmetry; exact H].
Qed.

Section Invariants.

Variable name : string.
Variable tools : list Tool.t.

(** A property of the pair of lists that both kinds of step preserve is
    kept by the whole synthesis. *)
Lemma synthesize_invariant (P : list Resource.t * list ResourceTemplate.t -> Prop) :
  (forall acc x t, P acc -> P (pushResource (fst acc) x, pushTemplate (snd acc) t)) ->
  forall isN8nServer actualResources actualResourceTemplates,
  P (actualResources, actualResourceTemplates) ->
  P (synthesize name isN8nServer tools actualResources actualResourceTemplates).
Proof.
  intros Hstep isN8nServer res tmpl H0. unfold synthesize.
  set (start := (res, tmpl)) in *.
  assert (Hfold : forall l acc, P acc -> P (fold_left (synthesizeTool name) l acc)).
  { induction l as [|t l IH]; intros acc Hacc; simpl; [exact Hacc|].
    apply IH. unfold synthesizeTool.
    destruct (Tool.name t =? "calculator")%string; [exact Hacc | apply Hstep, Hacc]. }
  assert (Hfixed : forall n t acc, P acc -> P (synthesizeFixed n t tools acc)).
  { intros n t acc Hacc. unfold synthesizeFixed.
    destruct (hasTool n tools); [apply Hstep, Hacc | exact Hacc]. }
  apply Hfixed, Hfixed.
  destruct (isN8nServer || (length res =? 0)%nat); [apply Hfold|]; exact H0.
Qed.

End Invariants.

Lemma synthesize_NoDup
    (name : string) (isN8nServer : bool) (actualTools : list Tool.t)
    (actualResources : list Resource.t)
    (actualResourceTemplates : list ResourceTemplate.t) :
  NoDup (map Resource.uri actualResources) ->
  NoDup (map Resource.uri
           (fst (synthesize name isN8nServer actualTools actualResources
                   actualResourceTemplates))).
Proof.
  intros H.
  apply (synthesize_invariant name actualTools
           (fun acc => NoDup (map Resource.uri (fst acc)))).
  - intros acc x t Hacc. simpl. apply pushResource_NoDup, Hacc.
  - exact H.
Qed.

(** X1. Synthesis keeps the uris of the resource list pairwise distinct:
    when the resources the provider reported have distinct uris, so has
    the final list, whatever the tools. *)
Theorem synthesize_keeps_uris_distinct
    (name : string) (isN8nServer : bool) (actualTools : list Tool.t)
    (actualResources : list Resource.t)
    (actualResourceTemplates : list ResourceTemplate.t) :
  NoDup (map Resource.uri actualResources) ->
  NoDup (map Resource.uri
           (fst (synthesize name isN8nServer actualTools actualResources
                   actualResourceTemplates))).
Proof.
  exact (synthesize_NoDup name isN8nServer actualTools actualResources
           actualResourceTemplates).
Qed.

Lemma synthesize_keeps_uris_distinct_witness :
  NoDup (map Resource.uri
           (fst (synthesize "srv" true
                   [tool "echo"; tool "echo"; tool "calculator"; tool "weather"]
                   [calculatorResource] []))).
Proof.
  apply (synthesize_keeps_uris_distinct "srv" true
           [tool "echo"; tool "echo"; tool "calculator"; tool "weather"]
           [calculatorResource] []).
  repeat constructor; simpl; intuition discriminate.
Defined.

(** X2. Every resource that synthesis adds comes with its template: a
    resource of the final list is one the provider reported, or the final
    template list holds a template whose [uriTemplate] is the
    [templateUri] of the resource. *)
Theorem synthesized_resources_have_templates
    (name : string) (isN8nServer : bool) (actualTools : list Tool.t)
    (actualResources : list Resource.t)
    (actualResourceTemplates : list ResourceTemplate.t) (r : Resource.t) :
  In r (fst (synthesize name isN8nServer actualTools actualResources
               actualResourceTemplates)) ->
  In r actualResources
  \/ exists t,
       In t (snd (synthesize name isN8nServer actualTools actualResources
                    actualResourceTemplates))
       /\ Resource.templateUri r = Some (ResourceTemplate.uriTemplate t).
Proof.
  revert r.
  set (P := fun acc : list Resource.t * list ResourceTemplate.t =>
              forall r, In r (fst acc) ->
                In r actualResources
                \/ exists t, In t (snd acc)
                             /\ Resource.templateUri r
                                = Some (ResourceTemplate.uriTemplate t)).
  assert (Hstep : forall acc x t,
             Resource.templateUri x = Some (ResourceTemplate.uriTemplate t) ->
             P acc -> P (pushResource (fst acc) x, pushTemplate (snd acc) t)).
  { intros acc x t Hx Hacc r Hr. simpl in *.
    apply pushResource_new in Hr as [Hr | ->].
    - destruct (Hacc r Hr) as [H | [t' [Ht' E]]]; [left; exact H|].
      right. exists t'. split; [apply pushTemplate_keeps, Ht' | exact E].
    - right. destruct (pushTemplate_has (snd acc) t) as [t' [Ht' E]].
      exists t'. split; [exact Ht'|]. rewrite Hx, E. reflexivity. }
  unfold synthesize.
  set (start := (actualResources, actualResourceTemplates)).
  assert (H0 : P start) by (intros r Hr; left; exact Hr).
  assert (Hfold : forall l acc, P acc -> P (fold_left (synthesizeTool name) l acc)).
  { induction l as [|t l IH]; intros acc Hacc; simpl; [exact Hacc|].
    apply IH. unfold synthesizeTool.
    destruct (Tool.name t =? "calculator")%string; [exact Hacc|].
    apply Hstep; [reflexivity | exact Hacc]. }
  assert (Hfixed : forall n t acc, P acc -> P (synthesizeFixed n t actualTools acc)).
  { intros n t acc Hacc. unfold synthesizeFixed.
    destruct (hasTool n actualTools); [|exact Hacc].
    apply Hstep; [reflexivity | exact Hacc]. }
  apply Hfixed, Hfixed.
  destruct (isN8nServer || (length actualResources =? 0)%nat); [apply Hfold|]; exact H0.
Qed.

Lemma synthesized_resources_have_templates_witness :
  In weatherResource [] 
  \/ exists t,
       In t (snd (synthesize "srv" false [tool "weather"] [] []))
       /\ Resource.templateUri weatherResource
          = Some (ResourceTemplate.uriTemplate t).
Proof.
  apply (synthesized_resources_have_templates "srv" false [tool "weather"] [] []
           weatherResource).
  vm_compute. right. left. reflexivity.
Defined.

(** X3. When the tool list holds a tool named [calculator] and the
    reported resources have distinct uris, the final resource list has
    exactly one entry at the fixed calculator uri, however many other
    tools there are. *)
Theorem calculator_entry_exactly_once
    (name : string) (isN8nServer : bool) (actualTools : list Tool.t)
    (actualResources : list Resource.t)
    (actualResourceTemplates : list ResourceTemplate.t) :
  hasTool "calculator" actualTools = true ->
  NoDup (map Resource.uri actualResources) ->
  count_occ string_dec
    (map Resource.uri
       (fst (synthesize name isN8nServer actualTools actualResources
               actualResourceTemplates)))
    "mcp://n8n/synthetic/calculator"%string = 1%nat.
Proof.
  intros Hc Hnd.
  pose proof (synthesize_NoDup name isN8nServer actualTools actualResources
                actualResourceTemplates Hnd) as Hdistinct.
  assert (Hin :
    In "mcp://n8n/synthetic/calculator"%string
       (map Resource.uri
          (fst (synthesize name isN8nServer actualTools actualResources
                  actualResourceTemplates)))).
  { unfold synthesize. unfold synthesizeFixed at 2. rewrite Hc.
    set (generic := if isN8nServer || (length actualResources =? 0)%nat
                    then _ else _).
    pose proof (pushResource_In (fst generic) calculatorResource) as H.
    apply in_map_iff in H as [r [Hr Hin]].
    apply in_map_iff. exists r. split; [exact Hr|].
    unfold synthesizeFixed. destruct (hasTool "weather" actualTools); [|exact Hin].
    simpl. apply pushResource_keeps. exact Hin. }
  apply NoDup_count_occ' with (decA := string_dec) in Hin; [exact Hin | exact Hdistinct].
Qed.

Lemma calculator_entry_exactly_once_witness :
  count_occ string_dec
    (map Resource.uri
       (fst (synthesize "srv" true [tool "calculator"; tool "echo"; tool "calculator"]
               [calculatorResource] [])))
    "mcp://n8n/synthetic/calculator"%string = 1%nat.
Proof.
  apply (calculator_entry_exactly_once "srv" true
           [tool "calculator"; tool "echo"; tool "calculator"] [calculatorResource] []).
  - reflexivity.
  - repeat constructor; simpl; intuition discriminate.
Defined.

End SynthesizerMore.

Module RouterMore.
Import Str Router RouterFacts Examples Fixtures.

Lemma split_slash_parts (s a b : string) :
  split_slash s = (a, b) ->
  s = a ++ b /\ split_slash a = (a, "")
  /\ (b = "" \/ exists r, b = String "/" r).
Proof.
  revert a b. induction s as [|c s IH]; simpl; intros a b H.
  - injection H as <- <-. repeat split. left. reflexivity.
  - destruct (Ascii.eqb c "/") eqn:E.
    + injection H as <- <-. apply Ascii.eqb_eq in E. subst c.
      repeat split. right. exists s. reflexivity.
    + destruct (split_slash s) as [a' b'] eqn:Es. injection H as <- <-.
      destruct (IH a' b' eq_refl) as [H1 [H2 H3]]. simpl. rewrite E, H2.
      repeat split; [f_equal; exact H1 | exact H3].
Qed.

Lemma no_slash_split (s : string) :
  includes "/" s = false <-> split_slash s = (s, "").
Proof.
  induction s as [|c s IH].
  - split; reflexivity.
  - cbn [includes startsWith split_slash].
    rewrite (Ascii.eqb_sym "/" c). destruct (Ascii.eqb c "/") eqn:E; cbn [andb orb].
    + split; intros H; discriminate H.
    + destruct (split_slash s) as [a b]. split.
      * intros H. apply IH in H. injection H as -> ->. reflexivity.
      * intros H. injection H as -> ->. apply IH. reflexivity.
Qed.

Lemma dot_plus_nonempty (s : string) : dot_plus s = true -> s <> "".
Proof. destruct s; [discriminate | discriminate]. Qed.

(** What a match of the pattern tells about the uri. *)
Lemma toolResourceMatch_parts (uri serverName toolName : string) :
  toolResourceMatch uri = Some (serverName, toolName) ->
  uri = Synthesizer.toolUri serverName toolName
  /\ serverName <> ""
  /\ includes "/" serverName = false
  /\ dot_plus toolName = true.
Proof.
  unfold toolResourceMatch. intros H.
  destruct (startsWith "mcp://" uri) eqn:Ep; [|discriminate].
  apply startsWith_app in Ep.
  destruct (split_slash (drop 6 uri)) as [srv rest] eqn:Es.
  destruct (String.eqb_spec srv "") as [|Hne]; [discriminate|].
  destruct (startsWith "/synthetic/tool/" rest) eqn:Er; [|discriminate].
  destruct (dot_plus (drop 16 rest)) eqn:Ed; [|discriminate].
  injection H as <- <-.
  apply split_slash_parts in Es as [Hs [Hsrv _]].
  apply startsWith_app in Er.
  split; [|split; [exact Hne | split; [apply no_slash_split, Hsrv | exact Ed]]].
  unfold Synthesizer.toolUri. rewrite Ep. simpl String.length.
  rewrite Hs at 1. rewrite Er at 1. reflexivity.
Qed.

(** X4. The pattern of the generic tool resources decodes exactly the
    uris that [mcp://{server}/synthetic/tool/{toolName}] builds from a
    server name that is not empty and has no [/] and a tool name that is
    not empty and has no line terminator: the match gives back the two
    names, and nothing else matches. *)
Theorem toolResourceMatch_round_trip (uri serverName toolName : string) :
  toolResourceMatch uri = Some (serverName, toolName)
  <-> uri = Synthesizer.toolUri serverName toolName
      /\ serverName <> ""
      /\ includes "/" serverName = false
      /\ dot_plus toolName = true.
Proof.
  split.
  - apply toolResourceMatch_parts.
  - intros [-> [Hne [Hs Hd]]].
    apply RouterProperties.toolResourceMatch_toolUri;
      [exact Hne | apply no_slash_split, Hs | exact Hd].
Qed.

Lemma toolResourceMatch_round_trip_witness :
  toolResourceMatch "mcp://srv/synthetic/tool/a/b" = Some ("srv", "a/b").
Proof.
  apply (proj2 (toolResourceMatch_round_trip "mcp://srv/synthetic/tool/a/b" "srv" "a/b")).
  repeat split. discriminate.
Defined.

(** X5. What the synthesizer adds the router reads. For a connection that
    is not disabled, whose server name is not empty and has no [/], and a
    tool of the connection whose name is not empty and has no line
    terminator, reading the uri of the generic resource synthesized for
    the tool returns the JSON description of that tool and makes no call
    on the client. *)
Theorem generic_resource_is_readable
    (this : McpService) (now : Z) (serverName : string) (conn : McpConnection)
    (tool : Tool.t) :
  getServerConnection this serverName = Some conn ->
  McpServer.disabled (server conn) <> Some true ->
  serverName <> "" ->
  includes "/" serverName = false ->
  find (toolNamed (Tool.name tool)) (or_nil (McpServer.tools (server conn))) = Some tool ->
  dot_plus (Tool.name tool) = true ->
  let uri := Resource.uri (Synthesizer.toolResource serverName tool) in
  readResource this now serverName uri
  = (Ok {| contents :=
             [ Content.mk uri (Some "application/json")
                 (Some (Json.stringify2 (toolInfo serverName (Tool.name tool) tool)))
                 None ] |},
     []).
Proof.
  intros H Hd Hne Hs Hf Hdot. cbv zeta.
  change (Resource.uri (Synthesizer.toolResource serverName tool))
    with (Synthesizer.toolUri serverName (Tool.name tool)).
  assert (Hm : toolResourceMatch (Synthesizer.toolUri serverName (Tool.name tool))
               = Some (serverName, Tool.name tool)).
  { apply RouterProperties.toolResourceMatch_toolUri;
      [exact Hne | apply no_slash_split, Hs | exact Hdot]. }
  rewrite (readResource_available this now _ _ conn H Hd).
  rewrite (tool_is_not_calculator _ _ Hm), (tool_is_not_weather _ _ Hm), Hm.
  rewrite String.eqb_refl. unfold readToolResource. rewrite Hf. reflexivity.
Qed.

Lemma generic_resource_is_readable_witness :
  snd (readResource (serviceOf [echoServer]) 0 "srv"
         (Resource.uri (Synthesizer.toolResource "srv" (tool "echo")))) = [].
Proof.
  rewrite (generic_resource_is_readable (serviceOf [echoServer]) 0 "srv" echoServer
             (tool "echo") eq_refl).
  - reflexivity.
  - discriminate.
  - discriminate.
  - reflexivity.
  - reflexivity.
  - reflexivity.
Defined.

(** X6. A server whose name has a [/] has no readable tool resource: the
    pattern never captures such a name, so every read on it that is not
    for the calculator or weather uris, the uris synthesized for its own
    tools included, is passed to the provider as a native read. *)
Theorem slash_in_server_name_defeats_tool_resources
    (this : McpService) (now : Z) (serverName uri : string) (conn : McpConnection) :
  getServerConnection this serverName = Some conn ->
  McpServer.disabled (server conn) <> Some true ->
  includes "/" serverName = true ->
  uri <> calculatorUri ->
  startsWith weatherPrefix uri = false ->
  readResource this now serverName uri
  = (Client.readResource (client conn) uri, [ReadResource serverName uri]).
Proof.
  intros H Hd Hs Hc Hw.
  rewrite (readResource_available this now _ _ conn H Hd).
  destruct (String.eqb_spec uri calculatorUri) as [|_]; [contradiction|].
  rewrite Hw.
  destruct (toolResourceMatch uri) as [[srv toolName]|] eqn:Em; [|reflexivity].
  destruct (String.eqb_spec srv serverName) as [->|_]; [|reflexivity].
  apply toolResourceMatch_parts in Em as [_ [_ [Hno _]]]. congruence.
Qed.

Lemma slash_in_server_name_defeats_tool_resources_witness :
  let conn := {| server := serverOf "team/a" [tool "echo"];
                 client := client echoServer; transport := quiet |} in
  readResource (serviceOf [conn]) 0 "team/a"
    (Resource.uri (Synthesizer.toolResource "team/a" (tool "echo")))
  = (Throw "Method not found",
     [ReadResource "team/a" "mcp://team/a/synthetic/tool/echo"]).
Proof.
  cbv zeta.
  rewrite (slash_in_server_name_defeats_tool_resources
             (serviceOf [{| server := serverOf "team/a" [tool "echo"];
                            client := client echoServer; transport := quiet |}])
             0 "team/a" _ _ eq_refl).
  - reflexivity.
  - discriminate.
  - reflexivity.
  - discriminate.
  - reflexivity.
Defined.

End RouterMore.

(* ================================================================== *)
(** * Properties of [callTool], [stop] and [processResourceResult] *)
(* ================================================================== *)

Module ToolCallProperties.
Import Str Examples Fixtures.
Local Open Scope list_scope.

(** X7. [callTool] reaches a provider only through a connection that
    exists and is connected: for a server name without a connection, or
    with one whose status is not [connected], it throws the corresponding
    error and has made no call on any client. *)
Theorem callTool_requires_a_connected_server
    (DEFAULT_MCP_TIMEOUT_SECONDS : Z) (this : McpService)
    (serverName toolName : string) (toolArguments : option json) :
  (getServerConnection this serverName = None \/
   exists conn, getServerConnection this serverName = Some conn
                /\ McpServer.status (server conn) <> connected) ->
  (getServerConnection this serverName = None /\
   callTool DEFAULT_MCP_TIMEOUT_SECONDS this serverName toolName toolArguments
   = (Throw ("MCP server not found: " ++ serverName)%string, []))
  \/
  (exists conn,
     getServerConnection this serverName = Some conn /\
     callTool DEFAULT_MCP_TIMEOUT_SECONDS this serverName toolName toolArguments
     = (Throw ("MCP server " ++ serverName ++ " is not connected. Status: "
               ++ status_text (McpServer.status (server conn)))%string, [])).
Proof.
  unfold callTool. intros [H | [conn [H Hs]]]; rewrite H.
  - left. split; reflexivity.
  - right. exists conn. split; [reflexivity|].
    destruct (McpServer.status (server conn)); try reflexivity.
    contradiction Hs. reflexivity.
Qed.

Lemma callTool_requires_a_connected_server_witness :
  callTool 60 (serviceOf [idle]) "idle" "echo" None
  = (Throw "MCP server idle is not connected. Status: connecting"%string, [])
  /\ callTool 60 (serviceOf [idle]) "ghost" "echo" None
     = (Throw "MCP server not found: ghost"%string, []).
Proof.
  split.
  - destruct (callTool_requires_a_connected_server 60 (serviceOf [idle]) "idle" "echo" None)
      as [[H _] | [conn [H1 H2]]].
    + right. exists idle. split; [reflexivity | discriminate].
    + discriminate H.
    + injection H1 as <-. exact H2.
  - destruct (callTool_requires_a_connected_server 60 (serviceOf [idle]) "ghost" "echo" None)
      as [[_ H] | [conn [H1 _]]].
    + left. reflexivity.
    + exact H.
    + discriminate H1.
Defined.

(** X8. What [callTool] returns is what the client answered, and it is
    an object whose [content] is an array: a result of any other shape
    makes the call fail. A returned result comes from exactly one call, on
    the client of the connected server of that name, for the named tool,
    with the given arguments, or an empty object when there are none. *)
Theorem callTool_returns_a_content_array
    (DEFAULT_MCP_TIMEOUT_SECONDS : Z) (this : McpService)
    (serverName toolName : string) (toolArguments : option json)
    (result : json) (effects : list Effect) :
  callTool DEFAULT_MCP_TIMEOUT_SECONDS this serverName toolName toolArguments
  = (Ok result, effects) ->
  exists conn fs items timeout,
    getServerConnection this serverName = Some conn
    /\ McpServer.status (server conn) = connected
    /\ result = JObj fs /\ Json.lookup "content" fs = Some (JArr items)
    /\ Client.callTool (client conn) toolName (or_empty toolArguments) timeout
       = Ok result
    /\ effects = [CallTool serverName toolName (or_empty toolArguments) timeout].
Proof.
  unfold callTool. intros H.
  destruct (getServerConnection this serverName) as [conn|]; [|discriminate].
  destruct (McpServer.status (server conn)) eqn:Es; try discriminate.
  cbn [Status_eqb negb] in H.
  set (timeout := toolTimeout DEFAULT_MCP_TIMEOUT_SECONDS _) in H.
  destruct (Client.callTool (client conn) toolName (or_empty toolArguments) timeout)
    as [answer|e] eqn:Ec; [|discriminate].
  destruct (hasContentArray answer) eqn:Eh; [|discriminate].
  injection H as <- <-.
  unfold hasContentArray in Eh.
  destruct answer as [| | | | |fs]; try discriminate.
  destruct (Json.lookup "content" fs) as [[| | | |items|]|] eqn:El; try discriminate.
  exists conn, fs, items, timeout. repeat split; try reflexivity; assumption.
Qed.

Lemma callTool_returns_a_content_array_witness :
  exists conn fs items timeout,
    getServerConnection (serviceOf [talkative]) "n8n" = Some conn
    /\ McpServer.status (server conn) = connected
    /\ JObj [("content", JArr [JObj [("type", JStr "text"); ("text", JStr "hi")]])]
       = JObj fs
    /\ Json.lookup "content" fs = Some (JArr items)
    /\ Client.callTool (client conn) "echo" (or_empty None) timeout
       = Ok (JObj [("content", JArr [JObj [("type", JStr "text"); ("text", JStr "hi")]])])
    /\ [CallTool "n8n" "echo" (JObj []) 5000]
       = [CallTool "n8n" "echo" (or_empty None) timeout].
Proof.
  apply (callTool_returns_a_content_array 60 (serviceOf [talkative]) "n8n" "echo" None).
  vm_compute. reflexivity.
Defined.

End ToolCallProperties.

Module StopProperties.
Import Invariant ServiceFacts ManagerFacts ReconcileFacts Shape Examples Fixtures.
Local Open Scope list_scope.

(** The calls of one [deleteConnection] on a connection that is found. *)
Lemma deleteConnection_found (name : string) (this : McpService) (c : McpConnection) :
  getServerConnection this name = Some c ->
  McpServer.name (server c) = name ->
  deleteConnection name this
  = (Ok tt, set_connections (without name (connections this)) this, closeCalls c).
Proof.
  intros H Hn. unfold deleteConnection, bind, get_this, try_catch, perform, ret, modify.
  rewrite H. unfold closeCalls. rewrite Hn.
  destruct (Transport.close (transport c));
    destruct (Client.close (client c)); reflexivity.
Qed.

Lemma getServerConnection_name (this : McpService) (name : string) (c : McpConnection) :
  getServerConnection this name = Some c -> McpServer.name (server c) = name.
Proof.
  unfold getServerConnection. intros H. apply find_some in H as [_ H].
  unfold named in H. apply String.eqb_eq in H. exact H.
Qed.

(** The loop of [stop] never throws, whatever the list it runs over. *)
Lemma stop_loop_returns (todo : list McpConnection) :
  forall this, exists this' w,
    for_each todo
      (fun connection =>
         try_catch (deleteConnection (McpServer.name (server connection)))
           (fun _ => ret tt)) this = (Ok tt, this', w).
Proof.
  induction todo as [|c todo IH]; intros this.
  - exists this, []. reflexivity.
  - destruct (deleteConnection_connections (McpServer.name (server c)) this)
      as [s1 [w1 [E1 _]]].
    destruct (IH s1) as [s2 [w2 E2]].
    exists s2, (w1 ++ w2). simpl. apply (bind_ok _ _ this s1 s2 tt (Ok tt) w1 w2); [|exact E2].
    unfold try_catch. rewrite E1. reflexivity.
Qed.

(** With distinct names, the loop of [stop] finds the list it still has
    to close as the connection list, and closes each connection in turn. *)
Lemma stop_loop_closes (todo : list McpConnection) :
  distinctNames todo ->
  forall this, connections this = todo ->
  exists this',
    for_each todo
      (fun connection =>
         try_catch (deleteConnection (McpServer.name (server connection)))
           (fun _ => ret tt)) this = (Ok tt, this', flat_map closeCalls todo).
Proof.
  unfold distinctNames.
  induction todo as [|c todo IH]; intros Hnd this Hl.
  - exists this. reflexivity.
  - simpl in Hnd. inversion Hnd as [|? ? Hnotin Hnd']; subst.
    assert (Habs : absent (McpServer.name (server c)) todo).
    { unfold absent. apply Forall_forall. intros c' Hc'. unfold named.
      apply String.eqb_neq. intros E. apply Hnotin. rewrite <- E.
      apply (in_map (fun c => McpServer.name (server c))). exact Hc'. }
    assert (Hfind : getServerConnection this (McpServer.name (server c)) = Some c).
    { unfold getServerConnection. rewrite Hl. simpl. unfold named at 1.
      rewrite String.eqb_refl. reflexivity. }
    pose proof (deleteConnection_found _ this c Hfind eq_refl) as E1.
    set (s1 := set_connections _ this) in E1.
    assert (Hl1 : connections s1 = todo).
    { unfold s1. simpl. rewrite Hl. unfold without. simpl. unfold named at 1.
      rewrite String.eqb_refl. simpl. apply without_absent. exact Habs. }
    destruct (IH Hnd' s1 Hl1) as [s2 E2].
    exists s2. simpl flat_map.
    apply (bind_ok _ _ this s1 s2 tt (Ok tt) (closeCalls c) (flat_map closeCalls todo));
      [|exact E2].
    unfold try_catch. rewrite E1. reflexivity.
Qed.

(** X9. [stop] never throws and leaves the service without connections,
    even when transports or clients refuse to close. When the names of
    the connections are distinct it closes each connection once, in the
    order of the list: the transport, and then the client unless closing
    the transport threw. *)
Theorem stop_closes_every_connection (this : McpService) :
  exists stopped effects,
    stop this = (Ok tt, stopped, effects)
    /\ connections stopped = []
    /\ (distinctNames (connections this) ->
        effects = flat_map closeCalls (connections this)).
Proof.
  unfold stop. unfold bind at 1. unfold get_this.
  destruct (stop_loop_returns (connections this) this) as [s1 [w1 E1]].
  exists (set_connections [] s1), w1. split.
  { cbv beta iota. unfold bind. rewrite E1. unfold modify.
    rewrite app_nil_r. reflexivity. }
  split; [reflexivity|].
  intros Hd. destruct (stop_loop_closes (connections this) Hd this eq_refl) as [s2 E2].
  rewrite E1 in E2. injection E2 as _ ->. reflexivity.
Qed.

Lemma stop_closes_every_connection_witness :
  exists stopped,
    stop (serviceOf [echoServer; stuck; stormy])
    = (Ok tt, stopped,
       [ TransportClose "srv"; ClientClose "srv"; TransportClose "stuck";
         TransportClose "n8n"; ClientClose "n8n" ])
    /\ connections stopped = [].
Proof.
  destruct (stop_closes_every_connection (serviceOf [echoServer; stuck; stormy]))
    as [stopped [effects [E [Hl He]]]].
  exists stopped. split; [|exact Hl].
  rewrite E. rewrite He; [reflexivity|].
  repeat constructor; simpl; intuition discriminate.
Defined.

End StopProperties.

Module ProcessingProperties.
Import Str Processing Examples.

Lemma append_assoc (a b c : string) : (a ++ b) ++ c = a ++ (b ++ c).
Proof. induction a as [|x a IH]; simpl; [reflexivity | rewrite IH; reflexivity]. Qed.

Lemma append_nil_r (a : string) : a ++ "" = a.
Proof. induction a as [|x a IH]; simpl; [reflexivity | rewrite IH; reflexivity]. Qed.

Lemma process_from (uri : string) (l : list Content.t) :
  forall x y : string,
  fold_left
    (fun acc content => (fst acc ++ contentOf content, snd acc ++ metaOf uri content))
    l (x, y)
  = (x ++ fst (processResourceResult {| contents := l |} uri),
     y ++ snd (processResourceResult {| contents := l |} uri)).
Proof.
  unfold processResourceResult. cbn [contents].
  induction l as [|c l IH]; intros x y; cbn [fold_left fst snd].
  - rewrite !append_nil_r. reflexivity.
  - rewrite IH. rewrite (IH ("" ++ contentOf c) ("" ++ metaOf uri c)).
    cbn [fst snd]. rewrite !append_assoc. reflexivity.
Qed.

(** X10. [processResourceResult] works item by item and keeps the order
    of the items: the content and the meta text of a response are those of
    its first items followed by those of the rest, with nothing in
    between. *)
Theorem processResourceResult_is_itemwise (first rest : list Content.t) (uri : string) :
  processResourceResult {| contents := (first ++ rest)%list |} uri
  = (fst (processResourceResult {| contents := first |} uri)
     ++ fst (processResourceResult {| contents := rest |} uri),
     snd (processResourceResult {| contents := first |} uri)
     ++ snd (processResourceResult {| contents := rest |} uri)).
Proof.
  unfold processResourceResult at 1. cbn [contents].
  rewrite fold_left_app.
  change (fold_left _ first ("", ""))
    with (processResourceResult {| contents := first |} uri).
  destruct (processResourceResult {| contents := first |} uri) as [x y].
  rewrite process_from. reflexivity.
Qed.

End ProcessingProperties.

(* ================================================================== *)
(** * What a connect does, step by step *)
(* ================================================================== *)

Module ConnectFacts.
Import Invariant ServiceFacts ManagerFacts ReconcileFacts Shape.
Local Open Scope list_scope.

Lemma assign_pushed (name : string) (f : McpServer.t -> McpServer.t)
    (base : list McpConnection) (c : McpConnection) (this : McpService) :
  connections this = base ++ [c] ->
  absent name base -> McpServer.name (server c) = name ->
  assign name f this
  = (Ok tt, set_connections (base ++ [set_server (f (server c)) c]) this, []).
Proof.
  intros Hl Hb Hn. unfold assign, modify.
  rewrite Hl, (update_first_pushed name f base c Hb Hn). reflexivity.
Qed.

Lemma ready_pushed (name : string) (base : list McpConnection) (c : McpConnection)
    (this : McpService) :
  connections this = base ++ [c] ->
  absent name base -> McpServer.name (server c) = name ->
  McpServer.status (server c) = connected ->
  ready this name = Some c.
Proof.
  intros Hl Hb Hn Hs. unfold ready, getServerConnection.
  rewrite Hl, (find_pushed name base c Hb Hn), Hs. reflexivity.
Qed.

Lemma fetchToolsList_ready (name : string) (c : McpConnection) (this : McpService) :
  ready this name = Some c ->
  fetchToolsList name this = (Ok (listed (Client.listTools (client c))), this, [ListTools name]).
Proof.
  intros H. unfold fetchToolsList, bind, get_this. rewrite H.
  unfold try_catch, bind, perform, ret, listed.
  destruct (Client.listTools (client c)); reflexivity.
Qed.

Lemma fetchResourcesList_ready (name : string) (c : McpConnection) (this : McpService) :
  ready this name = Some c ->
  fetchResourcesList name this
  = (Ok (listed (Client.listResources (client c))), this, [ListResources name]).
Proof.
  intros H. unfold fetchResourcesList, bind, get_this. rewrite H.
  unfold try_catch, bind, perform, ret, throw, listed.
  destruct (Client.listResources (client c)) as [x|e]; [reflexivity|].
  destruct (Str.includes "Method not found" e); reflexivity.
Qed.

Lemma fetchResourceTemplatesList_ready (name : string) (c : McpConnection)
    (this : McpService) :
  ready this name = Some c ->
  fetchResourceTemplatesList name this
  = (Ok (listed (Client.listResourceTemplates (client c))), this,
     [ListResourceTemplates name]).
Proof.
  intros H. unfold fetchResourceTemplatesList, bind, get_this. rewrite H.
  unfold try_catch, bind, perform, ret, throw, listed.
  destruct (Client.listResourceTemplates (client c)) as [x|e]; [reflexivity|].
  destruct (Str.includes "Method not found" e); reflexivity.
Qed.

Section World.
Variable W : World.

(** The [finally] block, in full. *)
Lemma refreshProvider_run (this : McpService) :
  refreshProvider W this
  = match buildMcpProviderData W (getServers this) with
    | Ok p =>
        (Ok tt,
         set_hasResourcefulServers (existsb resourceful (getServers this))
           (set_mcpProvider p this), [])
    | Throw e => (Throw e, this, [])
    end.
Proof.
  unfold refreshProvider, bind, get_this, lift, modify, updateResourceAvailability.
  destruct (buildMcpProviderData W (getServers this)); reflexivity.
Qed.

(** The server object a completed connect stores. *)
Lemma establish_run (name : string) (config : json) (base : list McpConnection)
    (connection : McpConnection) (opened : McpService) :
  connections opened = base ++ [connection] ->
  absent name base -> McpServer.name (server connection) = name ->
  establish name config connection opened
  = match Client.connect (client connection) with
    | Throw e => (Throw e, opened, [ClientConnect name])
    | Ok _ =>
        let live := set_server (with_status connected (server connection)) connection in
        match isN8nServer config with
        | Throw e =>
            (Throw e, set_connections (base ++ [live]) opened, [ClientConnect name])
        | Ok n8n =>
            let tools := listed (Client.listTools (client connection)) in
            let synthesized :=
              Synthesizer.synthesize name n8n tools
                (listed (Client.listResources (client connection)))
                (listed (Client.listResourceTemplates (client connection))) in
            (Ok tt,
             set_connections
               (base ++ [set_server
                           (McpServer.mk name (Json.stringify config) connected (Some ""%string)
                              (Some tools) (Some (fst synthesized))
                              (Some (snd synthesized)) None) connection])
               opened,
             ClientConnect name :: capabilityCalls name)
        end
    end.
Proof.
  intros Hl Hb Hn. unfold establish.
  unfold bind at 1. unfold perform at 1.
  destruct (Client.connect (client connection)) as [u|e]; [|reflexivity].
  cbv zeta.
  set (live := set_server (with_status connected (server connection)) connection).
  set (s1 := set_connections (base ++ [live]) opened).
  assert (E1 : assign name (with_status connected) opened = (Ok tt, s1, []))
    by exact (assign_pushed name _ base connection opened Hl Hb Hn).
  assert (Hl1 : connections s1 = base ++ [live]) by reflexivity.
  assert (Hn1 : McpServer.name (server live) = name) by exact Hn.
  assert (Hr : ready s1 name = Some live)
    by exact (ready_pushed name base live s1 Hl1 Hb Hn1 eq_refl).
  unfold bind at 1. rewrite E1.
  unfold bind at 1. unfold lift at 1.
  destruct (isN8nServer config) as [n8n|e]; [|reflexivity].
  unfold bind at 1. rewrite (fetchToolsList_ready name live s1 Hr).
  unfold bind at 1. rewrite (fetchResourcesList_ready name live s1 Hr).
  unfold bind at 1. rewrite (fetchResourceTemplatesList_ready name live s1 Hr).
  rewrite (assign_pushed name _ base live s1 Hl1 Hb Hn1).
  reflexivity.
Qed.

Lemma connectFailed_pushed (name error : string) (base : list McpConnection)
    (c : McpConnection) (this : McpService) :
  connections this = base ++ [c] ->
  absent name base -> McpServer.name (server c) = name ->
  connectFailed name error this
  = (Ok tt,
     set_connections
       (base ++ [set_server (appendErrorMessage error (with_status disconnected (server c))) c])
       this, []).
Proof.
  intros Hl Hb Hn. unfold connectFailed, bind, get_this, getServerConnection.
  rewrite Hl, (find_pushed name base c Hb Hn).
  rewrite (assign_pushed name _ base c this Hl Hb Hn). reflexivity.
Qed.

(** [connectToServer] for a configuration whose transport can be built:
    the service before the [finally] block and the calls made. *)
Lemma connect_attempt (name : string) (config : json) (tr : Transport.t)
    (this : McpService) :
  buildTransport W name config = Ok tr ->
  let base := without name (connections this) in
  let connection :=
    {| server := McpServer.mk name (Json.stringify config) connecting
                   None None None None None;
       client := openClient W name config;
       transport := tr |} in
  let start := set_connections base this in
  let opened := set_connections (base ++ [connection]) start in
  try_catch (connectBody W name config) (connectFailed name) start
  = match establish name config connection opened with
    | (Ok u, s, w) => (Ok u, s, w)
    | (Throw e, s, w) =>
        match connectFailed name e s with
        | (r, s', w') => (r, s', w ++ w')
        end
    end.
Proof.
  intros Ht. cbv zeta. unfold try_catch, connectBody.
  unfold bind at 1. unfold lift at 1. rewrite Ht.
  unfold bind at 1. unfold modify at 1. cbn [connections set_connections].
  destruct (establish name config _ _) as [[[u|e] s] w]; reflexivity.
Qed.

End World.

End ConnectFacts.

Module ConnectProperties.
Import Invariant ServiceFacts ManagerFacts ReconcileFacts Shape ConnectFacts.
Import Examples Fixtures.
Local Open Scope list_scope.

(** [connectToServer] in terms of the attempt and of the [finally] block. *)
Lemma connectToServer_unfold (W : World) (name : string) (config : json)
    (this : McpService) :
  connectToServer W name config this
  = let start := set_connections (without name (connections this)) this in
    match try_catch (connectBody W name config) (connectFailed name) start with
    | (r, s, w) =>
        match refreshProvider W s with
        | (Ok _, s', w') => (r, s', w ++ w')
        | (Throw e, s', w') => (Throw e, s', w ++ w')
        end
    end.
Proof.
  unfold connectToServer. unfold bind at 1. unfold modify at 1. unfold try_finally.
  cbv zeta.
  destruct (try_catch _ _ _) as [[r s] w].
  destruct (refreshProvider W s) as [[[u|e] s'] w']; reflexivity.
Qed.

(** X11. A failed handshake leaves a disconnected connection behind. When
    a transport can be built and the handshake of the client throws,
    [connectToServer] ends with the connections of other names as they
    were, followed by a connection for the name that stores the serialized
    configuration, has status [disconnected], the message of the failure as
    its error text and no capability list; the handshake is the only call
    made, and the method itself throws only if the snapshot builder does. *)
Theorem connectToServer_failed_handshake
    (W : World) (name : string) (config : json) (this : McpService)
    (tr : Transport.t) (e : string) :
  buildTransport W name config = Ok tr ->
  Client.connect (openClient W name config) = Throw e ->
  exists r this',
    connectToServer W name config this = (r, this', [ClientConnect name])
    /\ connections this'
       = without name (connections this)
         ++ [ {| server := McpServer.mk name (Json.stringify config) disconnected
                             (Some e) None None None None;
                 client := openClient W name config;
                 transport := tr |} ]
    /\ (fails r -> exists servers, fails (buildMcpProviderData W servers)).
Proof.
  intros Ht Hc. rewrite connectToServer_unfold. cbv zeta.
  pose proof (connect_attempt W name config tr this Ht) as Ha. cbv zeta in Ha.
  rewrite Ha. clear Ha.
  set (base := without name (connections this)).
  set (connection := {| server := _; client := _; transport := tr |}).
  set (opened := set_connections (base ++ [connection]) _).
  rewrite (establish_run name config base connection opened eq_refl
             (absent_without name _) eq_refl).
  cbn [client connection]. rewrite Hc.
  rewrite (connectFailed_pushed name e base connection opened eq_refl
             (absent_without name _) eq_refl).
  rewrite refreshProvider_run.
  destruct (buildMcpProviderData W _) as [p|e'] eqn:Eb.
  - eexists _, _. split; [reflexivity|]. split; [reflexivity|].
    intros [x Hx]. discriminate Hx.
  - eexists _, _. split; [reflexivity|]. split; [reflexivity|].
    intros _. eexists. exists e'. exact Eb.
Qed.

Lemma connectToServer_failed_handshake_witness :
  exists r this',
    connectToServer unreachable "srv" sseConfig (serviceOf [stormy])
    = (r, this', [ClientConnect "srv"])
    /\ connections this'
       = without "srv" (connections (serviceOf [stormy]))
         ++ [ {| server := McpServer.mk "srv" (Json.stringify sseConfig) disconnected
                             (Some "connect ECONNREFUSED"%string) None None None None;
                 client := openClient unreachable "srv" sseConfig;
                 transport := quiet |} ]
    /\ (fails r -> exists servers, fails (buildMcpProviderData unreachable servers)).
Proof.
  apply (connectToServer_failed_handshake unreachable "srv" sseConfig
           (serviceOf [stormy]) quiet "connect ECONNREFUSED").
  - reflexivity.
  - reflexivity.
Defined.

(** X12. A failing capability fetch does not fail the connect. When a
    transport can be built, the handshake succeeds and the test for an n8n
    url does not throw, [connectToServer] leaves a connection with status
    [connected] and an empty error text, whatever the three listing calls
    answer: a listing that throws counts as an empty list, the tools are
    those listed and the resources and templates are the synthesis from the
    three lists. The calls made are the handshake and the three listings. *)
Theorem connectToServer_connected
    (W : World) (name : string) (config : json) (this : McpService)
    (tr : Transport.t) (n8n : bool) :
  buildTransport W name config = Ok tr ->
  Client.connect (openClient W name config) = Ok tt ->
  isN8nServer config = Ok n8n ->
  let provider := openClient W name config in
  let tools := listed (Client.listTools provider) in
  let synthesized :=
    Synthesizer.synthesize name n8n tools
      (listed (Client.listResources provider))
      (listed (Client.listResourceTemplates provider)) in
  exists r this',
    connectToServer W name config this
    = (r, this',
       [ClientConnect name; ListTools name; ListResources name;
        ListResourceTemplates name])
    /\ connections this'
       = without name (connections this)
         ++ [ {| server := McpServer.mk name (Json.stringify config) connected
                             (Some ""%string) (Some tools) (Some (fst synthesized))
                             (Some (snd synthesized)) None;
                 client := provider;
                 transport := tr |} ]
    /\ (fails r -> exists servers, fails (buildMcpProviderData W servers)).
Proof.
  intros Ht Hc Hn. cbv zeta. rewrite connectToServer_unfold. cbv zeta.
  pose proof (connect_attempt W name config tr this Ht) as Ha. cbv zeta in Ha.
  rewrite Ha. clear Ha.
  set (base := without name (connections this)).
  set (connection := {| server := _; client := _; transport := tr |}).
  set (opened := set_connections (base ++ [connection]) _).
  rewrite (establish_run name config base connection opened eq_refl
             (absent_without name _) eq_refl).
  cbn [client connection]. rewrite Hc, Hn. cbv zeta.
  rewrite refreshProvider_run.
  destruct (buildMcpProviderData W _) as [p|e'] eqn:Eb.
  - eexists _, _. split; [reflexivity|]. split; [reflexivity|].
    intros [x Hx]. discriminate Hx.
  - eexists _, _. split; [reflexivity|]. split; [reflexivity|].
    intros _. eexists. exists e'. exact Eb.
Qed.

Lemma connectToServer_connected_witness :
  exists r this',
    connectToServer workflows "n8n" sseConfig (serviceOf [])
    = (r, this',
       [ClientConnect "n8n"; ListTools "n8n"; ListResources "n8n";
        ListResourceTemplates "n8n"])
    /\ connections this'
       = without "n8n" (connections (serviceOf []))
         ++ [ {| server :=
                   McpServer.mk "n8n" (Json.stringify sseConfig) connected
                     (Some ""%string)
                     (Some (listed (Client.listTools (openClient workflows "n8n" sseConfig))))
                     (Some (fst (Synthesizer.synthesize "n8n" false
                                   (listed (Client.listTools (openClient workflows "n8n" sseConfig)))
                                   (listed (Client.listResources (openClient workflows "n8n" sseConfig)))
                                   (listed (Client.listResourceTemplates (openClient workflows "n8n" sseConfig))))))
                     (Some (snd (Synthesizer.synthesize "n8n" false
                                   (listed (Client.listTools (openClient workflows "n8n" sseConfig)))
                                   (listed (Client.listResources (openClient workflows "n8n" sseConfig)))
                                   (listed (Client.listResourceTemplates (openClient workflows "n8n" sseConfig))))))
                     None;
                 client := openClient workflows "n8n" sseConfig;
                 transport := quiet |} ]
    /\ (fails r -> exists servers, fails (buildMcpProviderData workflows servers)).
Proof.
  apply (connectToServer_connected workflows "n8n" sseConfig (serviceOf []) quiet false).
  - reflexivity.
  - reflexivity.
  - reflexivity.
Defined.

(** X13. When [connectToServer] returns, the provider snapshot and the
    availability flag are fresh: the snapshot is the one the builder gives
    for the server list as it now is, and the flag tells whether a server
    of that list is connected and has a resource. *)
Theorem connectToServer_refreshes_the_snapshot
    (W : World) (name : string) (config : json) (this this' : McpService)
    (effects : list Effect) :
  connectToServer W name config this = (Ok tt, this', effects) ->
  buildMcpProviderData W (getServers this') = Ok (getProviderData this')
  /\ checkResourceAvailability this'
     = match initializationError this' with
       | Some e => if (e =? "")%string then existsb resourceful (getServers this') else false
       | None => existsb resourceful (getServers this')
       end.
Proof.
  rewrite connectToServer_unfold. cbv zeta.
  destruct (try_catch _ _ _) as [[r s] w].
  rewrite refreshProvider_run.
  destruct (buildMcpProviderData W (getServers s)) as [p|e] eqn:Eb; [|discriminate].
  intros H. injection H as _ <- _.
  split; [exact Eb | reflexivity].
Qed.

Lemma connectToServer_refreshes_the_snapshot_witness :
  checkResourceAvailability
    (snd (fst (connectToServer workflows "n8n" sseConfig (serviceOf [])))) = true.
Proof.
  destruct (connectToServer workflows "n8n" sseConfig (serviceOf []))
    as [[r this'] effects] eqn:E.
  assert (Hr : r = Ok tt) by (vm_compute in E; injection E as <- _ _; reflexivity).
  subst r. cbn [fst snd].
  destruct (connectToServer_refreshes_the_snapshot workflows "n8n" sseConfig
              (serviceOf []) this' effects E) as [_ H].
  rewrite H. vm_compute in E. injection E as <- _. reflexivity.
Defined.

End ConnectProperties.

(* ================================================================== *)
(** * The connection manager: names, reconciliation and restart *)
(* ================================================================== *)

Module ReconcileCalls.
Import Invariant ServiceFacts ManagerFacts ReconcileFacts Shape ConnectFacts.
Local Open Scope list_scope.

Lemma for_each_returns {A} (body : A -> M unit) (l : list A) :
  (forall a this, exists this' w, body a this = (Ok tt, this', w)) ->
  forall this, exists this' w, for_each l body this = (Ok tt, this', w).
Proof.
  intros Hbody. induction l as [|a l IH]; intros this.
  - exists this, []. reflexivity.
  - destruct (Hbody a this) as [s1 [w1 E1]]. destruct (IH s1) as [s2 [w2 E2]].
    exists s2, (w1 ++ w2). simpl.
    exact (bind_ok _ _ this s1 s2 tt (Ok tt) w1 w2 E1 E2).
Qed.

Lemma keeps_for_each {A} (I : McpService -> Prop) (body : A -> M unit) (l : list A) :
  (forall a, keeps I (body a)) -> keeps I (for_each l body).
Proof.
  intros Hbody. induction l as [|a l IH].
  - intros this r this' w H HI. unfold for_each, ret in H. outcome H. exact HI.
  - simpl. apply keeps_bind; [apply Hbody | intros _; exact IH].
Qed.

Lemma keeps_ret {A} (I : McpService -> Prop) (a : A) : keeps I (ret a).
Proof. intros this r this' w H HI. unfold ret in H. outcome H. exact HI. Qed.

Lemma found_name (this : McpService) (name : string) (c : McpConnection) :
  getServerConnection this name = Some c -> McpServer.name (server c) = name.
Proof.
  unfold getServerConnection. intros H. apply find_some in H as [_ H].
  unfold named in H. apply String.eqb_eq in H. exact H.
Qed.

Lemma deleteConnection_run (name : string) (this : McpService) (c : McpConnection) :
  getServerConnection this name = Some c ->
  deleteConnection name this
  = (Ok tt, set_connections (without name (connections this)) this, closeCalls c).
Proof.
  intros H. pose proof (found_name this name c H) as Hn.
  unfold deleteConnection, bind, get_this, try_catch, perform, ret, modify.
  rewrite H. unfold closeCalls. rewrite Hn.
  destruct (Transport.close (transport c));
    destruct (Client.close (client c)); reflexivity.
Qed.

(** ** Distinct names *)

Lemma absent_notin (name : string) (l : list McpConnection) :
  absent name l <-> ~ In name (map (fun c => McpServer.name (server c)) l).
Proof.
  unfold absent. rewrite Forall_forall, in_map_iff. split.
  - intros H [c [E Hc]]. specialize (H c Hc). unfold named in H.
    rewrite E, String.eqb_refl in H. discriminate H.
  - intros H c Hc. unfold named. apply String.eqb_neq. intros E.
    apply H. exists c. split; assumption.
Qed.

Lemma distinct_without (name : string) (l : list McpConnection) :
  distinctNames l -> distinctNames (without name l).
Proof.
  unfold distinctNames, without. induction l as [|c l IH]; simpl; intros H.
  - constructor.
  - inversion H as [|? ? Hn Hd]; subst.
    destruct (negb (named name c)); [|exact (IH Hd)].
    simpl. constructor; [|exact (IH Hd)].
    intros Hin. apply Hn. apply in_map_iff in Hin as [c' [E Hc']].
    apply filter_In in Hc' as [Hc' _]. apply in_map_iff. exists c'. split; assumption.
Qed.

Lemma distinct_pushed (name : string) (base : list McpConnection) (c : McpConnection) :
  distinctNames base -> absent name base -> McpServer.name (server c) = name ->
  distinctNames (base ++ [c]).
Proof.
  unfold distinctNames. intros Hd Ha Hc. rewrite map_app. simpl.
  apply absent_notin in Ha. induction base as [|b base IH]; simpl in *.
  - constructor; [intros []|constructor].
  - inversion Hd as [|? ? Hn Hd']; subst. constructor.
    + rewrite in_app_iff. intros [H|[H|[]]]; [exact (Hn H)|].
      apply Ha. left. symmetry. exact H.
    + apply IH; [exact Hd'|]. intros H. apply Ha. right. exact H.
Qed.

Lemma names_update_first (name : string) (f : McpServer.t -> McpServer.t)
    (l : list McpConnection) :
  (forall s, McpServer.name (f s) = McpServer.name s) ->
  map (fun c => McpServer.name (server c)) (update_first name f l)
  = map (fun c => McpServer.name (server c)) l.
Proof.
  intros Hf. induction l as [|c l IH]; simpl; [reflexivity|].
  destruct (named name c); simpl; [rewrite Hf | rewrite IH]; reflexivity.
Qed.

Section World.
Variable W : World.

Let distinct (this : McpService) : Prop := distinctNames (connections this).

Lemma keeps_distinct_connectToServer (name : string) (config : json) :
  keeps distinct (connectToServer W name config).
Proof.
  intros this r this' w H Hd. unfold distinct in *.
  pose proof (connectToServer_connections W name config this r this' w H) as Hc.
  destruct (buildTransport W name config).
  - destruct Hc as [c [Hl [Hn _]]]. rewrite Hl.
    apply (distinct_pushed name); [apply distinct_without; exact Hd | | exact Hn].
    apply absent_without.
  - destruct Hc as [Hl _]. rewrite Hl. apply distinct_without. exact Hd.
Qed.

Lemma keeps_distinct_deleteConnection (name : string) :
  keeps distinct (deleteConnection name).
Proof.
  intros this r this' w H Hd. unfold distinct in *.
  destruct (deleteConnection_connections name this) as [s [w' [E [Hl _]]]].
  rewrite E in H. injection H as _ <- _. rewrite Hl. apply distinct_without. exact Hd.
Qed.

Lemma keeps_distinct_reconcileEntry (entry : string * json) :
  keeps distinct (reconcileEntry W entry).
Proof.
  destruct entry as [name config]. unfold reconcileEntry.
  apply keeps_bind; [apply reads_keeps, reads_get_this|]. intros this0.
  destruct (getServerConnection this0 name) as [cur|].
  - destruct (negb _).
    + apply keeps_try_catch; [|intros e; apply keeps_ret].
      apply keeps_bind; [apply keeps_distinct_deleteConnection|].
      intros _. apply keeps_distinct_connectToServer.
    + apply keeps_ret.
  - apply keeps_try_catch; [apply keeps_distinct_connectToServer|].
    intros e. apply keeps_ret.
Qed.

Lemma keeps_distinct_updateServerConnections (serverConfigs : list (string * json)) :
  keeps distinct (updateServerConnections W serverConfigs).
Proof.
  unfold updateServerConnections.
  apply keeps_bind; [apply reads_keeps, reads_get_this|]. intros this0.
  apply keeps_bind.
  - apply keeps_for_each. intros name. destruct (negb _).
    + apply keeps_distinct_deleteConnection.
    + apply keeps_ret.
  - intros _. apply keeps_for_each. apply keeps_distinct_reconcileEntry.
Qed.

Lemma keeps_distinct_restartConnection (serverName : string) :
  keeps distinct (restartConnection W serverName).
Proof.
  unfold restartConnection.
  apply keeps_bind; [apply reads_keeps, reads_get_this|]. intros this0.
  destruct (getServerConnection this0 serverName) as [cur|]; [|apply keeps_ret].
  destruct (_ =? _)%string; [apply keeps_ret|].
  apply keeps_bind.
  - unfold assign. apply keeps_modify. intros this Hd. unfold distinct, distinctNames in *.
    simpl. rewrite names_update_first; [exact Hd | reflexivity].
  - intros _. apply keeps_try_catch.
    + apply keeps_bind; [apply keeps_distinct_deleteConnection|]. intros _.
      apply keeps_bind; [apply reads_keeps, reads_lift|]. intros parsed.
      apply keeps_distinct_connectToServer.
    + intros e. intros this r this' w H Hd. unfold throw in H. outcome H. exact Hd.
Qed.

(** ** The calls of [connectToServer] *)

Lemma connectToServer_calls (name : string) (config : json) (this : McpService) :
  calls (connectToServer W name config) this = openingCalls W name config.
Proof.
  unfold calls, openingCalls.
  destruct (buildTransport W name config) as [tr|e] eqn:Ht.
  - rewrite ConnectProperties.connectToServer_unfold. cbv zeta.
    pose proof (connect_attempt W name config tr this Ht) as Ha. cbv zeta in Ha.
    rewrite Ha. clear Ha.
    set (base := without name (connections this)).
    set (connection := {| server := _; client := _; transport := tr |}).
    set (opened := set_connections (base ++ [connection]) _).
    rewrite (establish_run name config base connection opened eq_refl
               (absent_without name _) eq_refl).
    cbn [client connection].
    destruct (Client.connect (openClient W name config)) as [u|e].
    + destruct (isN8nServer config) as [n8n|e]; cbv zeta.
      * rewrite refreshProvider_run.
        destruct (buildMcpProviderData W _); reflexivity.
      * set (live := set_server _ connection).
        rewrite (connectFailed_pushed name e base live
                   (set_connections (base ++ [live]) opened) eq_refl
                   (absent_without name _) eq_refl).
        rewrite refreshProvider_run.
        destruct (buildMcpProviderData W _); reflexivity.
    + rewrite (connectFailed_pushed name e base connection opened eq_refl
                 (absent_without name _) eq_refl).
      rewrite refreshProvider_run.
      destruct (buildMcpProviderData W _); reflexivity.
  - destruct (connectToServer W name config this) as [[r s] w] eqn:E.
    pose proof (connectToServer_connections W name config this r s w E) as Hc.
    rewrite Ht in Hc. destruct Hc as [_ ->]. reflexivity.
Qed.

(** [connectToServer] throws only what the snapshot builder of its
    [finally] block throws. *)
Lemma connectToServer_throws (name : string) (config : json) (this this' : McpService)
    (e : string) (w : list Effect) :
  connectToServer W name config this = (Throw e, this', w) ->
  exists servers, buildMcpProviderData W servers = Throw e.
Proof.
  rewrite ConnectProperties.connectToServer_unfold. cbv zeta.
  set (start := set_connections _ this).
  assert (Hok : exists s1 w1,
            try_catch (connectBody W name config) (connectFailed name) start
            = (Ok tt, s1, w1)).
  { unfold try_catch.
    destruct (connectBody W name config start) as [[[[]|e1] s0] w0];
      [eexists _, _; reflexivity|].
    unfold connectFailed, bind, get_this, assign, modify, ret.
    destruct (getServerConnection s0 name); eexists _, _; reflexivity. }
  destruct Hok as [s1 [w1 E1]]. rewrite E1, refreshProvider_run.
  destruct (buildMcpProviderData W (getServers s1)) as [p|e1] eqn:Eb;
    intros H; [discriminate H|].
  injection H as <- _ _. exists (getServers s1). exact Eb.
Qed.

End World.

End ReconcileCalls.

Module ReconcileProperties.
Import Invariant ServiceFacts ManagerFacts ReconcileFacts Shape ConnectFacts.
Import ReconcileCalls Examples Fixtures.
Local Open Scope list_scope.

Local Abbreviation nameOf := (fun c : McpConnection => McpServer.name (server c)).

(** X14. The names of the connections stay distinct. From a service whose
    connections have pairwise distinct names, [connectToServer],
    [deleteConnection], [updateServerConnections] and [restartConnection]
    each leave a service whose connections have pairwise distinct names,
    whether they return or throw: [connections.find] by name never has a
    second candidate. *)
Theorem connection_names_stay_distinct (W : World) (this : McpService) :
  distinctNames (connections this) ->
  (forall name config,
     distinctNames (connections (after (connectToServer W name config) this)))
  /\ (forall name, distinctNames (connections (after (deleteConnection name) this)))
  /\ (forall serverConfigs,
        distinctNames (connections (after (updateServerConnections W serverConfigs) this)))
  /\ (forall serverName,
        distinctNames (connections (after (restartConnection W serverName) this))).
Proof.
  intros Hd. unfold after. repeat split.
  - intros name config.
    destruct (connectToServer W name config this) as [[r s] w] eqn:E.
    exact (keeps_distinct_connectToServer W name config this r s w E Hd).
  - intros name.
    destruct (deleteConnection name this) as [[r s] w] eqn:E.
    exact (keeps_distinct_deleteConnection name this r s w E Hd).
  - intros serverConfigs.
    destruct (updateServerConnections W serverConfigs this) as [[r s] w] eqn:E.
    exact (keeps_distinct_updateServerConnections W serverConfigs this r s w E Hd).
  - intros serverName.
    destruct (restartConnection W serverName this) as [[r s] w] eqn:E.
    exact (keeps_distinct_restartConnection W serverName this r s w E Hd).
Qed.

Lemma connection_names_stay_distinct_witness :
  distinctNames
    (connections
       (after (updateServerConnections calm
                 [("srv", sseConfig); ("n8n", stdioConfig); ("bad", badConfig)])
          (serviceOf [echoServer; stuck; stormy]))).
Proof.
  refine (proj1 (proj2 (proj2
            (connection_names_stay_distinct calm (serviceOf [echoServer; stuck; stormy]) _)))
            _).
  repeat constructor; simpl; intuition discriminate.
Defined.

Lemma updateServerConnections_unfold (W : World) (serverConfigs : list (string * json))
    (this : McpService) :
  updateServerConnections W serverConfigs this
  = bind (for_each (dedup (map nameOf (connections this)))
            (fun name => if negb (mem name (map fst serverConfigs))
                         then deleteConnection name else ret tt))
      (fun _ => for_each serverConfigs (reconcileEntry W)) this.
Proof.
  unfold updateServerConnections, bind, get_this.
  destruct (for_each (dedup _) _ this) as [[[u|e] s1] w1]; [|reflexivity].
  destruct (for_each serverConfigs (reconcileEntry W) s1) as [[r s2] w2].
  reflexivity.
Qed.

(** X15. What a reconciliation leaves. For a configuration map with
    distinct keys, [updateServerConnections] returns without an error,
    whatever the providers answer; afterwards every connection has a name
    that is a key of the map, and for every entry of the map the connection
    of its name stores the serialized configuration of the entry, or there
    is no connection of that name and no transport can be built from the
    entry. *)
Theorem updateServerConnections_reconciles
    (W : World) (serverConfigs : list (string * json)) (this : McpService) :
  NoDup (map fst serverConfigs) ->
  exists reconciled effects,
    updateServerConnections W serverConfigs this = (Ok tt, reconciled, effects)
    /\ (forall c, In c (connections reconciled) ->
          In (McpServer.name (server c)) (map fst serverConfigs))
    /\ (forall name config, In (name, config) serverConfigs ->
          match getServerConnection reconciled name with
          | Some c => McpServer.config (server c) = Json.stringify config
          | None => fails (buildTransport W name config)
          end).
Proof.
  intros Hnd.
  destruct (removed_servers_deleted (map fst serverConfigs)
              (dedup (map nameOf (connections this))) this)
    as [s1 [w1 [E1 [Hi1 _]]]].
  destruct (entries_settle W serverConfigs Hnd s1) as [s2 [w2 [E2 [Hs2 [_ Hi2]]]]].
  exists s2, (w1 ++ w2). split.
  { rewrite updateServerConnections_unfold.
    exact (bind_ok _ _ this s1 s2 tt (Ok tt) w1 w2 E1 E2). }
  split.
  - intros c Hc. destruct (Hi2 c Hc) as [H|H]; [|exact H].
    destruct (Hi1 c H) as [Hc0 Himp]. apply Himp.
    apply (proj2 (In_dedup _ _)). apply (in_map nameOf). exact Hc0.
  - intros name config Hin.
    rewrite Forall_forall in Hs2. exact (Hs2 (name, config) Hin).
Qed.

Lemma updateServerConnections_reconciles_witness :
  exists reconciled effects,
    updateServerConnections calm
      [("srv", sseConfig); ("local", stdioConfig); ("bad", badConfig)]
      (serviceOf [stormy]) = (Ok tt, reconciled, effects)
    /\ (forall c, In c (connections reconciled) ->
          In (McpServer.name (server c)) ["srv"; "local"; "bad"]%string)
    /\ (forall name config,
          In (name, config) [("srv", sseConfig); ("local", stdioConfig); ("bad", badConfig)] ->
          match getServerConnection reconciled name with
          | Some c => McpServer.config (server c) = Json.stringify config
          | None => fails (buildTransport calm name config)
          end).
Proof.
  refine (updateServerConnections_reconciles calm
            [("srv", sseConfig); ("local", stdioConfig); ("bad", badConfig)]
            (serviceOf [stormy]) _).
  repeat constructor; simpl; intuition discriminate.
Defined.

(** ** The calls of a reconciliation *)

Lemma filter_id {A} (f : A -> bool) (l : list A) :
  (forall y, In y l -> f y = true) -> filter f l = l.
Proof.
  induction l as [|x l IH]; simpl; intros H; [reflexivity|].
  rewrite (H x (or_introl eq_refl)), IH; [reflexivity|].
  intros y Hy. apply H. right. exact Hy.
Qed.

Lemma dedup_NoDup (l : list string) : NoDup l -> dedup l = l.
Proof.
  induction 1 as [|x l Hx _ IH]; simpl; [reflexivity|].
  rewrite IH, filter_id; [reflexivity|].
  intros y Hy. apply negb_true_iff, String.eqb_neq. intros E. subst y. exact (Hx Hy).
Qed.

Lemma find_app_absent (name : string) (kept l : list McpConnection) :
  absent name kept -> find (named name) (kept ++ l) = find (named name) l.
Proof.
  unfold absent. induction 1 as [|c kept Hc _ IH]; simpl; [reflexivity|].
  rewrite Hc. exact IH.
Qed.

Lemma distinct_middle (kept todo : list McpConnection) (c : McpConnection) :
  distinctNames (kept ++ c :: todo) ->
  absent (nameOf c) kept /\ absent (nameOf c) todo /\ distinctNames (kept ++ todo).
Proof.
  unfold distinctNames. rewrite !map_app. simpl. intros H.
  apply NoDup_remove in H as [Hd Hn]. rewrite in_app_iff in Hn.
  split; [|split; [|exact Hd]]; apply absent_notin; tauto.
Qed.

Lemma without_middle (kept todo : list McpConnection) (c : McpConnection) :
  absent (nameOf c) kept -> absent (nameOf c) todo ->
  without (nameOf c) (kept ++ c :: todo) = kept ++ todo.
Proof.
  intros Hk Ht.
  pose proof (without_absent _ _ Hk) as Ek.
  pose proof (without_absent _ _ Ht) as Et.
  unfold without in *. rewrite filter_app. simpl.
  unfold named at 2. rewrite String.eqb_refl. simpl.
  rewrite Ek, Et. reflexivity.
Qed.

(** The first loop of [updateServerConnections] on connections with
    distinct names: it closes, in order, the connections whose name is no
    key of the new map, and keeps the others. *)
Lemma removal_calls (newNames : list string) (todo : list McpConnection) :
  forall kept this,
  connections this = kept ++ todo ->
  distinctNames (kept ++ todo) ->
  exists this',
    for_each (map nameOf todo)
      (fun name => if negb (mem name newNames) then deleteConnection name else ret tt)
      this
    = (Ok tt, this', flat_map closeCalls (removed newNames todo))
    /\ connections this' = kept ++ filter (fun c => mem (nameOf c) newNames) todo.
Proof.
  induction todo as [|c todo IH]; intros kept this Hl Hd.
  - exists this. split; [reflexivity | exact Hl].
  - destruct (mem (nameOf c) newNames) eqn:Em.
    + assert (Hl' : connections this = (kept ++ [c]) ++ todo).
      { rewrite <- app_assoc. exact Hl. }
      assert (Hd' : distinctNames ((kept ++ [c]) ++ todo)).
      { rewrite <- app_assoc. exact Hd. }
      destruct (IH (kept ++ [c]) this Hl' Hd') as [s2 [E2 Hl2]].
      exists s2. split.
      * unfold removed. simpl. rewrite Em. cbn [negb].
        exact (bind_ok _ _ this this s2 tt (Ok tt) [] _ eq_refl E2).
      * simpl. rewrite Em. rewrite Hl2, <- app_assoc. reflexivity.
    + destruct (distinct_middle kept todo c Hd) as [Hk [Ht Hd']].
      assert (Hfind : getServerConnection this (nameOf c) = Some c).
      { unfold getServerConnection. rewrite Hl, (find_app_absent _ kept _ Hk).
        simpl. unfold named at 1. rewrite String.eqb_refl. reflexivity. }
      pose proof (deleteConnection_run (nameOf c) this c Hfind) as E1.
      set (s1 := set_connections _ this) in E1.
      assert (Hl1 : connections s1 = kept ++ todo).
      { unfold s1. simpl. rewrite Hl. apply without_middle; assumption. }
      destruct (IH kept s1 Hl1 Hd') as [s2 [E2 Hl2]].
      exists s2. split.
      * unfold removed. simpl. rewrite Em. cbn [negb].
        rewrite flat_map_app || idtac.
        exact (bind_ok _ _ this s1 s2 tt (Ok tt) (closeCalls c) _ E1 E2).
      * simpl. rewrite Em. exact Hl2.
Qed.

Lemma find_kept (newNames : list string) (name : string) (l : list McpConnection) :
  mem name newNames = true ->
  find (named name) (filter (fun c => mem (nameOf c) newNames) l)
  = find (named name) l.
Proof.
  intros Hm. induction l as [|c l IH]; simpl; [reflexivity|].
  destruct (mem (nameOf c) newNames) eqn:Ec; simpl.
  - rewrite IH. reflexivity.
  - assert (Hn : named name c = false).
    { unfold named. apply String.eqb_neq. intros E. simpl in Ec. congruence. }
    rewrite Hn. exact IH.
Qed.

Section World.
Variable W : World.

(** One turn of the second loop, with its calls. *)
Lemma reconcileEntry_calls (name : string) (config : json) (this : McpService) :
  exists this',
    reconcileEntry W (name, config) this
    = (Ok tt, this', entryCalls W (connections this) (name, config))
    /\ (forall other, other <> name ->
          find (named other) (connections this')
          = find (named other) (connections this)).
Proof.
  destruct (reconcileEntry_settles W name config this) as [s [w [E [_ [Hother _]]]]].
  exists s. split; [|exact Hother].
  rewrite E. f_equal.
  assert (Hw : w = calls (reconcileEntry W (name, config)) this).
  { unfold calls. rewrite E. reflexivity. }
  rewrite Hw. clear E Hw Hother.
  unfold calls, entryCalls, reconcileEntry, bind, get_this. cbn [fst snd].
  unfold getServerConnection.
  destruct (find (named name) (connections this)) as [cur|] eqn:Ef.
  - destruct (Json.stringify config =? McpServer.config (server cur))%string;
      cbn [negb]; [reflexivity|].
    unfold try_catch, bind.
    rewrite (deleteConnection_run name this cur Ef).
    set (s1 := set_connections _ this).
    pose proof (connectToServer_calls W name config s1) as Hc. unfold calls in Hc.
    destruct (connectToServer W name config s1) as [[[u|e] s2] w2];
      simpl in Hc; subst w2; simpl; rewrite ?app_nil_r; reflexivity.
  - unfold try_catch.
    pose proof (connectToServer_calls W name config this) as Hc. unfold calls in Hc.
    destruct (connectToServer W name config this) as [[[u|e] s2] w2];
      simpl in Hc; subst w2; simpl; rewrite ?app_nil_r; reflexivity.
Qed.

Lemma entryCalls_agree (l l0 : list McpConnection) (entry : string * json) :
  find (named (fst entry)) l = find (named (fst entry)) l0 ->
  entryCalls W l entry = entryCalls W l0 entry.
Proof. unfold entryCalls. intros ->. reflexivity. Qed.

(** The second loop, with its calls: with distinct keys each turn finds
    the connection of its entry as it was when the loop began. *)
Lemma entries_calls (entries : list (string * json)) :
  NoDup (map fst entries) ->
  forall (l0 : list McpConnection) (this : McpService),
  (forall n, In n (map fst entries) ->
     find (named n) (connections this) = find (named n) l0) ->
  exists this',
    for_each entries (reconcileEntry W) this
    = (Ok tt, this', flat_map (entryCalls W l0) entries).
Proof.
  induction entries as [|[name config] entries IH]; intros Hnd l0 this Hsame.
  - exists this. reflexivity.
  - simpl in Hnd. inversion Hnd as [|? ? Hnotin Hnd']; subst.
    destruct (reconcileEntry_calls name config this) as [s1 [E1 Hother]].
    assert (Hsame1 : forall n, In n (map fst entries) ->
                       find (named n) (connections s1) = find (named n) l0).
    { intros n Hn. rewrite Hother.
      - apply Hsame. right. exact Hn.
      - intros ->. exact (Hnotin Hn). }
    destruct (IH Hnd' l0 s1 Hsame1) as [s2 E2].
    exists s2. simpl.
    rewrite <- (entryCalls_agree (connections this) l0 (name, config)).
    + exact (bind_ok _ _ this s1 s2 tt (Ok tt) _ _ E1 E2).
    + apply Hsame. left. reflexivity.
Qed.

End World.

(** X16. The calls of a reconciliation. For a configuration map with
    distinct keys and connections with distinct names,
    [updateServerConnections] first closes, in the order of the connection
    list, the connections whose name is no key of the map; then, entry by
    entry, it makes no call for an entry whose connection stores the
    serialized configuration of the entry, opens a connection for an entry
    without one, and for an entry whose connection stores something else
    closes that connection once and then opens the new one. Opening is no
    call when no transport can be built, else the handshake, followed by the
    three listings when the handshake succeeds and the test for an n8n url
    does not throw. *)
Theorem updateServerConnections_calls
    (W : World) (serverConfigs : list (string * json)) (this : McpService) :
  NoDup (map fst serverConfigs) ->
  distinctNames (connections this) ->
  calls (updateServerConnections W serverConfigs) this
  = flat_map closeCalls (removed (map fst serverConfigs) (connections this))
    ++ flat_map (entryCalls W (connections this)) serverConfigs.
Proof.
  intros Hnd Hd. unfold calls.
  rewrite updateServerConnections_unfold.
  rewrite (dedup_NoDup _ Hd).
  destruct (removal_calls (map fst serverConfigs) (connections this) [] this
              eq_refl Hd) as [s1 [E1 Hl1]].
  simpl in Hl1.
  assert (Hsame : forall n, In n (map fst serverConfigs) ->
            find (named n) (connections s1) = find (named n) (connections this)).
  { intros n Hn. rewrite Hl1. apply find_kept. apply mem_In. exact Hn. }
  destruct (entries_calls W serverConfigs Hnd (connections this) s1 Hsame) as [s2 E2].
  rewrite (bind_ok _ _ this s1 s2 tt (Ok tt) _ _ E1 E2). reflexivity.
Qed.

Lemma updateServerConnections_calls_witness :
  calls (updateServerConnections calm
           [("srv", sseConfig); ("n8n", stdioConfig); ("bad", badConfig)])
    (serviceOf [echoServer; stuck; stormy])
  = [ TransportClose "stuck";
      TransportClose "n8n"; ClientClose "n8n";
      ClientConnect "n8n"; ListTools "n8n"; ListResources "n8n";
      ListResourceTemplates "n8n" ].
Proof.
  rewrite (updateServerConnections_calls calm
             [("srv", sseConfig); ("n8n", stdioConfig); ("bad", badConfig)]
             (serviceOf [echoServer; stuck; stormy])).
  - vm_compute. reflexivity.
  - repeat constructor; simpl; intuition discriminate.
  - repeat constructor; simpl; intuition discriminate.
Defined.

End ReconcileProperties.

Module RestartProperties.
Import Invariant ServiceFacts ManagerFacts ReconcileFacts Shape ConnectFacts.
Import ReconcileCalls Examples Fixtures.
Local Open Scope list_scope.

Lemma find_update_first (name : string) (f : McpServer.t -> McpServer.t)
    (l : list McpConnection) (c : McpConnection) :
  (forall s, McpServer.name (f s) = McpServer.name s) ->
  find (named name) l = Some c ->
  find (named name) (update_first name f l) = Some (set_server (f (server c)) c).
Proof.
  intros Hf. induction l as [|x l IH]; simpl; [discriminate|].
  destruct (named name x) eqn:E.
  - intros H. injection H as <-. simpl. unfold named in *. simpl.
    rewrite Hf, E. reflexivity.
  - intros H. simpl. rewrite E. exact (IH H).
Qed.

Lemma without_update_first (name : string) (f : McpServer.t -> McpServer.t)
    (l : list McpConnection) :
  (forall s, McpServer.name (f s) = McpServer.name s) ->
  without name (update_first name f l) = without name l.
Proof.
  intros Hf. unfold without. induction l as [|x l IH]; simpl; [reflexivity|].
  destruct (named name x) eqn:E; simpl.
  - unfold named in *. simpl. rewrite Hf, E. reflexivity.
  - rewrite E, IH. reflexivity.
Qed.

(** [restartConnection] on a connection whose stored configuration
    parses: the deletion, and then the connect on what the deletion left. *)
Lemma restartConnection_run
    (W : World) (serverName : string) (this : McpService)
    (current : McpConnection) (parsed : json) :
  getServerConnection this serverName = Some current ->
  McpServer.config (server current) <> ""%string ->
  Json.parse (McpServer.config (server current)) = Some parsed ->
  exists deleted,
    connections deleted = without serverName (connections this)
    /\ restartConnection W serverName this
       = let '(r, restarted, opening) := connectToServer W serverName parsed deleted in
         (match r with
          | Ok _ => Ok tt
          | Throw _ => Throw ("Failed to connect to " ++ serverName ++ " MCP server")%string
          end, restarted, closeCalls current ++ opening).
Proof.
  intros Hfind Hcfg Hparse.
  set (f := fun s => with_error (Some ""%string) (with_status connecting s)).
  set (marked := set_connections (update_first serverName f (connections this)) this).
  assert (Hf : forall s, McpServer.name (f s) = McpServer.name s) by reflexivity.
  assert (Hm : getServerConnection marked serverName
               = Some (set_server (f (server current)) current)).
  { unfold getServerConnection, marked. simpl.
    apply find_update_first; [exact Hf | exact Hfind]. }
  pose proof (deleteConnection_run serverName marked _ Hm) as Ed.
  assert (Hclose : closeCalls (set_server (f (server current)) current)
                   = closeCalls current) by reflexivity.
  rewrite Hclose in Ed. clear Hclose.
  set (s1 := set_connections _ marked) in Ed.
  exists s1. split.
  { unfold s1, marked. simpl. apply without_update_first. exact Hf. }
  unfold restartConnection. unfold bind at 1. unfold get_this. rewrite Hfind.
  destruct (String.eqb_spec (McpServer.config (server current)) "")
    as [E|_]; [contradiction|].
  cbn iota beta. unfold bind at 1. unfold assign, modify. fold f. fold marked.
  unfold try_catch. unfold bind at 1. rewrite Ed.
  unfold bind, lift. rewrite Hparse. unfold throw.
  destruct (connectToServer W serverName parsed s1) as [[[[]|e] s2] w2];
    simpl; rewrite ?app_nil_r; reflexivity.
Qed.

(** X17. A restart closes the connection once and opens a new one from
    the stored configuration. For a server name whose connection stores a
    configuration text that parses, [restartConnection] makes the calls of
    one [deleteConnection] on that connection followed by those of
    [connectToServer] with the parsed configuration, and nothing else; the
    connections of other names are as they were and come first, and the
    connection of the name is the newly opened one, or none when no
    transport can be built. The status and error text assigned before the
    deletion are not seen again. The method returns, or throws the
    reconnect error. *)
Theorem restartConnection_reconnects
    (W : World) (serverName : string) (this : McpService)
    (current : McpConnection) (parsed : json) :
  getServerConnection this serverName = Some current ->
  McpServer.config (server current) <> ""%string ->
  Json.parse (McpServer.config (server current)) = Some parsed ->
  exists r restarted,
    restartConnection W serverName this
    = (r, restarted, closeCalls current ++ openingCalls W serverName parsed)
    /\ match buildTransport W serverName parsed with
       | Ok _ => pushed serverName (Json.stringify parsed)
                   (without serverName (connections this)) restarted
       | Throw _ => connections restarted = without serverName (connections this)
       end
    /\ (r = Ok tt
        \/ r = Throw ("Failed to connect to " ++ serverName ++ " MCP server")%string).
Proof.
  intros Hfind Hcfg Hparse.
  destruct (restartConnection_run W serverName this current parsed Hfind Hcfg Hparse)
    as [deleted [Hl Hrun]].
  pose proof (connectToServer_calls W serverName parsed deleted) as Hcalls.
  unfold calls in Hcalls.
  destruct (connectToServer W serverName parsed deleted) as [[r2 s2] w2] eqn:E2.
  simpl in Hcalls. subst w2.
  pose proof (connectToServer_connections W serverName parsed deleted r2 s2 _ E2) as Hc.
  rewrite Hl, without_without in Hc.
  eexists _, s2. split; [exact Hrun|]. split.
  - destruct (buildTransport W serverName parsed); [exact Hc | exact (proj1 Hc)].
  - destruct r2 as [[]|e]; [left | right]; reflexivity.
Qed.

Lemma restartConnection_reconnects_witness :
  exists r restarted,
    restartConnection unreachable "srv" (serviceOf [echoServer; stormy])
    = (r, restarted,
       closeCalls echoServer ++ openingCalls unreachable "srv" sseConfig)
    /\ match buildTransport unreachable "srv" sseConfig with
       | Ok _ => pushed "srv" (Json.stringify sseConfig)
                   (without "srv" (connections (serviceOf [echoServer; stormy])))
                   restarted
       | Throw _ =>
           connections restarted
           = without "srv" (connections (serviceOf [echoServer; stormy]))
       end
    /\ (r = Ok tt
        \/ r = Throw ("Failed to connect to " ++ "srv" ++ " MCP server")%string).
Proof.
  apply (restartConnection_reconnects unreachable "srv"
           (serviceOf [echoServer; stormy]) echoServer sseConfig).
  - reflexivity.
  - discriminate.
  - vm_compute. reflexivity.
Defined.

End RestartProperties.

(* ================================================================== *)
(** * Initialization *)
(* ================================================================== *)

Module InitializeProperties.
Import Invariant ServiceFacts ManagerFacts ReconcileFacts Shape ConnectFacts.
Import ReconcileCalls Examples Fixtures.
Local Open Scope list_scope.

Section World.
Variable W : World.
Variable x : option string.

Let unchanged (this : McpService) : Prop := initializationError this = x.

Lemma keeps_error_assign (name : string) (f : McpServer.t -> McpServer.t) :
  keeps unchanged (assign name f).
Proof. unfold assign. apply keeps_modify. intros this H. exact H. Qed.

Lemma keeps_error_refreshProvider : keeps unchanged (refreshProvider W).
Proof.
  intros this r this' w H Hx. rewrite refreshProvider_run in H.
  destruct (buildMcpProviderData W (getServers this)); outcome H; exact Hx.
Qed.

Lemma keeps_error_connectToServer (name : string) (config : json) :
  keeps unchanged (connectToServer W name config).
Proof.
  unfold connectToServer.
  apply keeps_bind; [apply keeps_modify; intros this H; exact H|]. intros _.
  apply keeps_try_finally; [|apply keeps_error_refreshProvider].
  apply keeps_try_catch.
  - unfold connectBody. apply keeps_bind; [apply reads_keeps, reads_lift|].
    intros tr. apply keeps_bind; [apply keeps_modify; intros this H; exact H|].
    intros _. unfold establish.
    apply keeps_bind; [apply reads_keeps, reads_perform|]. intros _.
    apply keeps_bind; [apply keeps_error_assign|]. intros _.
    apply keeps_bind; [apply reads_keeps, reads_lift|]. intros n8n.
    apply keeps_bind; [apply reads_keeps, reads_fetchToolsList|]. intros tools.
    apply keeps_bind; [apply reads_keeps, reads_fetchResourcesList|]. intros resources.
    apply keeps_bind; [apply reads_keeps, reads_fetchResourceTemplatesList|].
    intros templates. apply keeps_error_assign.
  - intros e. unfold connectFailed.
    apply keeps_bind; [apply reads_keeps, reads_get_this|]. intros this0.
    destruct (getServerConnection this0 name);
      [apply keeps_error_assign | apply keeps_ret].
Qed.

Lemma keeps_error_deleteConnection (name : string) :
  keeps unchanged (deleteConnection name).
Proof.
  intros this r this' w H Hx.
  destruct (deleteConnection_connections name this) as [s [w' [E _]]].
  unfold deleteConnection, bind, get_this, try_catch, perform, ret, modify in H.
  destruct (getServerConnection this name) as [c|].
  - destruct (Transport.close (transport c)); destruct (Client.close (client c));
      simpl in H; outcome H; exact Hx.
  - outcome H. exact Hx.
Qed.

Lemma keeps_error_updateServerConnections (serverConfigs : list (string * json)) :
  keeps unchanged (updateServerConnections W serverConfigs).
Proof.
  unfold updateServerConnections.
  apply keeps_bind; [apply reads_keeps, reads_get_this|]. intros this0.
  apply keeps_bind.
  - apply keeps_for_each. intros name. destruct (negb _).
    + apply keeps_error_deleteConnection.
    + apply keeps_ret.
  - intros _. apply keeps_for_each. intros [name config]. unfold reconcileEntry.
    apply keeps_bind; [apply reads_keeps, reads_get_this|]. intros this1.
    destruct (getServerConnection this1 name) as [cur|].
    + destruct (negb _); [|apply keeps_ret].
      apply keeps_try_catch; [|intros e; apply keeps_ret].
      apply keeps_bind; [apply keeps_error_deleteConnection|]. intros _.
      apply keeps_error_connectToServer.
    + apply keeps_try_catch; [apply keeps_error_connectToServer|].
      intros e. apply keeps_ret.
Qed.

End World.

(** [updateServerConnections] never throws, whatever the map. *)
Lemma updateServerConnections_returns (W : World)
    (serverConfigs : list (string * json)) (this : McpService) :
  exists this' w, updateServerConnections W serverConfigs this = (Ok tt, this', w).
Proof.
  destruct (removed_servers_deleted (map fst serverConfigs)
              (dedup (map (fun c => McpServer.name (server c)) (connections this))) this)
    as [s1 [w1 [E1 _]]].
  destruct (for_each_returns (reconcileEntry W) serverConfigs) with (this := s1)
    as [s2 [w2 E2]].
  { intros [name config] s.
    destruct (reconcileEntry_settles W name config s) as [s' [w [E _]]].
    exists s', w. exact E. }
  exists s2, (w1 ++ w2).
  rewrite ReconcileProperties.updateServerConnections_unfold.
  exact (bind_ok _ _ this s1 s2 tt (Ok tt) w1 w2 E1 E2).
Qed.

(** The [try] block of [initializeMcpServers] is the reconciliation and
    what follows it when servers are configured, and nothing otherwise. *)
Lemma loadServers_configured (W : World) (setting : Result (option json)) :
  loadServers W setting
  = match configuredServers setting with
    | Some servers =>
        (updateServerConnections W (JsObject.entries servers) ;;
         this <- get_this ;;
         let servers := getServers this in
         modify (set_hasResourcefulServers (existsb resourceful servers)) ;;
         provider <- lift (buildMcpProviderData W servers) ;;
         modify (set_mcpProvider provider))%service
    | None => ret tt
    end.
Proof.
  unfold loadServers, configuredServers.
  destruct (getMcpSettings setting) as [[| | | | |fs]|]; try reflexivity.
  destruct (Json.lookup "servers" fs) as [servers|]; [|reflexivity].
  destruct (Json.truthy servers); reflexivity.
Qed.

(** X18. [initialize] never throws, and what it does is decided by the
    settings. With no servers configured it only resets the error and the
    availability flag and makes no call. With servers configured it makes
    exactly the calls of [updateServerConnections] on the entries of
    [mcpSettings.servers], run on the service after that reset, and keeps
    the connections the reconciliation has left; then, when the snapshot
    builder returns for the servers of these connections, it ends without
    an error, with that snapshot as provider data, these servers as
    [getServers()] and [checkResourceAvailability()] telling whether one of
    them is connected and has a resource; and when the builder throws, it
    ends with the error "Failed during initializeMcpServers execution: ..."
    recorded, so that [getServers()] gives no server and
    [checkResourceAvailability()] is false. The error
    "Failed during initializeMcpServers: ..." of the [catch] in [initialize]
    itself is never recorded. *)
Theorem initialize_outcomes (W : World) (setting : Result (option json))
    (this : McpService) :
  let fresh := set_hasResourcefulServers false (set_initializationError None this) in
  match configuredServers setting with
  | None => initialize W setting this = (Ok tt, fresh, [])
  | Some servers =>
      exists reconciled initialized effects,
        updateServerConnections W (JsObject.entries servers) fresh
        = (Ok tt, reconciled, effects)
        /\ initialize W setting this = (Ok tt, initialized, effects)
        /\ connections initialized = connections reconciled
        /\ match buildMcpProviderData W (map server (connections reconciled)) with
           | Ok provider =>
               initializationError initialized = None
               /\ getProviderData initialized = provider
               /\ getServers initialized = map server (connections reconciled)
               /\ checkResourceAvailability initialized
                  = existsb resourceful (map server (connections reconciled))
           | Throw e =>
               initializationError initialized
               = Some ("Failed during initializeMcpServers execution: " ++ e)%string
               /\ getServers initialized = []
               /\ checkResourceAvailability initialized = false
           end
  end.
Proof.
  cbv zeta.
  set (fresh := set_hasResourcefulServers false (set_initializationError None this)).
  assert (Hrun : initialize W setting this
                 = try_catch
                     (try_catch (loadServers W setting)
                        (fun e =>
                           modify (set_initializationError
                                     (Some ("Failed during initializeMcpServers execution: "
                                            ++ e)%string))))
                     (fun e =>
                        modify (set_initializationError
                                  (Some ("Failed during initializeMcpServers: " ++ e)%string)))
                     fresh).
  { unfold initialize, initializeMcpServers, try_catch, bind, modify. fold fresh.
    destruct (loadServers W setting fresh) as [[[[]|e] s] w]; reflexivity. }
  rewrite Hrun, loadServers_configured. clear Hrun.
  destruct (configuredServers setting) as [servers|]; [|reflexivity].
  destruct (updateServerConnections_returns W (JsObject.entries servers) fresh)
    as [reconciled [effects E]].
  pose proof (keeps_error_updateServerConnections W None (JsObject.entries servers)
                fresh (Ok tt) reconciled effects E eq_refl) as Hnone.
  assert (Hservers : getServers reconciled = map server (connections reconciled)).
  { unfold getServers. rewrite Hnone. reflexivity. }
  unfold try_catch, bind, get_this, modify, lift. rewrite E, Hservers.
  destruct (buildMcpProviderData W (map server (connections reconciled)))
    as [p|e] eqn:Eb.
  - eexists _, _, _. split; [reflexivity|]. split; [rewrite !app_nil_r; reflexivity|].
    split; [reflexivity|]. rewrite Eb.
    split; [exact Hnone|]. split; [reflexivity|].
    unfold getServers, checkResourceAvailability.
    cbn [initializationError set_mcpProvider set_hasResourcefulServers
         connections hasResourcefulServers].
    rewrite Hnone. split; reflexivity.
  - eexists _, _, _. split; [reflexivity|]. split; [rewrite !app_nil_r; reflexivity|].
    split; [reflexivity|]. rewrite Eb. repeat split.
Qed.

Lemma parse_empty : Json.parse "" = None.
Proof. vm_compute. reflexivity. Qed.

(** X19. Settings given as JSON text are read like the parsed value. When
    the setting is a string that parses to a value other than a string,
    [initialize] does what it does when the setting is that value. *)
Theorem initialize_parses_text_settings
    (W : World) (text : string) (value : json) (this : McpService) :
  Json.parse text = Some value ->
  (forall t, value <> JStr t) ->
  initialize W (Ok (Some (JStr text))) this = initialize W (Ok (Some value)) this.
Proof.
  intros Hparse Hstr.
  assert (Hload : loadServers W (Ok (Some (JStr text))) = loadServers W (Ok (Some value))).
  { unfold loadServers, getMcpSettings.
    destruct (String.eqb_spec text "") as [->|_].
    - rewrite parse_empty in Hparse. discriminate Hparse.
    - rewrite Hparse. destruct value as [| | | | |fs]; try reflexivity.
      + exfalso. exact (Hstr _ eq_refl).
      + destruct (Json.lookup "servers" fs) eqn:E; cbv beta iota; rewrite ?E; reflexivity. }
  unfold initialize, initializeMcpServers. rewrite Hload. reflexivity.
Qed.

Lemma initialize_parses_text_settings_witness :
  initialize calm
    (Ok (Some (JStr (Str.dq "{'servers':{'srv':{'type':'sse','url':'http://localhost:3000/sse'}}}"))))
    (serviceOf [])
  = initialize calm
      (Ok (Some (JObj [("servers",
                        JObj [("srv", JObj [("type", JStr "sse");
                                            ("url", JStr "http://localhost:3000/sse")])])])))
      (serviceOf []).
Proof.
  apply (initialize_parses_text_settings calm).
  - vm_compute. reflexivity.
  - intros t H. discriminate H.
Defined.

End InitializeProperties.

(* ================================================================== *)
(** * The result of a tool call, processed *)
(* ================================================================== *)

Module ToolOutputProperties.
Import Str Processing.
Local Open Scope list_scope.

Section Fold.
Variables serverName toolName : string.
Variable now : nat -> Z.
Variable random : nat -> string.

Let step := addItem serverName toolName now random.

Lemma fold_from (content : list ToolContent.t) :
  forall acc,
  let result := fold_left step content acc in
  toolOutput result
  = (toolOutput acc ++ String.concat "" (map outputOf content))%string
  /\ hasAttachments result = hasAttachments acc || existsb isImage content
  /\ (exists pushed,
        attachments result = attachments acc ++ pushed
        /\ length pushed = length (filter isImage content)
        /\ Forall (fun m => Media.source m = (serverName ++ "/" ++ toolName)%string
                            /\ Media.title m = "Generated image"%string)
             pushed).
Proof.
  induction content as [|item content IH]; intros acc; cbv zeta.
  - simpl. rewrite ProcessingProperties.append_nil_r, orb_false_r.
    split; [reflexivity|]. split; [reflexivity|].
    exists []. rewrite app_nil_r. repeat split. constructor.
  - simpl fold_left. destruct (IH (step acc item)) as [Ho [Hh [pushed [Ha [Hl Hf]]]]].
    rewrite Ho, Hh. clear Ho Hh.
    assert (Hconcat : forall x l, String.concat "" (x :: l) = (x ++ String.concat "" l)%string).
    { intros x [|y l]; simpl; [rewrite ProcessingProperties.append_nil_r|]; reflexivity. }
    cbn [map]. rewrite Hconcat. cbn [existsb filter].
    assert (Hcases :
      (step acc item = add_output (outputOf item) acc /\ isImage item = false)
      \/ (step acc item = acc /\ outputOf item = ""%string /\ isImage item = false)
      \/ (step acc item
           = {| toolOutput := toolOutput acc;
                hasAttachments := true;
                attachments :=
                  attachments acc
                  ++ [imageOf serverName toolName (now (length (attachments acc)))
                        (random (length (attachments acc))) item] |}
           /\ outputOf item = ""%string /\ isImage item = true)).
    { unfold step, addItem, outputOf, isImage.
      destruct (String.eqb_spec (ToolContent.type item) "text") as [Et|Et].
      - left. rewrite Et. split; reflexivity.
      - destruct (String.eqb_spec (ToolContent.type item) "image") as [Ei|Ei].
        + right. right. rewrite Ei. repeat split; reflexivity.
        + destruct (ToolContent.type item =? "resource")%string.
          * left. split; reflexivity.
          * right. left. repeat split; reflexivity. }
    destruct Hcases as [[Hs Hi] | [[Hs [Hout Hi]] | [Hs [Hout Hi]]]];
      rewrite Hs in *; rewrite Hi; clear Hs Hi.
    + cbn [add_output toolOutput hasAttachments attachments] in *.
      rewrite ProcessingProperties.append_assoc.
      split; [reflexivity|]. split; [reflexivity|].
      exists pushed. repeat split; assumption.
    + rewrite Hout. split; [reflexivity|]. split; [reflexivity|].
      exists pushed. repeat split; assumption.
    + rewrite Hout. cbn [toolOutput hasAttachments attachments] in *.
      rewrite orb_true_r.
      split; [reflexivity|]. split; [reflexivity|].
      eexists (_ :: pushed). rewrite Ha, <- app_assoc. split; [reflexivity|].
      split; [simpl; rewrite Hl; reflexivity|].
      constructor; [split; reflexivity | exact Hf].
Qed.

End Fold.

(** X20. The three results of [processToolResult] fit together.
    [hasAttachments] is true exactly when an item of type [image] occurs,
    there is one attachment per such item, each attributed to
    "{serverName}/{toolName}", and [toolOutput] is the concatenation of
    what the items of type [text] and [resource] contribute, in order: image
    items, items of other types and the clock and random ids have no part
    in it. *)
Theorem processToolResult_results_fit
    (content : list ToolContent.t) (serverName toolName : string)
    (now : nat -> Z) (random : nat -> string) :
  let result := processToolResult content serverName toolName now random in
  toolOutput result = String.concat "" (map outputOf content)
  /\ hasAttachments result = existsb isImage content
  /\ length (attachments result) = length (filter isImage content)
  /\ Forall (fun m => Media.source m = (serverName ++ "/" ++ toolName)%string)
       (attachments result).
Proof.
  cbv zeta. unfold processToolResult.
  destruct (fold_from serverName toolName now random content
              {| toolOutput := ""; hasAttachments := false; attachments := [] |})
    as [Ho [Hh [pushed [Ha [Hl Hf]]]]].
  split; [exact Ho|]. split; [exact Hh|].
  simpl in Ha. split.
  - etransitivity; [|exact Hl]. f_equal. exact Ha.
  - eapply Forall_impl; [|rewrite <- Ha in Hf; exact Hf].
    intros m [H _]. exact H.
Qed.

End ToolOutputProperties.

(* ================================================================== *)
(** * The resource router: what is forwarded and what is answered locally *)
(* ================================================================== *)

Module ForwardProperties.
Import Str Router Examples Fixtures.
Local Open Scope list_scope.

(** X21. Everything else is forwarded. For a server with a connection
    that is not disabled, a uri that is not the calculator uri, does not
    begin with the weather prefix and is not a tool resource uri of this
    server is read from the server: [readResource] makes one
    [client.readResource] call with the uri as given and returns or throws
    what that call does. A tool resource uri that names another server is
    among them. *)
Theorem readResource_forwards_other_uris
    (this : McpService) (now : Z) (serverName uri : string)
    (connection : McpConnection) :
  getServerConnection this serverName = Some connection ->
  McpServer.disabled (server connection) <> Some true ->
  uri <> calculatorUri ->
  startsWith weatherPrefix uri = false ->
  (forall toolName, toolResourceMatch uri <> Some (serverName, toolName)) ->
  readResource this now serverName uri
  = (Client.readResource (client connection) uri, [ReadResource serverName uri]).
Proof.
  intros Hfind Hdis Hcalc Hweather Htool.
  unfold readResource. unfold getServerConnection in Hfind. rewrite Hfind.
  assert (Hc : (uri =? calculatorUri)%string = false) by (apply String.eqb_neq; exact Hcalc).
  rewrite Hc, Hweather.
  destruct (McpServer.disabled (server connection)) as [[|]|];
    try (exfalso; apply Hdis; reflexivity);
    (destruct (toolResourceMatch uri) as [[srv toolName]|] eqn:Em; [|reflexivity];
     destruct (String.eqb_spec srv serverName) as [->|_]; [|reflexivity];
     exfalso; exact (Htool toolName eq_refl)).
Qed.

Lemma readResource_forwards_other_uris_witness :
  readResource (serviceOf [echoServer; stormy]) 0 "srv" "mcp://n8n/synthetic/tool/echo"
  = (Client.readResource (client echoServer) "mcp://n8n/synthetic/tool/echo",
     [ReadResource "srv" "mcp://n8n/synthetic/tool/echo"]).
Proof.
  apply (readResource_forwards_other_uris (serviceOf [echoServer; stormy]) 0 "srv"
           "mcp://n8n/synthetic/tool/echo" echoServer).
  - reflexivity.
  - discriminate.
  - discriminate.
  - reflexivity.
  - intros toolName. vm_compute. discriminate.
Defined.

(** X22. [readResource] makes at most one call on the client, and what it
    does not forward it answers with one item. Either the read is
    forwarded (the one call is [client.readResource] with the uri, and the
    outcome is that of the call), or the only call, if any, is the weather
    tool with the location taken from the uri and a timeout of 10000, and
    then the method throws before any call or returns a response with
    exactly one content item, which carries the requested uri, a text and
    the mime type "application/json" or "application/mcp-error". *)
Theorem readResource_answers_locally_or_forwards
    (this : McpService) (now : Z) (serverName uri : string) :
  let '(r, effects) := readResource this now serverName uri in
  (effects = [ReadResource serverName uri]
   /\ exists connection,
        getServerConnection this serverName = Some connection
        /\ r = Client.readResource (client connection) uri)
  \/ ((effects = []
       \/ effects = [CallTool serverName "weather"
                       (JObj [("location", JStr (replace weatherPrefix "" uri))]) 10000])
      /\ ((fails r /\ effects = [])
          \/ exists mime text,
               r = Ok {| contents := [Content.mk uri (Some mime) (Some text) None] |}
               /\ (mime = "application/json"%string
                   \/ mime = "application/mcp-error"%string))).
Proof.
  unfold readResource, getServerConnection.
  destruct (find (named serverName) (connections this)) as [connection|] eqn:Efind.
  2:{ right. split; [left; reflexivity|]. left. split; [eexists|]; reflexivity. }
  assert (Hlocal :
    forall (P : Prop) mime text,
      mime = "application/json"%string \/ mime = "application/mcp-error"%string ->
      P \/ exists mime' text',
             Ok {| contents := [Content.mk uri (Some mime) (Some text) None] |}
             = Ok {| contents := [Content.mk uri (Some mime') (Some text') None] |}
             /\ (mime' = "application/json"%string
                 \/ mime' = "application/mcp-error"%string)).
  { intros P mime text H. right. exists mime, text. split; [reflexivity | exact H]. }
  assert (Hrest :
    let '(r, effects) :=
      if (uri =? calculatorUri)%string then
        (Ok (errorContent uri (calculatorError uri)), [])
      else if startsWith weatherPrefix uri then
        readWeather connection serverName uri now
      else
        match toolResourceMatch uri with
        | Some (srv, toolName) =>
            if (srv =? serverName)%string then
              readToolResource connection serverName uri toolName
            else
              (Client.readResource (client connection) uri,
               [ReadResource serverName uri])
        | None =>
            (Client.readResource (client connection) uri,
             [ReadResource serverName uri])
        end in
    (effects = [ReadResource serverName uri]
     /\ exists connection0,
          Some connection = Some connection0
          /\ r = Client.readResource (client connection0) uri)
    \/ ((effects = []
         \/ effects = [CallTool serverName "weather"
                         (JObj [("location", JStr (replace weatherPrefix "" uri))]) 10000])
        /\ ((fails r /\ effects = [])
            \/ exists mime text,
                 r = Ok {| contents := [Content.mk uri (Some mime) (Some text) None] |}
                 /\ (mime = "application/json"%string
                     \/ mime = "application/mcp-error"%string)))).
  { destruct (uri =? calculatorUri)%string.
    { right. split; [left; reflexivity|]. apply Hlocal. right. reflexivity. }
    destruct (startsWith weatherPrefix uri).
    { unfold readWeather, weatherPlaceholder, jsonContent, errorContent.
      destruct (find (toolNamed "weather") _).
      - destruct (Client.callTool _ _ _ _) as [result|e].
        + destruct (firstContent result).
          * right. split; [right; reflexivity|]. apply Hlocal. left. reflexivity.
          * right. split; [right; reflexivity|].
            destruct (Uri.decodeURIComponent _); apply Hlocal; [left | right]; reflexivity.
        + right. split; [right; reflexivity|]. apply Hlocal. right. reflexivity.
      - right. split; [left; reflexivity|].
        destruct (Uri.decodeURIComponent _); apply Hlocal; [left | right]; reflexivity. }
    destruct (toolResourceMatch uri) as [[srv toolName]|].
    - destruct (srv =? serverName)%string.
      + unfold readToolResource, jsonContent, errorContent.
        destruct (find (toolNamed toolName) _); right;
          (split; [left; reflexivity|]); apply Hlocal; [left | right]; reflexivity.
      + left. split; [reflexivity|]. exists connection. split; reflexivity.
    - left. split; [reflexivity|]. exists connection. split; reflexivity. }
  destruct (McpServer.disabled (server connection)) as [[|]|]; try exact Hrest.
  right. split; [left; reflexivity|]. left. split; [eexists|]; reflexivity.
Qed.

End ForwardProperties.

(* ================================================================== *)
(** * [JSON.parse] reads back what [JSON.stringify] writes *)
(* ================================================================== *)

Module JsonRoundTrip.
Import Str Json JsonForm.
Import ProcessingProperties.

(** ** Numerals *)

Lemma digits_stop (acc : Z) (rest : string) :
  ends_numeral rest -> digits acc rest = (acc, rest).
Proof.
  destruct rest as [|c r]; simpl; intros H; [reflexivity|].
  apply orb_false_iff in H as [H _]. apply orb_false_iff in H as [H _].
  apply orb_false_iff in H as [H _]. rewrite H. reflexivity.
Qed.

Lemma digits_uint (l : Decimal.uint) :
  forall (acc : positive) (rest : string),
  ends_numeral rest ->
  digits (Z.pos acc) (NilEmpty.string_of_uint l ++ rest)
  = (Z.pos (Pos.of_uint_acc l acc), rest).
Proof.
  induction l; intros acc rest H; cbn [NilEmpty.string_of_uint append Pos.of_uint_acc];
    try (apply digits_stop; exact H);
    cbn [digits]; unfold is_digit;
    match goal with
    | |- context [code ?c] =>
        let v := eval vm_compute in (code c) in change (code c) with v
    end; cbn [Z.leb Z.compare Pos.compare Pos.compare_cont andb];
    rewrite <- (IHl _ rest H); f_equal; lia.
Qed.

Lemma to_uint_head (p : positive) :
  exists (k : positive) (l : Decimal.uint) (c : ascii),
    NilZero.string_of_uint (Pos.to_uint p) = String c (NilEmpty.string_of_uint l)
    /\ is_digit c = true /\ Ascii.eqb c "0" = false
    /\ (code c - 48)%Z = Z.pos k
    /\ Pos.of_uint_acc l k = p.
Proof.
  pose proof (DecimalPos.Unsigned.of_to p) as Hof.
  pose proof (DecimalPos.Unsigned.to_of (Pos.to_uint p)) as Hto.
  rewrite Hof in Hto. simpl in Hto.
  pose proof (DecimalPos.Unsigned.to_uint_nonnil p) as Hnil.
  destruct (Pos.to_uint p) as [|l|l|l|l|l|l|l|l|l|l] eqn:E; [contradiction| |..].
  - exfalso. change (Decimal.unorm (Decimal.D0 l)) with (Decimal.unorm l) in Hto.
    destruct (Decimal.uint_eq_dec l Decimal.Nil) as [->|Hl].
    + exact (DecimalPos.Unsigned.to_uint_nonzero p E).
    + pose proof (DecimalFacts.nb_digits_unorm l Hl) as Hle.
      rewrite <- Hto in Hle. simpl in Hle. lia.
  - exists 1%positive, l, "1"%char. simpl in Hof. injection Hof as Hof. repeat split; assumption.
  - exists 2%positive, l, "2"%char. simpl in Hof. injection Hof as Hof. repeat split; assumption.
  - exists 3%positive, l, "3"%char. simpl in Hof. injection Hof as Hof. repeat split; assumption.
  - exists 4%positive, l, "4"%char. simpl in Hof. injection Hof as Hof. repeat split; assumption.
  - exists 5%positive, l, "5"%char. simpl in Hof. injection Hof as Hof. repeat split; assumption.
  - exists 6%positive, l, "6"%char. simpl in Hof. injection Hof as Hof. repeat split; assumption.
  - exists 7%positive, l, "7"%char. simpl in Hof. injection Hof as Hof. repeat split; assumption.
  - exists 8%positive, l, "8"%char. simpl in Hof. injection Hof as Hof. repeat split; assumption.
  - exists 9%positive, l, "9"%char. simpl in Hof. injection Hof as Hof. repeat split; assumption.
Qed.

Lemma checked_ends (n : Z) (rest : string) :
  ends_numeral rest -> checked (Some (n, rest)) = Some (n, rest).
Proof.
  destruct rest as [|c r]; simpl; intros H; [reflexivity|]. rewrite H. reflexivity.
Qed.

Lemma parse_number_digit (c : ascii) (r : string) :
  is_digit c = true -> parse_number (String c r) = checked (unsigned (String c r)).
Proof.
  intros H. unfold parse_number.
  destruct c as [[|] [|] [|] [|] [|] [|] [|] [|]];
    try (vm_compute in H; discriminate H); reflexivity.
Qed.

Lemma parse_number_minus (r : string) :
  parse_number (String "-" r)
  = checked match unsigned r with
            | Some (n, rest) => Some ((- n)%Z, rest)
            | None => None
            end.
Proof. reflexivity. Qed.

Lemma unsigned_pos (p : positive) (rest : string) :
  ends_numeral rest ->
  exists c r,
    (NilZero.string_of_uint (Pos.to_uint p) ++ rest)%string = String c r
    /\ is_digit c = true
    /\ unsigned (String c r) = Some (Z.pos p, rest).
Proof.
  intros H. destruct (to_uint_head p) as [k [l [c [E [Hd [Hz [Hk Hp]]]]]]].
  exists c, (NilEmpty.string_of_uint l ++ rest)%string.
  split; [rewrite E; reflexivity|]. split; [exact Hd|].
  unfold unsigned. rewrite Hz, Hd. cbn [digits]. rewrite Hd.
  replace (0 * 10 + (code c - 48))%Z with (Z.pos k) by lia.
  rewrite (digits_uint l k rest H), Hp. reflexivity.
Qed.

(** A numeral written by [show_Z] is read back. *)
Lemma parse_number_show (n : Z) (rest : string) :
  ends_numeral rest ->
  parse_number (show_Z n ++ rest) = Some (n, rest).
Proof.
  intros H. unfold show_Z. destruct n as [|p|p]; cbn [Z.to_int NilZero.string_of_int].
  - change (NilZero.string_of_uint (Decimal.D0 Decimal.Nil) ++ rest)%string
      with (String "0" rest).
    rewrite parse_number_digit by reflexivity. cbn [unsigned Ascii.eqb Bool.eqb].
    apply checked_ends. exact H.
  - destruct (unsigned_pos p rest H) as [c [r [E [Hd Hu]]]].
    rewrite E, (parse_number_digit c r Hd), Hu. apply checked_ends. exact H.
  - destruct (unsigned_pos p rest H) as [c [r [E [Hd Hu]]]].
    cbn [append]. rewrite parse_number_minus, E, Hu.
    apply (checked_ends (Z.neg p)). exact H.
Qed.

(** The first character of a numeral. *)
Lemma show_Z_head (n : Z) (rest : string) :
  exists c r, (show_Z n ++ rest)%string = String c r
              /\ (is_digit c = true \/ c = "-"%char).
Proof.
  unfold show_Z. destruct n as [|p|p]; cbn [Z.to_int NilZero.string_of_int].
  - exists "0"%char, rest. split; [reflexivity | left; reflexivity].
  - destruct (to_uint_head p) as [k [l [c [E [Hd _]]]]].
    rewrite E. eexists _, _. split; [reflexivity | left; exact Hd].
  - eexists _, _. split; [reflexivity | right; reflexivity].
Qed.

(** ** String literals *)

Lemma parse_escaped_char (c : ascii) (text : string) :
  parse_chars (escape_char c ++ text)
  = match parse_chars text with
    | Some (l, rest) => Some (unit_of c :: l, rest)
    | None => None
    end.
Proof.
  destruct c as [[|] [|] [|] [|] [|] [|] [|] [|]]; reflexivity.
Qed.

Lemma parse_escaped (s rest : string) :
  parse_chars (escape s ++ String dquote rest) = Some (literal s, rest).
Proof.
  induction s as [|c s IH]; simpl.
  - reflexivity.
  - rewrite append_assoc, parse_escaped_char, IH. reflexivity.
Qed.

Lemma encode_unit_of (c : ascii) (l : list unit16) :
  encode_units (unit_of c :: l) = String c (encode_units l).
Proof.
  destruct c as [[|] [|] [|] [|] [|] [|] [|] [|]];
    try reflexivity; destruct l as [|[b|lo] l]; reflexivity.
Qed.

Lemma encode_literal (s : string) : encode_units (literal s) = s.
Proof.
  induction s as [|c s IH]; [reflexivity|].
  cbn [literal]. rewrite encode_unit_of, IH. reflexivity.
Qed.

(** A string literal written by [quote] is read back. *)
Lemma parse_string_quote (s rest : string) :
  exists text,
    (quote s ++ rest)%string = String dquote text
    /\ parse_string text = Some (s, rest).
Proof.
  exists (escape s ++ String dquote rest)%string. split.
  - unfold quote, quoted. cbn [append]. rewrite append_assoc. reflexivity.
  - unfold parse_string. rewrite parse_escaped, encode_literal. reflexivity.
Qed.

(** ** Arrays and objects *)

Lemma stringify_arr (xs : list json) :
  stringify (JArr xs) = ("[" ++ items_text xs ++ "]")%string.
Proof.
  cbn [stringify].
  assert (E : forall l,
    (fix items (l : list json) : string :=
       match l with
       | [] => ""%string
       | x :: r => (stringify x ++ match r with [] => "" | _ => "," ++ items r end)%string
       end) l = items_text l).
  { induction l as [|x r IH]; [reflexivity|]. cbn [items_text]. rewrite <- IH. reflexivity. }
  rewrite E. reflexivity.
Qed.

Lemma stringify_obj (fs : list (string * json)) :
  stringify (JObj fs) = ("{" ++ members_text fs ++ "}")%string.
Proof.
  cbn [stringify].
  assert (E : forall l,
    (fix members (l : list (string * json)) : string :=
       match l with
       | [] => ""%string
       | (k, x) :: r =>
           (quote k ++ ":" ++ stringify x
            ++ match r with [] => "" | _ => "," ++ members r end)%string
       end) l = members_text l).
  { induction l as [|[k x] r IH]; [reflexivity|]. cbn [members_text]. rewrite <- IH. reflexivity. }
  rewrite E. reflexivity.
Qed.

Lemma need_arr (xs : list json) : need (JArr xs) = S (need_items xs).
Proof.
  cbn [need].
  assert (E : forall l,
    (fix items (l : list json) : nat :=
       match l with
       | [] => 0
       | x :: r => S (Nat.max (need x) (items r))
       end) l = need_items l).
  { induction l as [|x r IH]; [reflexivity|]. cbn [need_items]. rewrite <- IH. reflexivity. }
  rewrite E. reflexivity.
Qed.

Lemma need_obj (fs : list (string * json)) : need (JObj fs) = S (need_members fs).
Proof.
  cbn [need].
  assert (E : forall l,
    (fix members (l : list (string * json)) : nat :=
       match l with
       | [] => 0
       | (_, x) :: r => S (Nat.max (need x) (members r))
       end) l = need_members l).
  { induction l as [|[k x] r IH]; [reflexivity|]. cbn [need_members]. rewrite <- IH. reflexivity. }
  rewrite E. reflexivity.
Qed.

Lemma built_arr (xs : list json) : built (JArr xs) <-> Forall built xs.
Proof.
  cbn [built]. induction xs as [|x r IH].
  - split; [constructor | trivial].
  - split.
    + intros [Hx Hr]. constructor; [exact Hx | apply IH; exact Hr].
    + intros H. inversion H; subst. split; [assumption | apply IH; assumption].
Qed.

Lemma built_obj (fs : list (string * json)) :
  built (JObj fs) <-> put_all fs [] = fs /\ Forall (fun kv => built (snd kv)) fs.
Proof.
  cbn [built]. apply and_iff_compat_l.
  induction fs as [|[k x] r IH].
  - split; [constructor | trivial].
  - split.
    + intros [Hx Hr]. constructor; [exact Hx | apply IH; exact Hr].
    + intros H. inversion H; subst. split; [assumption | apply IH; assumption].
Qed.

Lemma length_append (a b : string) :
  String.length (a ++ b) = String.length a + String.length b.
Proof. induction a as [|x a IH]; simpl; [reflexivity | rewrite IH; reflexivity]. Qed.

(** ** The branches of [parse_value] *)

Lemma parse_value_string (f : nat) (text : string) :
  parse_value (S f) (String dquote text)
  = match parse_string text with
    | Some (x, rest) => Some (JStr x, rest)
    | None => None
    end.
Proof. reflexivity. Qed.

Lemma parse_value_number (f : nat) (c : ascii) (r : string) :
  is_digit c = true \/ c = "-"%char ->
  parse_value (S f) (String c r)
  = match parse_number (String c r) with
    | Some (n, rest) => Some (JNum n, rest)
    | None => None
    end.
Proof.
  intros [H | ->]; [|reflexivity].
  destruct c as [[|] [|] [|] [|] [|] [|] [|] [|]];
    try (vm_compute in H; discriminate H); reflexivity.
Qed.

Lemma parse_value_array (f : nat) (c : ascii) (t : string) :
  value_start c = true ->
  parse_value (S f) (String "[" (String c t)) = parse_items f (String c t) [].
Proof.
  intros H.
  destruct c as [[|] [|] [|] [|] [|] [|] [|] [|]];
    try (vm_compute in H; discriminate H); reflexivity.
Qed.

Lemma parse_value_object (f : nat) (t : string) :
  parse_value (S f) (String "{" (String dquote t)) = parse_members f (String dquote t) [].
Proof. reflexivity. Qed.

Lemma parse_items_step (f : nat) (s : string) (acc : list json) :
  parse_items (S f) s acc
  = match parse_value f s with
    | Some (v, rest) =>
        match json_ws rest with
        | String "," rest' => parse_items f rest' (acc ++ [v])
        | String "]" rest' => Some (JArr (acc ++ [v]), rest')
        | _ => None
        end
    | None => None
    end.
Proof. reflexivity. Qed.

Lemma parse_members_step (f : nat) (t : string) (acc : list (string * json)) :
  parse_members (S f) (String dquote t) acc
  = match parse_string t with
    | Some (k, rest) =>
        match json_ws rest with
        | String ":" rest1 =>
            match parse_value f rest1 with
            | Some (v, rest2) =>
                match json_ws rest2 with
                | String "," rest' => parse_members f rest' (obj_put k v acc)
                | String "}" rest' => Some (JObj (obj_put k v acc), rest')
                | _ => None
                end
            | None => None
            end
        | _ => None
        end
    | None => None
    end.
Proof. reflexivity. Qed.

(** The text of a value begins with a character that starts a value. *)
Lemma stringify_start (v : json) (rest : string) :
  exists c t, (stringify v ++ rest)%string = String c t /\ value_start c = true.
Proof.
  destruct v as [|[|]|n|s|xs|fs].
  - eexists _, _. split; reflexivity.
  - eexists _, _. split; reflexivity.
  - eexists _, _. split; reflexivity.
  - destruct (show_Z_head n rest) as [c [r [E [H | H]]]];
      exists c, r; (split; [exact E|]).
    + unfold value_start. rewrite H. reflexivity.
    + rewrite H. reflexivity.
  - destruct (parse_string_quote s rest) as [text [E _]].
    eexists _, _. split; [exact E | reflexivity].
  - rewrite stringify_arr. eexists _, _. split; reflexivity.
  - rewrite stringify_obj. eexists _, _. split; reflexivity.
Qed.

Lemma items_read_back (xs : list json) :
  xs <> [] ->
  Forall reads_back xs -> Forall built xs ->
  forall (f : nat) (acc : list json) (rest : string),
  need_items xs <= f ->
  parse_items f (items_text xs ++ String "]" rest) acc = Some (JArr (acc ++ xs), rest).
Proof.
  induction xs as [|x r IH]; intros Hne Hall Hb f acc rest Hf; [contradiction|].
  inversion Hall as [|? ? Hx Hr]; subst. inversion Hb as [|? ? Hbx Hbr]; subst.
  cbn [need_items] in Hf. destruct f as [|f]; [lia|].
  rewrite parse_items_step. cbn [items_text]. rewrite append_assoc.
  destruct r as [|y r'].
  - cbn [append]. rewrite (Hx Hbx f (String "]" rest)); [reflexivity | lia | reflexivity].
  - rewrite append_assoc.
    change (("," ++ items_text (y :: r') ++ String "]" rest)%string)
      with (String "," (items_text (y :: r') ++ String "]" rest)).
    rewrite (Hx Hbx f _); [| lia | reflexivity].
    change (json_ws (String "," (items_text (y :: r') ++ String "]" rest)))
      with (String "," (items_text (y :: r') ++ String "]" rest)).
    cbv iota beta.
    rewrite (IH ltac:(discriminate) Hr Hbr f (acc ++ [x])%list rest ltac:(lia)).
    rewrite <- app_assoc. reflexivity.
Qed.

Lemma members_read_back (fs : list (string * json)) :
  fs <> [] ->
  Forall (fun kv => reads_back (snd kv)) fs -> Forall (fun kv => built (snd kv)) fs ->
  forall (f : nat) (acc : list (string * json)) (rest : string),
  need_members fs <= f ->
  parse_members f (members_text fs ++ String "}" rest) acc
  = Some (JObj (put_all fs acc), rest).
Proof.
  induction fs as [|[k x] r IH]; intros Hne Hall Hb f acc rest Hf; [contradiction|].
  inversion Hall as [|? ? Hx Hr]; subst. inversion Hb as [|? ? Hbx Hbr]; subst.
  cbn [snd] in Hx, Hbx.
  cbn [need_members] in Hf. destruct f as [|f]; [lia|].
  cbn [members_text]. rewrite !append_assoc.
  destruct (parse_string_quote k
              (":" ++ stringify x
               ++ match r with [] => "" | _ :: _ => "," ++ members_text r end
               ++ String "}" rest)%string) as [text [E Hk]].
  rewrite E, parse_members_step, Hk.
  change (json_ws (":" ++ ?t)%string) with (String ":" t).
  cbv iota beta.
  destruct r as [|y r'].
  - cbn [append]. rewrite (Hx Hbx f (String "}" rest)); [reflexivity | lia | reflexivity].
  - change (("," ++ members_text (y :: r')) ++ String "}" rest)%string
      with (String "," (members_text (y :: r') ++ String "}" rest)).
    rewrite (Hx Hbx f _); [| lia | reflexivity].
    change (json_ws (String "," (members_text (y :: r') ++ String "}" rest)))
      with (String "," (members_text (y :: r') ++ String "}" rest)).
    cbv iota beta.
    rewrite (IH ltac:(discriminate) Hr Hbr f (obj_put k x acc) rest ltac:(lia)).
    reflexivity.
Qed.

Lemma value_reads_back (v : json) : reads_back v.
Proof.
  induction v using json_induction; intros Hb fuel rest Hf Hrest.
  - destruct fuel as [|f]; [simpl in Hf; lia | reflexivity].
  - destruct fuel as [|f]; [simpl in Hf; lia | destruct b; reflexivity].
  - destruct fuel as [|f]; [simpl in Hf; lia|].
    destruct (show_Z_head n rest) as [c [r [E Hc]]].
    cbn [stringify]. rewrite E, (parse_value_number f c r Hc), <- E.
    rewrite (parse_number_show n rest Hrest). reflexivity.
  - destruct fuel as [|f]; [simpl in Hf; lia|].
    destruct (parse_string_quote s rest) as [text [E Hs]].
    cbn [stringify]. rewrite E, parse_value_string, Hs. reflexivity.
  - rewrite need_arr in Hf. destruct fuel as [|f]; [lia|].
    rewrite stringify_arr. apply built_arr in Hb.
    destruct xs as [|x r]; [reflexivity|].
    destruct (stringify_start x
                (match r with [] => "" | _ :: _ => "," ++ items_text r end
                 ++ String "]" rest)%string) as [c [t [E Hc]]].
    assert (Et : (("[" ++ items_text (x :: r) ++ "]") ++ rest)%string
                 = String "[" (items_text (x :: r) ++ String "]" rest)).
    { cbn [append]. rewrite append_assoc. reflexivity. }
    rewrite Et.
    assert (Es : (items_text (x :: r) ++ String "]" rest)%string = String c t).
    { cbn [items_text]. rewrite append_assoc. exact E. }
    rewrite Es, (parse_value_array f c t Hc), <- Es.
    rewrite (items_read_back (x :: r) ltac:(discriminate) H Hb f [] rest ltac:(lia)).
    reflexivity.
  - rewrite need_obj in Hf. destruct fuel as [|f]; [lia|].
    rewrite stringify_obj. apply built_obj in Hb. destruct Hb as [Hput Hb].
    destruct fs as [|[k x] r]; [reflexivity|].
    assert (Et : (("{" ++ members_text ((k, x) :: r) ++ "}") ++ rest)%string
                 = String "{" (members_text ((k, x) :: r) ++ String "}" rest)).
    { cbn [append]. rewrite append_assoc. reflexivity. }
    rewrite Et.
    destruct (parse_string_quote k
                (":" ++ stringify x
                 ++ match r with [] => "" | _ :: _ => "," ++ members_text r end
                 ++ String "}" rest)%string) as [text [E _]].
    assert (Es : (members_text ((k, x) :: r) ++ String "}" rest)%string
                 = String dquote text).
    { cbn [members_text]. rewrite !append_assoc. exact E. }
    rewrite Es, parse_value_object, <- Es.
    rewrite (members_read_back ((k, x) :: r) ltac:(discriminate) H Hb f [] rest ltac:(lia)).
    rewrite Hput. reflexivity.
Qed.

(** ** The recursion depth [JSON.parse] allows is enough *)

Lemma need_le_length (v : json) : need v <= String.length (stringify v).
Proof.
  induction v using json_induction.
  - simpl. lia.
  - destruct b; simpl; lia.
  - destruct (show_Z_head n "") as [c [r [E _]]]. rewrite append_nil_r in E.
    cbn [stringify need]. rewrite E. simpl. lia.
  - cbn [stringify need]. unfold quote, quoted. simpl. lia.
  - rewrite need_arr, stringify_arr. cbn [append String.length].
    rewrite length_append. cbn [String.length].
    assert (Hi : need_items xs <= String.length (items_text xs) + 1).
    { induction H as [|x r Hx _ IH]; [simpl; lia|].
      cbn [need_items items_text]. rewrite length_append.
      destruct r as [|y r']; [simpl in *; lia|].
      cbn [append String.length]. lia. }
    lia.
  - rewrite need_obj, stringify_obj. cbn [append String.length].
    rewrite length_append. cbn [String.length].
    assert (Hi : need_members fs <= String.length (members_text fs) + 1).
    { induction H as [|[k x] r Hx _ IH]; [simpl; lia|].
      cbn [snd] in Hx.
      cbn [need_members members_text]. rewrite !length_append.
      destruct r as [|y r']; [simpl in *; lia|].
      cbn [append String.length]. lia. }
    lia.
Qed.

(** [JSON.parse(JSON.stringify(v))] gives [v] back, for every value as
    [JSON.parse] builds it. *)
Lemma parse_stringify (v : json) : built v -> parse (stringify v) = Some v.
Proof.
  intros Hb. unfold parse.
  pose proof (need_le_length v) as Hn.
  pose proof (value_reads_back v Hb (2 * String.length (stringify v) + 2) ""
                ltac:(lia) I) as E.
  rewrite append_nil_r in E. rewrite E. reflexivity.
Qed.

End JsonRoundTrip.

(* ================================================================== *)
(** * The stored configuration, read again *)
(* ================================================================== *)

Module ConfigurationProperties.
Import Invariant ServiceFacts ManagerFacts ReconcileFacts Shape ConnectFacts.
Import ReconcileCalls RestartProperties JsonForm JsonRoundTrip Examples Fixtures.
Local Open Scope list_scope.

Lemma stringify_nonempty (v : json) : Json.stringify v <> ""%string.
Proof.
  destruct (stringify_start v "") as [c [t [E _]]].
  rewrite ProcessingProperties.append_nil_r in E. rewrite E. discriminate.
Qed.

(** X23. A restart reconnects with the configuration the connect was
    given. [connectToServer] stores [JSON.stringify(config)] and
    [restartConnection] reads it with [JSON.parse]: for a configuration as
    [JSON.parse] builds it, the restart of a server whose connection stores
    that text never fails on the text; it closes the connection once, then
    makes the calls of [connectToServer] with the same configuration, and
    the connection it leaves for the name, if any, stores the same text
    again. *)
Theorem restartConnection_keeps_the_configuration
    (W : World) (serverName : string) (this : McpService)
    (current : McpConnection) (config : json) :
  getServerConnection this serverName = Some current ->
  McpServer.config (server current) = Json.stringify config ->
  built config ->
  exists r restarted,
    restartConnection W serverName this
    = (r, restarted, closeCalls current ++ openingCalls W serverName config)
    /\ match getServerConnection restarted serverName with
       | Some c => McpServer.config (server c) = McpServer.config (server current)
       | None => fails (buildTransport W serverName config)
       end
    /\ (fails r -> exists servers, fails (buildMcpProviderData W servers)).
Proof.
  intros Hfind Hcfg Hbuilt.
  assert (Hne : McpServer.config (server current) <> ""%string).
  { rewrite Hcfg. apply stringify_nonempty. }
  assert (Hparse : Json.parse (McpServer.config (server current)) = Some config).
  { rewrite Hcfg. apply parse_stringify. exact Hbuilt. }
  destruct (restartConnection_run W serverName this current config Hfind Hne Hparse)
    as [deleted [Hl Hrun]].
  pose proof (connectToServer_calls W serverName config deleted) as Hcalls.
  unfold calls in Hcalls.
  destruct (connectToServer W serverName config deleted) as [[r2 s2] w2] eqn:E2.
  simpl in Hcalls. subst w2.
  pose proof (connectToServer_replaces W serverName config deleted r2 s2 _ E2)
    as [tail [_ [_ Hsettled]]].
  unfold settled in Hsettled. cbn [fst snd] in Hsettled.
  eexists _, s2. split; [exact Hrun|]. split.
  - unfold getServerConnection. rewrite Hcfg. exact (proj1 Hsettled).
  - destruct r2 as [[]|e].
    + intros [x Hx]. discriminate Hx.
    + intros _. destruct (connectToServer_throws W serverName config deleted s2 e _ E2)
        as [servers Hs].
      exists servers, e. exact Hs.
Qed.

Lemma restartConnection_keeps_the_configuration_witness :
  exists r restarted,
    restartConnection calm "srv" (serviceOf [echoServer; stormy])
    = (r, restarted, closeCalls echoServer ++ openingCalls calm "srv" sseConfig)
    /\ match getServerConnection restarted "srv" with
       | Some c => McpServer.config (server c) = McpServer.config (server echoServer)
       | None => fails (buildTransport calm "srv" sseConfig)
       end
    /\ (fails r -> exists servers, fails (buildMcpProviderData calm servers)).
Proof.
  apply (restartConnection_keeps_the_configuration calm "srv"
           (serviceOf [echoServer; stormy]) echoServer sseConfig).
  - reflexivity.
  - vm_compute. reflexivity.
  - split; [reflexivity|]. repeat split.
Defined.

(** X24. A tool call runs under the timeout of the configuration the
    connect was given. For a connected server whose connection stores
    [JSON.stringify] of a configuration object as [JSON.parse] builds it,
    in which [timeoutInMillis] and [timeout] are numbers or absent,
    [callTool] makes one call on the client, with the arguments given (an
    empty object when there are none) and as timeout the [timeoutInMillis]
    of the configuration when it is there and not 0, else its [timeout]
    when that is there and not 0, else the default of
    [DEFAULT_MCP_TIMEOUT_SECONDS] seconds. *)
Theorem callTool_uses_the_configured_timeout
    (DEFAULT_MCP_TIMEOUT_SECONDS : Z) (this : McpService)
    (serverName toolName : string) (toolArguments : option json)
    (conn : McpConnection) (fields : list (string * json)) :
  getServerConnection this serverName = Some conn ->
  McpServer.status (server conn) = connected ->
  McpServer.config (server conn) = Json.stringify (JObj fields) ->
  built (JObj fields) ->
  numeric_option fields "timeoutInMillis" ->
  numeric_option fields "timeout" ->
  snd (callTool DEFAULT_MCP_TIMEOUT_SECONDS this serverName toolName toolArguments)
  = [CallTool serverName toolName (or_empty toolArguments)
       (let millis := number_option fields "timeoutInMillis" in
        let timeout := number_option fields "timeout" in
        if negb (millis =? 0)%Z then millis
        else if negb (timeout =? 0)%Z then timeout
        else (DEFAULT_MCP_TIMEOUT_SECONDS * 1000)%Z)].
Proof.
  intros Hfind Hstatus Hcfg Hbuilt _ _.
  unfold callTool. rewrite Hfind, Hstatus. cbn [Status_eqb negb].
  assert (Ht : toolTimeout DEFAULT_MCP_TIMEOUT_SECONDS (McpServer.config (server conn))
               = (let millis := number_option fields "timeoutInMillis" in
                  let timeout := number_option fields "timeout" in
                  if negb (millis =? 0)%Z then millis
                  else if negb (timeout =? 0)%Z then timeout
                  else (DEFAULT_MCP_TIMEOUT_SECONDS * 1000)%Z)).
  { unfold toolTimeout. rewrite Hcfg.
    destruct (String.eqb_spec (Json.stringify (JObj fields)) "") as [E|_].
    - exfalso. exact (stringify_nonempty _ E).
    - rewrite (parse_stringify _ Hbuilt). reflexivity. }
  cbv zeta. cbv zeta in Ht. rewrite Ht.
  destruct (Client.callTool _ _ _ _) as [result|e]; [|reflexivity].
  destruct (hasContentArray result); reflexivity.
Qed.

Lemma callTool_uses_the_configured_timeout_witness :
  snd (callTool 60 (serviceOf [talkative]) "n8n" "echo" None)
  = [CallTool "n8n" "echo" (JObj []) 5000].
Proof.
  apply (callTool_uses_the_configured_timeout 60 (serviceOf [talkative]) "n8n" "echo"
           None talkative
           [("type", JStr "sse"); ("url", JStr "http://localhost:5678/sse");
            ("timeout", JNum 5000)]).
  - reflexivity.
  - reflexivity.
  - vm_compute. reflexivity.
  - split; [reflexivity|]. repeat split.
  - exact I.
  - exact I.
Defined.

End ConfigurationProperties.
